(** * flux: the registration lifecycle manager (package [registration])

    A shallow embedding of [registration/registrar.go] and of the [Close]
    methods of the two registry transports ([registry/http_client.go],
    [registry/grpc_client.go]).

    Go code that talks to the registry, sleeps, logs or touches the
    Registrar's shared fields is written in a small command monad [Prog];
    the meaning of the commands is given twice from the same per-command
    functions: a sequential executor [exec] that answers the program from
    a scripted environment, and an interleaving step function [sys_step]
    for the foreground call path running next to the heartbeat goroutine. *)

From Stdlib Require Import ZArith List String Bool Lia.
Import ListNotations.
Local Open Scope string_scope.
Local Open Scope list_scope.
Local Open Scope Z_scope.

(** ** Go machine integers

    [int] and [time.Duration] are 64-bit two's complement integers:
    arithmetic wraps around silently. *)
Module GoInt.

Definition MaxInt64 : Z := 2 ^ 63 - 1.
Definition MinInt64 : Z := - 2 ^ 63.

Definition wrap64 (x : Z) : Z := (x + 2 ^ 63) mod 2 ^ 64 - 2 ^ 63.

Definition mul64 (a b : Z) : Z := wrap64 (a * b).

(** [a << s] for a non-negative shift count [s]; bits shifted past
    position 63 are lost. *)
Definition shl64 (a s : Z) : Z := wrap64 (Z.shiftl a s).

Definition in_range (x : Z) : Prop := MinInt64 <= x <= MaxInt64.

End GoInt.

(** [time.Duration]: a count of nanoseconds. *)
Definition Duration : Type := Z.

Definition Second : Duration := 1000000000.

(** ** Errors

    Go errors are values built by [fmt.Errorf]; the verb [%w] wraps a
    cause that [errors.Is] can find again.  [message] names the
    [fmt.Errorf] call sites of the package with the arguments they
    format. *)
Inductive message : Type :=
| MsgConfigNil
| MsgRegistryURL
| MsgHeartbeatInterval
| MsgCallTimeout
| MsgMaxRetries
| MsgRetryDelay
| MsgGrpcClient
| MsgUnsupportedType (registryType : string)
| MsgAbortedRetry (serviceName : string)
| MsgRetriesExhausted (serviceName id : string) (maxRetries : Z)
| MsgGrpcDial (registryAddress : string).

Inductive error : Type :=
| Sentinel (name : string)
| Errorf (m : message)
| Wrapf (m : message) (cause : error).

(** [ctx.Err()] once [ctx.Done()] is closed. *)
Inductive ctxErr : Type := Canceled | DeadlineExceeded.

Definition ctxError (e : ctxErr) : error :=
  match e with
  | Canceled => Sentinel "context canceled"
  | DeadlineExceeded => Sentinel "context deadline exceeded"
  end.

Definition message_eq_dec (a b : message) : {a = b} + {a <> b}.
Proof. decide equality; auto using string_dec, Z.eq_dec. Defined.

Definition error_eq_dec (a b : error) : {a = b} + {a <> b}.
Proof. decide equality; auto using string_dec, message_eq_dec. Defined.

(** [errors.Is(err, target)]: [target] occurs on the wrap chain of [err]. *)
Fixpoint errors_Is (err target : error) : bool :=
  if error_eq_dec err target then true
  else match err with
       | Wrapf _ cause => errors_Is cause target
       | _ => false
       end.

(** ** Data model *)

(** [api.ServiceInstance] *)
Record ServiceInstance : Type := {
  ID : string;
  ServiceName : string;
  Host : string;
  Port : Z;
  URL : string;
  HealthPath : string
}.

(** [registration.Config] *)
Record Config : Type := {
  RegistryURL : string;
  RegistryType : string;
  HeartbeatInterval : Duration;
  CallTimeout : Duration;
  MaxRetries : Z;
  RetryDelay : Duration
}.

(** [NewDefaultConfig]: the zero value for the two strings. *)
Definition NewDefaultConfig : Config := {|
  RegistryURL := "";
  RegistryType := "";
  HeartbeatInterval := 10 * Second;
  CallTimeout := 5 * Second;
  MaxRetries := 5;
  RetryDelay := 1 * Second
|}.

(** ** Registry transports (package [registry])

    Only [Close] has behaviour of its own in this development; the three
    registry calls are answered by the environment (see [Prog]). *)
Module connectivity.

(** [google.golang.org/grpc/connectivity.State] *)
Inductive State : Type := Idle | Connecting | Ready | TransientFailure | Shutdown.

Definition eqb (a b : State) : bool :=
  match a, b with
  | Idle, Idle | Connecting, Connecting | Ready, Ready
  | TransientFailure, TransientFailure | Shutdown, Shutdown => true
  | _, _ => false
  end.

End connectivity.

(** The part of [*grpc.ClientConn] the package uses.  The connection type
    belongs to the gRPC library, so it is an interface here; [ClientConnLaws]
    is the library's contract for [Close]: closing a connection that is not
    shut down succeeds, and a closed connection reports [Shutdown]. *)
Class ClientConnAPI (C : Type) : Type := {
  grpc_NewClient : string -> C + error;
  GetState : C -> connectivity.State;
  conn_Close : C -> C * option error
}.

Class ClientConnLaws (C : Type) `{ClientConnAPI C} : Prop := {
  conn_Close_shutdown : forall c, GetState (fst (conn_Close c)) = connectivity.Shutdown;
  conn_Close_live : forall c,
    GetState c <> connectivity.Shutdown -> snd (conn_Close c) = None
}.

(** A reference connection that meets the contract, to run the development
    on: [Close] on a closed connection returns an error, otherwise it moves
    the connection to [Shutdown] and returns nil; [NewClient] refuses the
    empty address. *)
Module GrpcGo.

Record ClientConn : Type := { target : string; state : connectivity.State }.

Definition ErrClientConnClosing : error :=
  Sentinel "grpc: the client connection is closing".

Definition NewClient (addr : string) : ClientConn + error :=
  if String.eqb addr "" then inr (Sentinel "grpc: invalid target")
  else inl {| target := addr; state := connectivity.Idle |}.

Definition Close (cc : ClientConn) : ClientConn * option error :=
  if connectivity.eqb (state cc) connectivity.Shutdown
  then (cc, Some ErrClientConnClosing)
  else ({| target := target cc; state := connectivity.Shutdown |}, None).

#[global] Instance api : ClientConnAPI ClientConn := {
  grpc_NewClient := NewClient;
  GetState := state;
  conn_Close := Close
}.

End GrpcGo.

Module registry.
Section Transports.
Context {C : Type} `{ClientConnAPI C}.

(** [httpClient]: the address and the [http.Client] timeout. *)
Record httpClient : Type := {
  registryURL : string;
  httpTimeout : Duration
}.

(** [grpcClient]: [conn] is a pointer, nil when no connection was opened.
    The generated stub [client] carries no state and is left out. *)
Record grpcClient : Type := {
  registryAddress : string;
  conn : option C
}.

(** A value of the interface [registry.Client]: one of the two transports. *)
Inductive Client : Type :=
| HTTP (c : httpClient)
| GRPC (c : grpcClient).

Definition NewHTTPClient (url : string) (timeout : Duration) : Client :=
  HTTP {| registryURL := url; httpTimeout := timeout |}.

Definition NewGRPCClient (addr : string) (timeout : Duration) : Client + error :=
  match grpc_NewClient addr with
  | inr err => inr (Wrapf (MsgGrpcDial addr) err)
  | inl cc => inl (GRPC {| registryAddress := addr; conn := Some cc |})
  end.

(** [func (c *httpClient) Close() error] *)
Definition httpClient_Close (c : httpClient) : httpClient * option error :=
  (c, None).

(** [func (c *grpcClient) Close() error] *)
Definition grpcClient_Close (c : grpcClient) : grpcClient * option error :=
  match conn c with
  | Some cc =>
      if negb (connectivity.eqb (GetState cc) connectivity.Shutdown)
      then let (cc', err) := conn_Close cc in
           ({| registryAddress := registryAddress c; conn := Some cc' |}, err)
      else (c, None)
  | None => (c, None)
  end.

(** Dynamic dispatch of [Close] through the interface. *)
Definition Close (c : Client) : Client * option error :=
  match c with
  | HTTP h => let (h', err) := httpClient_Close h in (HTTP h', err)
  | GRPC g => let (g', err) := grpcClient_Close g in (GRPC g', err)
  end.

(** [n] calls of [Close] in a row: the final transport and what each call
    returned, in order. *)
Fixpoint closeRepeatedly (n : nat) (c : Client) : Client * list (option error) :=
  match n with
  | O => (c, [])
  | S m => let (c', err) := Close c in
           let (c'', errs) := closeRepeatedly m c' in
           (c'', err :: errs)
  end.

End Transports.
End registry.

(** ** Commands

    What a goroutine of the package can ask of the world around it: a call
    on the registry client, one of the two [select] statements, a
    side effect on the Registrar's shared fields or on the log, starting a
    goroutine, and the unbounded [for] loop. *)

(** The methods of [registry.Client] the Registrar calls; a call carries
    the timeout of the sub-context made for it by [context.WithTimeout]. *)
Inductive call : Type :=
| Register (timeout : Duration) (inst : ServiceInstance)
| SendHeartbeat (timeout : Duration) (instanceID : string)
| Deregister (timeout : Duration) (instanceID : string)
| CloseClient.

(** Which case of [select { case <-time.After(d): case <-ctx.Done(): }] ran. *)
Inductive waitResult : Type :=
| TimerFired
| WaitCtxDone (e : ctxErr).

(** Which case of the heartbeat loop's [select] ran. *)
Inductive selectResult : Type := Tick | StopHeartbeat | CtxDone.

(** The [log.Printf] call sites, with the values they print besides the
    instance's name and id. *)
Inductive logmsg : Type :=
| LogInitialAttempt
| LogInitialFailed (err : error)
| LogInitialRegistered
| LogHeartbeatFailed (err : error)
| LogReregistrationFailed (err : error)
| LogReregistered
| LogHeartbeatSent
| LogLoopStopped
| LogLoopContextCancelled
| LogAttemptFailed (attempt maxRetries : Z) (err : error) (delay : Duration)
| LogShutdown
| LogDeregistrationFailed (err : error)
| LogDeregistered
| LogCloseFailed (err : error)
| LogStopped.

Inductive action : Type :=
| Log (m : logmsg)
| SetGauge (v : Z)            (* metrics.RegistrarStateGauge...Set(v) *)
| CloseStopHeartbeat          (* close(r.stopHeartbeat) *)
| WgAdd (n : Z)               (* r.wg.Add(n) *)
| WgDone                      (* r.wg.Done() *)
| WgWait                      (* r.wg.Wait() *)
| NewTicker (d : Duration)    (* time.NewTicker(d) *)
| TickerStop.                 (* ticker.Stop() *)

(** How one pass through the body of [for { ... }] ends: at the closing
    brace, or at a [return]. *)
Inductive control : Type := Continue | Return.

(** A program returning an [A].  [For body k] runs [body] again and again;
    a [Return] leaves the function through its deferred calls [k]. *)
Inductive Prog (A : Type) : Type :=
| Ret (a : A)
| Call (c : call) (k : option error -> Prog A)
| AfterOrDone (d : Duration) (k : waitResult -> Prog A)
| Select (k : selectResult -> Prog A)
| Act (a : action) (k : Prog A)
| Go (g : Prog unit) (k : Prog A)
| For (body : Prog control) (k : Prog A).

Arguments Ret {A} a.
Arguments Call {A} c k.
Arguments AfterOrDone {A} d k.
Arguments Select {A} k.
Arguments Act {A} a k.
Arguments Go {A} g k.
Arguments For {A} body k.

Fixpoint bind {A B : Type} (p : Prog A) (f : A -> Prog B) : Prog B :=
  match p with
  | Ret a => f a
  | Call c k => Call c (fun r => bind (k r) f)
  | AfterOrDone d k => AfterOrDone d (fun r => bind (k r) f)
  | Select k => Select (fun r => bind (k r) f)
  | Act a k => Act a (bind k f)
  | Go g k => Go g (bind k f)
  | For body k => For body (bind k f)
  end.

Definition do (a : action) : Prog unit := Act a (Ret tt).
Definition invoke (c : call) : Prog (option error) := Call c Ret.

Declare Scope prog_scope.
Delimit Scope prog_scope with prog.
Notation "x <- p ;; q" := (bind p (fun x => q))
  (at level 61, p at next level, right associativity) : prog_scope.
Notation "p ;; q" := (bind p (fun _ => q))
  (at level 61, right associativity) : prog_scope.
Local Open Scope prog_scope.

(** ** The world a program runs in *)

(** What the environment will answer, in the order asked, per kind of
    request: the results of the registry calls and the winners of the two
    [select] statements. *)
Record Env : Type := {
  registerResults : list (option error);
  heartbeatResults : list (option error);
  deregisterResults : list (option error);
  closeResults : list (option error);
  waitResults : list waitResult;
  selectResults : list selectResult
}.

Inductive event : Type :=
| EvCall (c : call) (r : option error)
| EvWait (d : Duration) (r : waitResult)
| EvSelect (r : selectResult)
| EvAct (a : action)
| EvGo.

Inductive chan : Type := Open | Closed.

(** The shared store: the Registrar's channel and wait group, the gauge,
    the goroutines started so far, and the history in order of occurrence. *)
Record World : Type := {
  env : Env;
  trace : list event;
  stopHeartbeat : chan;
  wg : Z;
  gauge : option Z;
  goroutines : list (Prog unit)
}.

Definition withEnv (e : Env) (w : World) : World :=
  {| env := e; trace := trace w; stopHeartbeat := stopHeartbeat w;
     wg := wg w; gauge := gauge w; goroutines := goroutines w |}.

Definition emit (ev : event) (w : World) : World :=
  {| env := env w; trace := trace w ++ [ev]; stopHeartbeat := stopHeartbeat w;
     wg := wg w; gauge := gauge w; goroutines := goroutines w |}.

Definition withStop (c : chan) (w : World) : World :=
  {| env := env w; trace := trace w; stopHeartbeat := c;
     wg := wg w; gauge := gauge w; goroutines := goroutines w |}.

Definition withWg (n : Z) (w : World) : World :=
  {| env := env w; trace := trace w; stopHeartbeat := stopHeartbeat w;
     wg := n; gauge := gauge w; goroutines := goroutines w |}.

Definition withGauge (v : Z) (w : World) : World :=
  {| env := env w; trace := trace w; stopHeartbeat := stopHeartbeat w;
     wg := wg w; gauge := Some v; goroutines := goroutines w |}.

Definition withGoroutines (gs : list (Prog unit)) (w : World) : World :=
  {| env := env w; trace := trace w; stopHeartbeat := stopHeartbeat w;
     wg := wg w; gauge := gauge w; goroutines := gs |}.

(** The store as [NewRegistrar] leaves it, facing environment [e]. *)
Definition newWorld (e : Env) : World := {|
  env := e; trace := []; stopHeartbeat := Open; wg := 0; gauge := None;
  goroutines := []
|}.

(** The next answer to a registry call. *)
Definition answerCall (c : call) (e : Env) : option (option error * Env) :=
  match c with
  | Register _ _ =>
      match registerResults e with
      | r :: rs => Some (r, {| registerResults := rs;
                               heartbeatResults := heartbeatResults e;
                               deregisterResults := deregisterResults e;
                               closeResults := closeResults e;
                               waitResults := waitResults e;
                               selectResults := selectResults e |})
      | [] => None
      end
  | SendHeartbeat _ _ =>
      match heartbeatResults e with
      | r :: rs => Some (r, {| registerResults := registerResults e;
                               heartbeatResults := rs;
                               deregisterResults := deregisterResults e;
                               closeResults := closeResults e;
                               waitResults := waitResults e;
                               selectResults := selectResults e |})
      | [] => None
      end
  | Deregister _ _ =>
      match deregisterResults e with
      | r :: rs => Some (r, {| registerResults := registerResults e;
                               heartbeatResults := heartbeatResults e;
                               deregisterResults := rs;
                               closeResults := closeResults e;
                               waitResults := waitResults e;
                               selectResults := selectResults e |})
      | [] => None
      end
  | CloseClient =>
      match closeResults e with
      | r :: rs => Some (r, {| registerResults := registerResults e;
                               heartbeatResults := heartbeatResults e;
                               deregisterResults := deregisterResults e;
                               closeResults := rs;
                               waitResults := waitResults e;
                               selectResults := selectResults e |})
      | [] => None
      end
  end.

Definition answerWait (e : Env) : option (waitResult * Env) :=
  match waitResults e with
  | r :: rs => Some (r, {| registerResults := registerResults e;
                           heartbeatResults := heartbeatResults e;
                           deregisterResults := deregisterResults e;
                           closeResults := closeResults e;
                           waitResults := rs;
                           selectResults := selectResults e |})
  | [] => None
  end.

Definition answerSelect (e : Env) : option (selectResult * Env) :=
  match selectResults e with
  | r :: rs => Some (r, {| registerResults := registerResults e;
                           heartbeatResults := heartbeatResults e;
                           deregisterResults := deregisterResults e;
                           closeResults := closeResults e;
                           waitResults := waitResults e;
                           selectResults := rs |})
  | [] => None
  end.

(** Why a goroutine is not running on: the environment has no further
    answer, the goroutine waits on something in the store, or it
    panicked; [OutOfFuel] is the executor giving up on a [for] loop. *)
Inductive halt : Type := Starved | Blocked | Panicked | OutOfFuel.

Inductive Outcome (A : Type) : Type :=
| Done (a : A) (w : World)
| Halted (h : halt) (w : World).
Arguments Done {A} a w.
Arguments Halted {A} h w.

(** A registry call: the environment's answer, recorded. *)
Definition do_call (c : call) (w : World) : Outcome (option error) :=
  match answerCall c (env w) with
  | Some (r, e') => Done r (emit (EvCall c r) (withEnv e' w))
  | None => Halted Starved w
  end.

(** The backoff [select]: the environment says which case ran. *)
Definition do_wait (d : Duration) (w : World) : Outcome waitResult :=
  match answerWait (env w) with
  | Some (r, e') => Done r (emit (EvWait d r) (withEnv e' w))
  | None => Halted Starved w
  end.

(** The loop's [select]: the case on [r.stopHeartbeat] can only run once the
    channel is closed. *)
Definition do_select (w : World) : Outcome selectResult :=
  match answerSelect (env w) with
  | Some (StopHeartbeat, e') =>
      match stopHeartbeat w with
      | Closed => Done StopHeartbeat (emit (EvSelect StopHeartbeat) (withEnv e' w))
      | Open => Halted Blocked w
      end
  | Some (r, e') => Done r (emit (EvSelect r) (withEnv e' w))
  | None => Halted Starved w
  end.

Definition do_act (a : action) (w : World) : Outcome unit :=
  match a with
  | Log _ | TickerStop => Done tt (emit (EvAct a) w)
  | SetGauge v => Done tt (emit (EvAct a) (withGauge v w))
  | CloseStopHeartbeat =>
      match stopHeartbeat w with
      | Open => Done tt (emit (EvAct a) (withStop Closed w))
      | Closed => Halted Panicked w          (* close of closed channel *)
      end
  | WgAdd n =>
      if wg w + n <? 0 then Halted Panicked w  (* negative WaitGroup counter *)
      else Done tt (emit (EvAct a) (withWg (wg w + n) w))
  | WgDone =>
      if wg w - 1 <? 0 then Halted Panicked w
      else Done tt (emit (EvAct a) (withWg (wg w - 1) w))
  | WgWait =>
      if wg w =? 0 then Done tt (emit (EvAct a) w) else Halted Blocked w
  | NewTicker d =>
      if d <=? 0 then Halted Panicked w      (* non-positive interval *)
      else Done tt (emit (EvAct a) w)
  end.

Definition do_go (g : Prog unit) (w : World) : World :=
  emit EvGo (withGoroutines (goroutines w ++ [g]) w).

(** ** Sequential execution *)

(** At most [n] passes through a loop body; a [Return] goes on with [rest]. *)
Fixpoint passes {A : Type} (body : World -> Outcome control)
    (rest : World -> Outcome A) (n : nat) (w : World) : Outcome A :=
  match n with
  | O => Halted OutOfFuel w
  | S n' =>
      match body w with
      | Done Continue w' => passes body rest n' w'
      | Done Return w' => rest w'
      | Halted h w' => Halted h w'
      end
  end.

(** [exec fuel p w] runs the goroutine [p] alone from [w], to its end or to
    the point where it cannot go on.  Goroutines it starts are put in the
    store and not run.  [fuel] bounds the passes through each [for] loop. *)
Fixpoint exec (fuel : nat) {A : Type} (p : Prog A) (w : World) : Outcome A :=
  match p with
  | Ret a => Done a w
  | Call c k =>
      match do_call c w with
      | Done r w' => exec fuel (k r) w'
      | Halted h w' => Halted h w'
      end
  | AfterOrDone d k =>
      match do_wait d w with
      | Done r w' => exec fuel (k r) w'
      | Halted h w' => Halted h w'
      end
  | Select k =>
      match do_select w with
      | Done r w' => exec fuel (k r) w'
      | Halted h w' => Halted h w'
      end
  | Act a k =>
      match do_act a w with
      | Done _ w' => exec fuel k w'
      | Halted h w' => Halted h w'
      end
  | Go g k => exec fuel k (do_go g w)
  | For body k => passes (exec fuel body) (exec fuel k) fuel w
  end.

(** ** The Registrar (package [registration]) *)
Module registration.
Section Registrar.
Context {C : Type} `{ClientConnAPI C}.

(** [Registrar]: the fields fixed at construction.  The two mutable fields,
    [wg] and [stopHeartbeat], are shared between the goroutines through the
    pointer [r] and live in the [World]; [NewRegistrar] leaves them at
    counter zero and an open channel, which is [newWorld]. *)
Record Registrar : Type := {
  instance : ServiceInstance;
  client : registry.Client (C := C);
  config : Config
}.

(** [NewRegistrar]; [cfg] is a pointer and may be nil. *)
Definition NewRegistrar (inst : ServiceInstance) (cfg : option Config)
  : Registrar + error :=
  match cfg with
  | None => inr (Errorf MsgConfigNil)
  | Some cfg =>
    if String.eqb (RegistryURL cfg) "" then inr (Errorf MsgRegistryURL)
    else if HeartbeatInterval cfg <=? 0 then inr (Errorf MsgHeartbeatInterval)
    else if CallTimeout cfg <=? 0 then inr (Errorf MsgCallTimeout)
    else if MaxRetries cfg <? 0 then inr (Errorf MsgMaxRetries)
    else if RetryDelay cfg <? 0 then inr (Errorf MsgRetryDelay)
    else
      if String.eqb (RegistryType cfg) "http" then
        inl {| instance := inst;
               client := registry.NewHTTPClient (RegistryURL cfg) (CallTimeout cfg);
               config := cfg |}
      else if String.eqb (RegistryType cfg) "grpc" then
        match registry.NewGRPCClient (RegistryURL cfg) (CallTimeout cfg) with
        | inr err => inr (Wrapf MsgGrpcClient err)
        | inl cl => inl {| instance := inst; client := cl; config := cfg |}
        end
      else inr (Errorf (MsgUnsupportedType (RegistryType cfg)))
  end.

(** [r.config.RetryDelay * time.Duration(1 << i)] *)
Definition backoff (retryDelay : Duration) (i : Z) : Duration :=
  GoInt.mul64 retryDelay (GoInt.shl64 1 i).

Definition errAborted (r : Registrar) (e : ctxErr) : error :=
  Wrapf (MsgAbortedRetry (ServiceName (instance r))) (ctxError e).

Definition errExhausted (r : Registrar) : error :=
  Errorf (MsgRetriesExhausted (ServiceName (instance r)) (ID (instance r))
                              (MaxRetries (config r))).

(** The loop of [registerWithRetry] from counter [i], with [remaining]
    passes to go before [i < r.config.MaxRetries] fails. *)
Fixpoint retryLoop (r : Registrar) (i : Z) (remaining : nat) : Prog (option error) :=
  match remaining with
  | O => Ret (Some (errExhausted r))
  | S remaining' =>
      err <- invoke (Register (CallTimeout (config r)) (instance r)) ;;
      match err with
      | None => Ret None
      | Some err =>
          do (Log (LogAttemptFailed (i + 1) (MaxRetries (config r)) err
                                    (backoff (RetryDelay (config r)) i))) ;;
          AfterOrDone (backoff (RetryDelay (config r)) i) (fun fired =>
            match fired with
            | TimerFired => retryLoop r (i + 1) remaining'
            | WaitCtxDone e => Ret (Some (errAborted r e))
            end)
      end
  end.

(** [func (r *Registrar) registerWithRetry(ctx context.Context) error] *)
Definition registerWithRetry (r : Registrar) : Prog (option error) :=
  retryLoop r 0 (Z.to_nat (MaxRetries (config r))).

(** One pass through the [for] loop of [runHeartbeatLoop]. *)
Definition heartbeatPass (r : Registrar) : Prog control :=
  Select (fun ready =>
    match ready with
    | Tick =>
        err <- invoke (SendHeartbeat (CallTimeout (config r)) (ID (instance r))) ;;
        match err with
        | Some err =>
            do (Log (LogHeartbeatFailed err)) ;;
            registrationErr <- registerWithRetry r ;;
            match registrationErr with
            | Some _ => do (Log (LogReregistrationFailed err)) ;; do (SetGauge 0)
            | None => do (Log LogReregistered) ;; do (SetGauge 1)
            end ;;
            Ret Continue
        | None =>
            do (Log LogHeartbeatSent) ;; do (SetGauge 1) ;; Ret Continue
        end
    | StopHeartbeat => do (Log LogLoopStopped) ;; Ret Return
    | CtxDone => do (Log LogLoopContextCancelled) ;; Ret Continue
    end).

(** [func (r *Registrar) runHeartbeatLoop(ctx context.Context)]; the two
    deferred calls run at the [return], last deferred first. *)
Definition runHeartbeatLoop (r : Registrar) : Prog unit :=
  do (NewTicker (HeartbeatInterval (config r))) ;;
  For (heartbeatPass r) (do TickerStop ;; do WgDone).

(** [func (r *Registrar) Start(ctx context.Context)] *)
Definition Start (r : Registrar) : Prog unit :=
  do (Log LogInitialAttempt) ;;
  err <- registerWithRetry r ;;
  match err with
  | Some err => do (Log (LogInitialFailed err)) ;; do (SetGauge 0)
  | None => do (Log LogInitialRegistered) ;; do (SetGauge 1)
  end ;;
  do (WgAdd 1) ;;
  Go (runHeartbeatLoop r) (Ret tt).

(** [func (r *Registrar) Stop(ctx context.Context)] *)
Definition Stop (r : Registrar) : Prog unit :=
  do (Log LogShutdown) ;;
  do CloseStopHeartbeat ;;
  do WgWait ;;
  err <- invoke (Deregister (CallTimeout (config r)) (ID (instance r))) ;;
  match err with
  | Some err => do (Log (LogDeregistrationFailed err))
  | None => do (Log LogDeregistered)
  end ;;
  err <- invoke CloseClient ;;
  match err with
  | Some err => do (Log (LogCloseFailed err))
  | None => Ret tt
  end ;;
  do (SetGauge 0) ;;
  do (Log LogStopped).

(** *** The points of [Stop]

    Where the foreground path stands inside [Stop], with the results of
    the two registry calls once they are known. *)
Inductive stopPoint : Type :=
| AtShutdownLog
| AtCloseStop
| AtWait
| AtDeregister
| AtDeregisterLog (derr : option error)
| AtClose (derr : option error)
| AtCloseLog (derr : option error) (cerr : error)
| AtGauge (derr cerr : option error)
| AtStoppedLog (derr cerr : option error)
| AtEnd (derr cerr : option error).

(** What is left of [Stop] at each point. *)
Definition stopFrom (r : Registrar) (pt : stopPoint) : Prog unit :=
  let fromGauge := do (SetGauge 0) ;; do (Log LogStopped) in
  let fromClose :=
    err <- invoke CloseClient ;;
    match err with
    | Some err => do (Log (LogCloseFailed err))
    | None => Ret tt
    end ;;
    fromGauge in
  let fromDeregisterLog (derr : option error) :=
    match derr with
    | Some err => do (Log (LogDeregistrationFailed err))
    | None => do (Log LogDeregistered)
    end ;;
    fromClose in
  let fromDeregister :=
    err <- invoke (Deregister (CallTimeout (config r)) (ID (instance r))) ;;
    fromDeregisterLog err in
  match pt with
  | AtShutdownLog => Stop r
  | AtCloseStop => do CloseStopHeartbeat ;; do WgWait ;; fromDeregister
  | AtWait => do WgWait ;; fromDeregister
  | AtDeregister => fromDeregister
  | AtDeregisterLog derr => fromDeregisterLog derr
  | AtClose _ => fromClose
  | AtCloseLog _ cerr => do (Log (LogCloseFailed cerr)) ;; fromGauge
  | AtGauge _ _ => fromGauge
  | AtStoppedLog _ _ => do (Log LogStopped)
  | AtEnd _ _ => Ret tt
  end.

Definition deregistrationLog (derr : option error) : logmsg :=
  match derr with
  | Some err => LogDeregistrationFailed err
  | None => LogDeregistered
  end.

Definition closeLog (cerr : option error) : list event :=
  match cerr with
  | Some err => [EvAct (Log (LogCloseFailed err))]
  | None => []
  end.

(** The shutdown events of a [Stop] that ran to its end with results
    [derr] and [cerr]. *)
Definition shutdownHistory (r : Registrar) (derr cerr : option error) : list event :=
  [ EvAct (Log LogShutdown);
    EvAct CloseStopHeartbeat;
    EvAct WgWait;
    EvCall (Deregister (CallTimeout (config r)) (ID (instance r))) derr;
    EvAct (Log (deregistrationLog derr));
    EvCall CloseClient cerr ]
  ++ closeLog cerr ++ [EvAct (Log LogStopped)].

(** The shutdown events behind the foreground path at each point. *)
Definition shutdownSoFar (r : Registrar) (pt : stopPoint) : list event :=
  match pt with
  | AtShutdownLog => []
  | AtCloseStop => firstn 1 (shutdownHistory r None None)
  | AtWait => firstn 2 (shutdownHistory r None None)
  | AtDeregister => firstn 3 (shutdownHistory r None None)
  | AtDeregisterLog derr => firstn 4 (shutdownHistory r derr None)
  | AtClose derr => firstn 5 (shutdownHistory r derr None)
  | AtCloseLog derr cerr => firstn 6 (shutdownHistory r derr (Some cerr))
  | AtGauge derr cerr | AtStoppedLog derr cerr =>
      removelast (shutdownHistory r derr cerr)
  | AtEnd derr cerr => shutdownHistory r derr cerr
  end.

(** The stop channel is closed from [AtWait] on; the wait on the wait
    group is over from [AtDeregister] on. *)
Definition signalled (pt : stopPoint) : bool :=
  match pt with
  | AtShutdownLog | AtCloseStop => false
  | _ => true
  end.

Definition pastWait (pt : stopPoint) : bool :=
  match pt with
  | AtShutdownLog | AtCloseStop | AtWait => false
  | _ => true
  end.

(** *** Histories of the retry protocol *)

(** What one failed attempt with counter [i] leaves in the history: the
    call, the log line, and the [select] with the case that ran. *)
Definition failedAttempt (r : Registrar) (i : Z) (err : error)
    (fired : waitResult) : list event :=
  [ EvCall (Register (CallTimeout (config r)) (instance r)) (Some err);
    EvAct (Log (LogAttemptFailed (i + 1) (MaxRetries (config r)) err
                                 (backoff (RetryDelay (config r)) i)));
    EvWait (backoff (RetryDelay (config r)) i) fired ].

(** Failed attempts from counter [i] on, each waited out in full. *)
Fixpoint failedAttempts (r : Registrar) (i : Z) (errs : list error) : list event :=
  match errs with
  | [] => []
  | err :: errs' => failedAttempt r i err TimerFired ++ failedAttempts r (i + 1) errs'
  end.


End Registrar.
End registration.

(** [w'] differs from [w] at most in the history and in the answers to
    [Register] calls and backoff waits still to come. *)
Definition sameShared (w w' : World) : Prop :=
  stopHeartbeat w' = stopHeartbeat w /\ wg w' = wg w /\ gauge w' = gauge w
  /\ goroutines w' = goroutines w
  /\ heartbeatResults (env w') = heartbeatResults (env w)
  /\ deregisterResults (env w') = deregisterResults (env w)
  /\ closeResults (env w') = closeResults (env w)
  /\ selectResults (env w') = selectResults (env w).

(** ** Goroutines side by side

    One step of a goroutine, and the foreground call path interleaved with
    the goroutines in the store.  A goroutine that has returned, waits, or
    finds no answer has no step. *)
Definition step1 {A : Type} (p : Prog A) (w : World) : option (Prog A * World) :=
  match p with
  | Ret _ => None
  | Call c k =>
      match do_call c w with
      | Done r w' => Some (k r, w')
      | Halted _ _ => None
      end
  | AfterOrDone d k =>
      match do_wait d w with
      | Done r w' => Some (k r, w')
      | Halted _ _ => None
      end
  | Select k =>
      match do_select w with
      | Done r w' => Some (k r, w')
      | Halted _ _ => None
      end
  | Act a k =>
      match do_act a w with
      | Done _ w' => Some (k, w')
      | Halted _ _ => None
      end
  | Go g k => Some (k, do_go g w)
  | For body k =>
      Some (bind body (fun c => match c with
                                | Continue => For body k
                                | Return => k
                                end), w)
  end.

Record System : Type := {
  main : Prog unit;       (* the foreground call path *)
  store : World
}.

Inductive thread : Type := Main | Goroutine (i : nat).

Fixpoint setNth {X : Type} (i : nat) (x : X) (l : list X) : list X :=
  match l, i with
  | [], _ => []
  | _ :: l', O => x :: l'
  | y :: l', S i' => y :: setNth i' x l'
  end.

Definition sys_step (t : thread) (s : System) : option System :=
  match t with
  | Main =>
      match step1 (main s) (store s) with
      | Some (p', w') => Some {| main := p'; store := w' |}
      | None => None
      end
  | Goroutine i =>
      match nth_error (goroutines (store s)) i with
      | Some g =>
          match step1 g (store s) with
          | Some (g', w') =>
              Some {| main := main s;
                      store := withGoroutines (setNth i g' (goroutines w')) w' |}
          | None => None
          end
      | None => None
      end
  end.

(** The system after the threads named in the schedule took one step each,
    in that order. *)
Fixpoint run (schedule : list thread) (s : System) : option System :=
  match schedule with
  | [] => Some s
  | t :: rest =>
      match sys_step t s with
      | Some s' => run rest s'
      | None => None
      end
  end.

Definition returned (g : Prog unit) : bool :=
  match g with
  | Ret _ => true
  | _ => false
  end.

(** Every goroutine started so far has returned. *)
Definition loopExited (w : World) : bool := forallb returned (goroutines w).

(** ** Reading a history *)

Definition isRegister (ev : event) : bool :=
  match ev with
  | EvCall (Register _ _) _ => true
  | _ => false
  end.

Definition isDeregister (ev : event) : bool :=
  match ev with
  | EvCall (Deregister _ _) _ => true
  | _ => false
  end.

Definition isClose (ev : event) : bool :=
  match ev with
  | EvCall CloseClient _ => true
  | _ => false
  end.

Definition count (f : event -> bool) (t : list event) : nat :=
  List.length (filter f t).

(** The durations of the backoff waits in a history, in order. *)
Definition waitsOf (t : list event) : list Duration :=
  flat_map (fun ev => match ev with
                      | EvWait d _ => [d]
                      | _ => []
                      end) t.

(** The log lines of [Stop]. *)
Definition stopLog (m : logmsg) : bool :=
  match m with
  | LogShutdown | LogDeregistrationFailed _ | LogDeregistered
  | LogCloseFailed _ | LogStopped => true
  | _ => false
  end.

(** The events only the shutdown sequence produces. *)
Definition isShutdownEvent (ev : event) : bool :=
  match ev with
  | EvAct CloseStopHeartbeat | EvAct WgWait => true
  | EvAct (Log m) => stopLog m
  | EvCall (Deregister _ _) _ | EvCall CloseClient _ => true
  | _ => false
  end.

Definition shutdownEvents (t : list event) : list event := filter isShutdownEvent t.

(** ** What the heartbeat goroutine may do

    [Quiet p]: [p] only calls [Register] and [SendHeartbeat], waits,
    selects, logs, sets the gauge and handles its ticker.  [EndsDone g]: [g]
    does the same and then, as its very last step, [r.wg.Done()]. *)
Definition quietCall (c : call) : bool :=
  match c with
  | Register _ _ | SendHeartbeat _ _ => true
  | Deregister _ _ | CloseClient => false
  end.

Definition quietAct (a : action) : bool :=
  match a with
  | Log m => negb (stopLog m)
  | SetGauge _ | NewTicker _ | TickerStop => true
  | CloseStopHeartbeat | WgAdd _ | WgDone | WgWait => false
  end.

Inductive Quiet {A : Type} : Prog A -> Prop :=
| Quiet_Ret a : Quiet (Ret a)
| Quiet_Call c k : quietCall c = true -> (forall r, Quiet (k r)) -> Quiet (Call c k)
| Quiet_AfterOrDone d k : (forall r, Quiet (k r)) -> Quiet (AfterOrDone d k)
| Quiet_Select k : (forall r, Quiet (k r)) -> Quiet (Select k)
| Quiet_Act a k : quietAct a = true -> Quiet k -> Quiet (Act a k).

Inductive EndsDone : Prog unit -> Prop :=
| EndsDone_WgDone : EndsDone (Act WgDone (Ret tt))
| EndsDone_Call c k :
    quietCall c = true -> (forall r, EndsDone (k r)) -> EndsDone (Call c k)
| EndsDone_AfterOrDone d k : (forall r, EndsDone (k r)) -> EndsDone (AfterOrDone d k)
| EndsDone_Select k : (forall r, EndsDone (k r)) -> EndsDone (Select k)
| EndsDone_Act a k : quietAct a = true -> EndsDone k -> EndsDone (Act a k)
| EndsDone_For body k : Quiet body -> EndsDone k -> EndsDone (For body k).

(** ** Invariants of the shutdown *)

(** The wait group counts the heartbeat goroutine while it is running: no
    goroutine was started and the counter is zero, or the one goroutine is
    still to call [r.wg.Done()] and the counter is one, or it has returned
    and the counter is back at zero. *)
Definition goroutineInv (w : World) : Prop :=
  (goroutines w = [] /\ wg w = 0)
  \/ (exists g, goroutines w = [g]
                /\ ((EndsDone g /\ wg w = 1) \/ (g = Ret tt /\ wg w = 0))).

(** What a step of the heartbeat goroutine leaves alone: it adds no
    shutdown event, and touches neither the stop channel, nor the list of
    goroutines, nor the answers kept for [Deregister] and [Close]. *)
Definition loopFrame (w w' : World) : Prop :=
  (exists evs, trace w' = trace w ++ evs /\ shutdownEvents evs = [])
  /\ stopHeartbeat w' = stopHeartbeat w
  /\ goroutines w' = goroutines w
  /\ deregisterResults (env w') = deregisterResults (env w)
  /\ closeResults (env w') = closeResults (env w).

(** The foreground path is at the point [pt] of [Stop], having added the
    events [t] to the history of [w0]. *)
Definition stopInv {C : Type} {api : ClientConnAPI C}
    (r : registration.Registrar (C := C)) (w0 : World) (s : System)
    (pt : registration.stopPoint) (t : list event) : Prop :=
  main s = registration.stopFrom r pt
  /\ trace (store s) = trace w0 ++ t
  /\ shutdownEvents t = registration.shutdownSoFar r pt
  /\ stopHeartbeat (store s) = (if registration.signalled pt then Closed else Open)
  /\ goroutineInv (store s)
  /\ (registration.pastWait pt = true -> loopExited (store s) = true).

(** Steps of [Stop] still to go from a point. *)
Definition stepsLeft (pt : registration.stopPoint) : nat :=
  match pt with
  | registration.AtShutdownLog => 9
  | registration.AtCloseStop => 8
  | registration.AtWait => 7
  | registration.AtDeregister => 6
  | registration.AtDeregisterLog _ => 5
  | registration.AtClose _ => 4
  | registration.AtCloseLog _ _ => 3
  | registration.AtGauge _ _ => 2
  | registration.AtStoppedLog _ _ => 1
  | registration.AtEnd _ _ => 0
  end.

(** ** Reports

    The log line and the gauge value written after a registration attempt. *)

(** After a re-registration attempt in the heartbeat loop. *)
Definition reregistrationReport (err : error) (registrationErr : option error)
  : list event :=
  match registrationErr with
  | Some _ => [EvAct (Log (LogReregistrationFailed err)); EvAct (SetGauge 0)]
  | None => [EvAct (Log LogReregistered); EvAct (SetGauge 1)]
  end.

(** After the initial registration attempt in [Start]. *)
Definition registrationReport (registrationErr : option error) : list event :=
  match registrationErr with
  | Some err => [EvAct (Log (LogInitialFailed err)); EvAct (SetGauge 0)]
  | None => [EvAct (Log LogInitialRegistered); EvAct (SetGauge 1)]
  end.

(** ** Sample inputs *)

Definition sampleInstance : ServiceInstance := {|
  ID := "orders-1"; ServiceName := "orders"; Host := "10.0.0.7"; Port := 8080;
  URL := "http://10.0.0.7:8080"; HealthPath := "/health"
|}.

Definition sampleConfig (kind : string) (maxRetries : Z) : Config := {|
  RegistryURL := "http://registry:8500"; RegistryType := kind;
  HeartbeatInterval := 10 * Second; CallTimeout := 5 * Second;
  MaxRetries := maxRetries; RetryDelay := 1 * Second
|}.

Definition sampleRegistrar (maxRetries : Z)
  : registration.Registrar (C := GrpcGo.ClientConn) := {|
  registration.instance := sampleInstance;
  registration.client := registry.NewHTTPClient "http://registry:8500" (5 * Second);
  registration.config := sampleConfig "http" maxRetries
|}.

Definition refused : error := Sentinel "connection refused".

(** A registry that refuses the next [n] register calls, with every
    backoff wait running to its end. *)
Definition registryDown (n : nat) : Env := {|
  registerResults := repeat (Some refused) n;
  heartbeatResults := [];
  deregisterResults := [];
  closeResults := [];
  waitResults := repeat TimerFired n;
  selectResults := []
|}.

(** A running Registrar about to be stopped: the heartbeat loop is started
    and counted; the registry will answer one heartbeat, refuse the
    deregistration and close cleanly. *)
Definition runningWorld : World :=
  withGoroutines [registration.runHeartbeatLoop (sampleRegistrar 3)]
    (withWg 1
       (newWorld {| registerResults := [];
                    heartbeatResults := [None];
                    deregisterResults := [Some refused];
                    closeResults := [None];
                    waitResults := [];
                    selectResults := [Tick; StopHeartbeat] |})).

(** The loop beats once while [Stop] begins, then sees the stop signal. *)
Definition shutdownSchedule : list thread :=
  [ Goroutine 0; Goroutine 0; Goroutine 0; Goroutine 0; Main; Goroutine 0;
    Main; Goroutine 0; Goroutine 0; Goroutine 0; Goroutine 0; Goroutine 0;
    Goroutine 0; Main; Main; Main; Main; Main; Main ].

(** A fresh Registrar facing a registry that serves a whole lifecycle: it
    accepts the registration, one heartbeat, the deregistration and the
    close; the loop sees one tick and then the stop signal. *)
Definition servedWorld : World :=
  newWorld {| registerResults := [None];
              heartbeatResults := [None];
              deregisterResults := [None];
              closeResults := [None];
              waitResults := [];
              selectResults := [Tick; StopHeartbeat] |}.

(** [Start] runs to its end; the loop beats once; [Stop] logs and closes
    the stop channel; the loop sees it and returns; [Stop] gets past its
    wait, deregisters, closes the transport and returns. *)
Definition lifecycleSchedule : list thread :=
  repeat Main 6 ++ repeat (Goroutine 0) 6 ++ repeat Main 2
  ++ repeat (Goroutine 0) 5 ++ repeat Main 6.

(** ** The registry calls of the two transports

    [Register], [SendHeartbeat], [Deregister] of [httpClient] and
    [grpcClient], [ensureConnectionReady] and [GetHealthyServices].  What
    the network, the gRPC channel and the context do is given to a call as
    a record; what the call does besides returning is in its [CallResult]. *)
Module net_http.

Inductive Method : Type := MethodPost | MethodDelete.

Definition StatusOK : Z := 200.
Definition StatusCreated : Z := 201.
Definition StatusNoContent : Z := 204.

Record Request : Type := {
  method : Method;
  url : string;
  payload : option string;
  contentType : option string
}.

Record Response : Type := {
  StatusCode : Z;
  Body : string
}.

End net_http.

Module registryCalls.

Inductive operation : Type := OpRegister | OpHeartbeat | OpDeregister | OpGetHealthy.

(** The [fmt.Errorf] call sites of the two clients, with what they format
    and the error they wrap. *)
Inductive callError : Type :=
| HttpMarshalFailed (cause : error)
| HttpRequestFailed (op : operation) (cause : error)
| HttpAborted (op : operation) (cause : ctxErr)
| HttpSendFailed (op : operation) (registryURL : string) (cause : error)
| HttpStatus (op : operation) (code : Z) (body : string)
| GrpcNotReadyCancelled (cause : ctxErr) (state : connectivity.State)
| GrpcNotReady (state : connectivity.State)
| GrpcConnection (op : operation) (cause : callError)
| GrpcFailed (op : operation) (cause : error)
| GrpcRejected (op : operation) (message : string).

(** The labels of one observation: the deferred function of a call records
    them once in the duration histogram and once in the call counter. *)
Record Labels : Type := {
  operationLabel : string;
  protocolLabel : string;
  statusLabel : string
}.

(** What became of a response body. *)
Inductive bodyUse : Type := NoResponse | ClosedUnread | ReadThenClosed.

Record CallResult (R : Type) : Type := {
  result : R;
  observed : Labels;
  sent : bool;              (* [Do] or the RPC stub was called *)
  body : bodyUse
}.
Arguments result {R} c.
Arguments observed {R} c.
Arguments sent {R} c.
Arguments body {R} c.

(** What the outside does to an HTTP call. *)
Record HTTPEnv : Type := {
  jsonMarshal : ServiceInstance -> string + error;
  newRequestErr : net_http.Method -> string -> option error;
  httpDo : net_http.Request -> net_http.Response + error;
  httpCtxErr : option ctxErr
}.

Section HTTP.
Variable E : HTTPEnv.

(** [func (c *httpClient) Register] *)
Definition httpClient_Register (c : registry.httpClient)
    (instance : ServiceInstance) : CallResult (option callError) :=
  let opLabels status :=
    {| operationLabel := "register"; protocolLabel := "grpc";
       statusLabel := status |} in
  match jsonMarshal E instance with
  | inr err =>
      {| result := Some (HttpMarshalFailed err);
         observed := opLabels "failure"; sent := false; body := NoResponse |}
  | inl payload =>
      let target := (registry.registryURL c ++ "/api/v1/services/register")%string in
      match newRequestErr E net_http.MethodPost target with
      | Some err =>
          {| result := Some (HttpRequestFailed OpRegister err);
             observed := opLabels "failure"; sent := false; body := NoResponse |}
      | None =>
          let req := {| net_http.method := net_http.MethodPost;
                        net_http.url := target;
                        net_http.payload := Some payload;
                        net_http.contentType := Some "application/json" |} in
          match httpDo E req with
          | inr err =>
              match httpCtxErr E with
              | Some ce =>
                  {| result := Some (HttpAborted OpRegister ce);
                     observed := opLabels "failure"; sent := true;
                     body := NoResponse |}
              | None =>
                  {| result := Some (HttpSendFailed OpRegister
                                         (registry.registryURL c) err);
                     observed := opLabels "failure"; sent := true;
                     body := NoResponse |}
              end
          | inl resp =>
              if negb (net_http.StatusCode resp =? net_http.StatusCreated) then
                {| result := Some (HttpStatus OpRegister
                                       (net_http.StatusCode resp)
                                       (net_http.Body resp));
                   observed := opLabels "failure"; sent := true;
                   body := ReadThenClosed |}
              else
                {| result := None; observed := opLabels "success";
                   sent := true; body := ClosedUnread |}
          end
      end
  end.

(** [func (c *httpClient) SendHeartbeat] *)
Definition httpClient_SendHeartbeat (c : registry.httpClient)
    (instanceID : string) : CallResult (option callError) :=
  let opLabels status :=
    {| operationLabel := "register"; protocolLabel := "grpc";
       statusLabel := status |} in
  let target :=
    (registry.registryURL c ++ "/api/v1/services/heartbeat/" ++ instanceID)%string in
  match newRequestErr E net_http.MethodPost target with
  | Some err =>
      {| result := Some (HttpRequestFailed OpHeartbeat err);
         observed := opLabels "failure"; sent := false; body := NoResponse |}
  | None =>
      let req := {| net_http.method := net_http.MethodPost;
                    net_http.url := target;
                    net_http.payload := None;
                    net_http.contentType := None |} in
      match httpDo E req with
      | inr err =>
          match httpCtxErr E with
          | Some ce =>
              {| result := Some (HttpAborted OpHeartbeat ce);
                 observed := opLabels "failure"; sent := true;
                 body := NoResponse |}
          | None =>
              {| result := Some (HttpSendFailed OpHeartbeat
                                     (registry.registryURL c) err);
                 observed := opLabels "failure"; sent := true;
                 body := NoResponse |}
          end
      | inl resp =>
          if negb (net_http.StatusCode resp =? net_http.StatusOK) then
            {| result := Some (HttpStatus OpHeartbeat
                                   (net_http.StatusCode resp)
                                   (net_http.Body resp));
               observed := opLabels "failure"; sent := true;
               body := ReadThenClosed |}
          else
            {| result := None; observed := opLabels "success";
               sent := true; body := ClosedUnread |}
      end
  end.

(** [func (c *httpClient) Deregister] *)
Definition httpClient_Deregister (c : registry.httpClient)
    (instanceID : string) : CallResult (option callError) :=
  let opLabels status :=
    {| operationLabel := "register"; protocolLabel := "grpc";
       statusLabel := status |} in
  let target :=
    (registry.registryURL c ++ "/api/v1/services/deregister/" ++ instanceID)%string in
  match newRequestErr E net_http.MethodDelete target with
  | Some err =>
      {| result := Some (HttpRequestFailed OpDeregister err);
         observed := opLabels "failure"; sent := false; body := NoResponse |}
  | None =>
      let req := {| net_http.method := net_http.MethodDelete;
                    net_http.url := target;
                    net_http.payload := None;
                    net_http.contentType := None |} in
      match httpDo E req with
      | inr err =>
          match httpCtxErr E with
          | Some ce =>
              {| result := Some (HttpAborted OpDeregister ce);
                 observed := opLabels "failure"; sent := true;
                 body := NoResponse |}
          | None =>
              {| result := Some (HttpSendFailed OpDeregister
                                     (registry.registryURL c) err);
                 observed := opLabels "failure"; sent := true;
                 body := NoResponse |}
          end
      | inl resp =>
          if negb (net_http.StatusCode resp =? net_http.StatusNoContent) then
            {| result := Some (HttpStatus OpDeregister
                                   (net_http.StatusCode resp)
                                   (net_http.Body resp));
               observed := opLabels "failure"; sent := true;
               body := ReadThenClosed |}
          else
            {| result := None; observed := opLabels "success";
               sent := true; body := ClosedUnread |}
      end
  end.

(** A call on the HTTP client through the interface. *)
Inductive request : Type :=
| DoRegister (instance : ServiceInstance)
| DoSendHeartbeat (instanceID : string)
| DoDeregister (instanceID : string).

Definition httpClient_call (c : registry.httpClient) (q : request)
  : CallResult (option callError) :=
  match q with
  | DoRegister instance => httpClient_Register c instance
  | DoSendHeartbeat id => httpClient_SendHeartbeat c id
  | DoDeregister id => httpClient_Deregister c id
  end.

(** The request a call builds, and the status code it takes for success. *)
Definition requestOf (c : registry.httpClient) (q : request)
    (marshalled : string) : net_http.Request :=
  match q with
  | DoRegister _ =>
      {| net_http.method := net_http.MethodPost;
         net_http.url := (registry.registryURL c ++ "/api/v1/services/register")%string;
         net_http.payload := Some marshalled;
         net_http.contentType := Some "application/json" |}
  | DoSendHeartbeat id =>
      {| net_http.method := net_http.MethodPost;
         net_http.url :=
           (registry.registryURL c ++ "/api/v1/services/heartbeat/" ++ id)%string;
         net_http.payload := None; net_http.contentType := None |}
  | DoDeregister id =>
      {| net_http.method := net_http.MethodDelete;
         net_http.url :=
           (registry.registryURL c ++ "/api/v1/services/deregister/" ++ id)%string;
         net_http.payload := None; net_http.contentType := None |}
  end.

(** What [json.Marshal] gives for the body of a call; only [Register] has
    a body. *)
Definition marshalOf (q : request) : string + error :=
  match q with
  | DoRegister instance => jsonMarshal E instance
  | _ => inl EmptyString
  end.

Definition expectedStatus (q : request) : Z :=
  match q with
  | DoRegister _ => net_http.StatusCreated
  | DoSendHeartbeat _ => net_http.StatusOK
  | DoDeregister _ => net_http.StatusNoContent
  end.

End HTTP.

(** [int32(x)] *)
Definition wrap32 (x : Z) : Z := (x + 2 ^ 31) mod 2 ^ 32 - 2 ^ 31.

(** [pb.GrpcServiceInstance]; [Port] is an [int32]. *)
Record GrpcServiceInstance : Type := {
  GrpcId : string;
  GrpcServiceName : string;
  GrpcHost : string;
  GrpcPort : Z;
  GrpcUrl : string;
  GrpcHealthPath : string
}.

(** The struct literal of [grpcClient.Register]. *)
Definition toGrpcInstance (instance : ServiceInstance) : GrpcServiceInstance := {|
  GrpcId := ID instance;
  GrpcServiceName := ServiceName instance;
  GrpcHost := Host instance;
  GrpcPort := wrap32 (Port instance);
  GrpcUrl := URL instance;
  GrpcHealthPath := HealthPath instance
|}.

(** The struct literal of [grpcClient.GetHealthyServices]. *)
Definition fromGrpcInstance (g : GrpcServiceInstance) : ServiceInstance := {|
  ID := GrpcId g;
  ServiceName := GrpcServiceName g;
  Host := GrpcHost g;
  Port := GrpcPort g;
  URL := GrpcUrl g;
  HealthPath := GrpcHealthPath g
|}.

(** The replies of the registry: [GetSuccess()] and [GetMessage()]. *)
Record Reply : Type := { Success : bool; Message : string }.

(** What the outside does to a gRPC call: the channel as it is found when
    [WaitForStateChange] returns, the context, and the four RPCs. *)
Record GrpcEnv (C : Type) : Type := {
  afterWait : C -> C;
  grpcCtxErr : option ctxErr;
  RegisterService : GrpcServiceInstance -> Reply + error;
  SendHeartbeatRPC : string -> Reply + error;
  DeregisterService : string -> Reply + error;
  GetHealthyServicesRPC : string -> list GrpcServiceInstance + error
}.
Arguments afterWait {C} g.
Arguments grpcCtxErr {C} g.
Arguments RegisterService {C} g.
Arguments SendHeartbeatRPC {C} g.
Arguments DeregisterService {C} g.
Arguments GetHealthyServicesRPC {C} g.

Section GRPC.
Context {C : Type} {api : ClientConnAPI C}.
Variable G : GrpcEnv C.

(** [func (c *grpcClient) ensureConnectionReady], on the connection
    [c.conn]. *)
Definition ensureConnectionReady (cc : C) : option callError :=
  let state := GetState cc in
  if connectivity.eqb state connectivity.Ready then None
  else
    let cc' := afterWait G cc in
    if negb (connectivity.eqb (GetState cc') connectivity.Ready) then
      match grpcCtxErr G with
      | Some ce => Some (GrpcNotReadyCancelled ce (GetState cc'))
      | None => Some (GrpcNotReady (GetState cc'))
      end
    else None.

(** [func (c *grpcClient) Register]; [None] is the panic of a call on a
    client whose [conn] is nil. *)
Definition grpcClient_Register (c : registry.grpcClient (C := C))
    (instance : ServiceInstance) : option (CallResult (option callError)) :=
  let opLabels status :=
    {| operationLabel := "register"; protocolLabel := "grpc";
       statusLabel := status |} in
  match registry.conn c with
  | None => None
  | Some cc =>
      Some
        match ensureConnectionReady cc with
        | Some err =>
            {| result := Some (GrpcConnection OpRegister err);
               observed := opLabels "failure"; sent := false; body := NoResponse |}
        | None =>
            match RegisterService G (toGrpcInstance instance) with
            | inr err =>
                {| result := Some (GrpcFailed OpRegister err);
                   observed := opLabels "failure"; sent := true;
                   body := NoResponse |}
            | inl resp =>
                if negb (Success resp) then
                  {| result := Some (GrpcRejected OpRegister (Message resp));
                     observed := opLabels "failure"; sent := true;
                     body := NoResponse |}
                else
                  {| result := None; observed := opLabels "success";
                     sent := true; body := NoResponse |}
            end
        end
  end.

(** [func (c *grpcClient) SendHeartbeat] *)
Definition grpcClient_SendHeartbeat (c : registry.grpcClient (C := C))
    (instanceID : string) : option (CallResult (option callError)) :=
  let opLabels status :=
    {| operationLabel := "register"; protocolLabel := "grpc";
       statusLabel := status |} in
  match registry.conn c with
  | None => None
  | Some cc =>
      Some
        match ensureConnectionReady cc with
        | Some err =>
            {| result := Some (GrpcConnection OpHeartbeat err);
               observed := opLabels "failure"; sent := false; body := NoResponse |}
        | None =>
            match SendHeartbeatRPC G instanceID with
            | inr err =>
                {| result := Some (GrpcFailed OpHeartbeat err);
                   observed := opLabels "failure"; sent := true;
                   body := NoResponse |}
            | inl resp =>
                if negb (Success resp) then
                  {| result := Some (GrpcRejected OpHeartbeat (Message resp));
                     observed := opLabels "failure"; sent := true;
                     body := NoResponse |}
                else
                  {| result := None; observed := opLabels "success";
                     sent := true; body := NoResponse |}
            end
        end
  end.

(** [func (c *grpcClient) Deregister] *)
Definition grpcClient_Deregister (c : registry.grpcClient (C := C))
    (instanceID : string) : option (CallResult (option callError)) :=
  let opLabels status :=
    {| operationLabel := "register"; protocolLabel := "grpc";
       statusLabel := status |} in
  match registry.conn c with
  | None => None
  | Some cc =>
      Some
        match ensureConnectionReady cc with
        | Some err =>
            {| result := Some (GrpcConnection OpDeregister err);
               observed := opLabels "failure"; sent := false; body := NoResponse |}
        | None =>
            match DeregisterService G instanceID with
            | inr err =>
                {| result := Some (GrpcFailed OpDeregister err);
                   observed := opLabels "failure"; sent := true;
                   body := NoResponse |}
            | inl resp =>
                if negb (Success resp) then
                  {| result := Some (GrpcRejected OpDeregister (Message resp));
                     observed := opLabels "failed"; sent := true;
                     body := NoResponse |}
                else
                  {| result := None; observed := opLabels "success";
                     sent := true; body := NoResponse |}
            end
        end
  end.

(** [func (c *grpcClient) GetHealthyServices]: the list and the error. *)
Definition grpcClient_GetHealthyServices (c : registry.grpcClient (C := C))
    (serviceName : string)
  : option (CallResult (list ServiceInstance * option callError)) :=
  let opLabels status :=
    {| operationLabel := "get_healthy_services"; protocolLabel := "grpc";
       statusLabel := status |} in
  match registry.conn c with
  | None => None
  | Some cc =>
      Some
        match ensureConnectionReady cc with
        | Some err =>
            {| result := ([], Some (GrpcConnection OpGetHealthy err));
               observed := opLabels "failure"; sent := false; body := NoResponse |}
        | None =>
            match GetHealthyServicesRPC G serviceName with
            | inr err =>
                {| result := ([], Some (GrpcFailed OpGetHealthy err));
                   observed := opLabels "failure"; sent := true;
                   body := NoResponse |}
            | inl resp =>
                let instances :=
                  fold_left (fun acc grpcInstance =>
                               acc ++ [fromGrpcInstance grpcInstance])
                            resp [] in
                {| result := (instances, None); observed := opLabels "success";
                   sent := true; body := NoResponse |}
            end
        end
  end.

(** A call on the gRPC client through the interface. *)
Definition grpcClient_call (c : registry.grpcClient (C := C)) (q : request)
  : option (CallResult (option callError)) :=
  match q with
  | DoRegister instance => grpcClient_Register c instance
  | DoSendHeartbeat id => grpcClient_SendHeartbeat c id
  | DoDeregister id => grpcClient_Deregister c id
  end.

(** The reply of the registry to the RPC of a call. *)
Definition rpcOf (q : request) : Reply + error :=
  match q with
  | DoRegister instance => RegisterService G (toGrpcInstance instance)
  | DoSendHeartbeat id => SendHeartbeatRPC G id
  | DoDeregister id => DeregisterService G id
  end.

End GRPC.

Definition operationOf (q : request) : operation :=
  match q with
  | DoRegister _ => OpRegister
  | DoSendHeartbeat _ => OpHeartbeat
  | DoDeregister _ => OpDeregister
  end.

End registryCalls.

(** ** More ways to read a run *)

(** The world a run ended in or came to a halt in. *)
Definition worldOf {A : Type} (out : Outcome A) : World :=
  match out with
  | Done _ w => w
  | Halted _ w => w
  end.

Definition isRegistered (ev : event) : bool :=
  match ev with
  | EvCall (Register _ _) None => true
  | _ => false
  end.

Definition isHeartbeat (ev : event) : bool :=
  match ev with
  | EvCall (SendHeartbeat _ _) _ => true
  | _ => false
  end.

Definition isFailedHeartbeat (ev : event) : bool :=
  match ev with
  | EvCall (SendHeartbeat _ _) (Some _) => true
  | _ => false
  end.

Definition isTick (ev : event) : bool :=
  match ev with
  | EvSelect Tick => true
  | _ => false
  end.

(** The events [registerWithRetry] produces: register calls, the line
    logged after a failed one, and backoff waits. *)
Definition isRetryEvent (ev : event) : bool :=
  match ev with
  | EvCall (Register _ _) _ => true
  | EvAct (Log (LogAttemptFailed _ _ _ _)) => true
  | EvWait _ _ => true
  | _ => false
  end.

(** The events the heartbeat goroutine produces. *)
Definition isLoopEvent (ev : event) : bool :=
  match ev with
  | EvCall c _ => quietCall c
  | EvWait _ _ | EvSelect _ => true
  | EvAct WgDone => true
  | EvAct a => quietAct a
  | EvGo => false
  end.

(** What a run of the retry loop adds to the history, and what its result
    says about it, whatever the registry answers and whenever its answers
    run out. *)
Definition retrySummary {C : Type} {api : ClientConnAPI C}
    (r : registration.Registrar (C := C)) (remaining : nat) (w : World)
    (out : Outcome (option error)) : Prop :=
  exists t,
    trace (worldOf out) = trace w ++ t
    /\ sameShared w (worldOf out)
    /\ (count isRegister t <= remaining)%nat
    /\ (List.length (waitsOf t) <= count isRegister t)%nat
    /\ forallb isRetryEvent t = true
    /\ match out with
       | Done None _ =>
           exists t0, t = t0 ++ [EvCall (Register (CallTimeout (registration.config r))
                                                 (registration.instance r)) None]
                      /\ count isRegistered t0 = 0%nat
       | Done (Some e) _ =>
           count isRegistered t = 0%nat
           /\ ((e = registration.errExhausted r /\ count isRegister t = remaining)
               \/ (exists ce d, e = registration.errAborted r ce
                                /\ last t EvGo = EvWait d (WaitCtxDone ce)))
       | Halted h _ => h = Starved /\ count isRegistered t = 0%nat
       end.

(** What a history of the heartbeat goroutine obeys, for a Registrar with
    [n = MaxRetries]: register calls are paid for by failed heartbeats,
    [n] for each; heartbeats are paid for by ticks, one for each; and
    every event is one the loop may produce. *)
Definition loopTrace (n : nat) (t : list event) : Prop :=
  (count isRegister t <= n * count isFailedHeartbeat t)%nat
  /\ (count isHeartbeat t <= count isTick t)%nat
  /\ forallb isLoopEvent t = true.

(** One pass through the loop: its history obeys [loopTrace], it leaves
    the stop channel, the wait group and the goroutines alone, and it ends
    in a [return] only through the case on the closed stop channel. *)
Definition passSummary {C : Type} {api : ClientConnAPI C}
    (r : registration.Registrar (C := C)) (w : World)
    (out : Outcome control) : Prop :=
  exists t,
    trace (worldOf out) = trace w ++ t
    /\ stopHeartbeat (worldOf out) = stopHeartbeat w
    /\ wg (worldOf out) = wg w
    /\ goroutines (worldOf out) = goroutines w
    /\ loopTrace (Z.to_nat (MaxRetries (registration.config r))) t
    /\ match out with
       | Done Return _ =>
           stopHeartbeat w = Closed
           /\ t = [EvSelect StopHeartbeat; EvAct (Log LogLoopStopped)]
       | Done Continue _ => True
       | Halted h _ => h = Starved \/ h = Blocked
       end.

(** A run of the whole loop, from its ticker to its deferred calls. *)
Definition loopSummary {C : Type} {api : ClientConnAPI C}
    (r : registration.Registrar (C := C)) (w : World)
    (out : Outcome unit) : Prop :=
  exists t,
    trace (worldOf out) = trace w ++ t
    /\ stopHeartbeat (worldOf out) = stopHeartbeat w
    /\ goroutines (worldOf out) = goroutines w
    /\ loopTrace (Z.to_nat (MaxRetries (registration.config r))) t
    /\ match out with
       | Done _ w' =>
           stopHeartbeat w = Closed
           /\ wg w' = wg w - 1
           /\ exists t0,
                t = t0 ++ [EvSelect StopHeartbeat; EvAct (Log LogLoopStopped);
                           EvAct TickerStop; EvAct WgDone]
       | Halted _ w' => wg w' = wg w
       end.

(** ** Invariants of a whole lifecycle *)

(** [Before final p]: the foreground path [p] makes the quiet steps of
    [Quiet] and then goes on as [final]. *)
Inductive Before (final : Prog unit) : Prog unit -> Prop :=
| Before_here : Before final final
| Before_Call c k :
    quietCall c = true -> (forall r, Before final (k r)) -> Before final (Call c k)
| Before_AfterOrDone d k :
    (forall r, Before final (k r)) -> Before final (AfterOrDone d k)
| Before_Select k : (forall r, Before final (k r)) -> Before final (Select k)
| Before_Act a k : quietAct a = true -> Before final k -> Before final (Act a k).

(** The foreground path runs [Start] and then [Stop] from the world [w]:
    it is inside [Start] before the wait group is raised, or between
    [r.wg.Add(1)] and the [go] statement, or inside [Stop]. *)
Definition lifeInv {C : Type} {api : ClientConnAPI C}
    (r : registration.Registrar (C := C)) (w : World) (s : System) : Prop :=
  (goroutines (store s) = [] /\ wg (store s) = 0
   /\ stopHeartbeat (store s) = Open
   /\ Before (Act (WgAdd 1) (Go (registration.runHeartbeatLoop r)
                               (registration.Stop r))) (main s)
   /\ exists t, trace (store s) = trace w ++ t /\ shutdownEvents t = [])
  \/ (goroutines (store s) = [] /\ wg (store s) = 1
      /\ stopHeartbeat (store s) = Open
      /\ main s = Go (registration.runHeartbeatLoop r) (registration.Stop r)
      /\ exists t, trace (store s) = trace w ++ t /\ shutdownEvents t = [])
  \/ (exists w0 t0 pt t,
        trace w0 = trace w ++ t0 /\ shutdownEvents t0 = []
        /\ stopInv r w0 s pt t).

(** An interface instance whose [grpc.NewClient] refuses every address. *)
Definition refusingAPI : ClientConnAPI GrpcGo.ClientConn := {|
  grpc_NewClient := fun _ => inr refused;
  GetState := GrpcGo.state;
  conn_Close := GrpcGo.Close
|}.

(** A registry that answers every HTTP request with the given status. *)
Definition answering (status : Z) : registryCalls.HTTPEnv := {|
  registryCalls.jsonMarshal := fun _ => inl "{}";
  registryCalls.newRequestErr := fun _ _ => None;
  registryCalls.httpDo := fun _ =>
    inl {| net_http.StatusCode := status; net_http.Body := "" |};
  registryCalls.httpCtxErr := None
|}.

(** A network that fails every HTTP request, under the given context. *)
Definition unreachable (ce : option ctxErr) : registryCalls.HTTPEnv := {|
  registryCalls.jsonMarshal := fun _ => inl "{}";
  registryCalls.newRequestErr := fun _ _ => None;
  registryCalls.httpDo := fun _ => inr refused;
  registryCalls.httpCtxErr := ce
|}.

Definition sampleHTTPClient : registry.httpClient := {|
  registry.registryURL := "http://registry:8500";
  registry.httpTimeout := 5 * Second
|}.

(** A gRPC registry that accepts everything, on a channel that does not
    change while it is waited for. *)
Definition accepting : registryCalls.GrpcEnv GrpcGo.ClientConn := {|
  registryCalls.afterWait := fun cc => cc;
  registryCalls.grpcCtxErr := None;
  registryCalls.RegisterService := fun _ =>
    inl {| registryCalls.Success := true; registryCalls.Message := "" |};
  registryCalls.SendHeartbeatRPC := fun _ =>
    inl {| registryCalls.Success := true; registryCalls.Message := "" |};
  registryCalls.DeregisterService := fun _ =>
    inl {| registryCalls.Success := true; registryCalls.Message := "" |};
  registryCalls.GetHealthyServicesRPC := fun _ =>
    inl [registryCalls.toGrpcInstance sampleInstance]
|}.

Definition sampleGrpcClient (st : connectivity.State)
  : registry.grpcClient (C := GrpcGo.ClientConn) := {|
  registry.registryAddress := "registry:9090";
  registry.conn := Some {| GrpcGo.target := "registry:9090"; GrpcGo.state := st |}
|}.

(** * Properties *)

Module GoIntFacts.
Import GoInt.

Lemma wrap64_small x : in_range x -> wrap64 x = x.
Proof.
  unfold in_range, MinInt64, MaxInt64, wrap64. intros H.
  rewrite Z.mod_small; lia.
Qed.

Lemma wrap64_range x : in_range (wrap64 x).
Proof.
  unfold in_range, MinInt64, MaxInt64, wrap64.
  pose proof (Z.mod_pos_bound (x + 2 ^ 63) (2 ^ 64) ltac:(lia)). lia.
Qed.

End GoIntFacts.

Module connectivityFacts.
Import connectivity.

Lemma eqb_eq a b : eqb a b = true <-> a = b.
Proof. destruct a, b; simpl; split; intros H; try reflexivity; discriminate. Qed.

Lemma eqb_neq a b : eqb a b = false <-> a <> b.
Proof. destruct a, b; simpl; split; intros H; try congruence; try discriminate. Qed.

End connectivityFacts.

Module GrpcGoFacts.
Import GrpcGo.

#[global] Instance laws : ClientConnLaws ClientConn.
Proof.
  split; intros [t s]; unfold conn_Close, GetState; simpl; unfold Close; simpl.
  - destruct s; reflexivity.
  - intros Hs. destruct s; try reflexivity. congruence.
Qed.

End GrpcGoFacts.

(** ** Closing a transport *)
Module registryFacts.
Import registry.

Section CloseFacts.
Context {C : Type} {api : ClientConnAPI C} {laws : ClientConnLaws C}.

Lemma grpcClient_Close_ok (g : grpcClient) : snd (grpcClient_Close g) = None.
Proof.
  unfold grpcClient_Close. destruct (conn g) as [cc|]; [|reflexivity].
  destruct (connectivity.eqb (GetState cc) connectivity.Shutdown) eqn:E; simpl.
  - reflexivity.
  - apply connectivityFacts.eqb_neq in E.
    pose proof (conn_Close_live cc E) as Hok.
    destruct (conn_Close cc) as [cc' err]; simpl in *. exact Hok.
Qed.

Lemma grpcClient_Close_twice (g : grpcClient) :
  grpcClient_Close (fst (grpcClient_Close g)) = (fst (grpcClient_Close g), None).
Proof.
  destruct g as [addr [cc|]]; unfold grpcClient_Close; simpl; [|reflexivity].
  destruct (connectivity.eqb (GetState cc) connectivity.Shutdown) eqn:E; simpl.
  - rewrite E. reflexivity.
  - pose proof (conn_Close_shutdown cc) as Hs.
    destruct (conn_Close cc) as [cc' err]; simpl in *.
    rewrite Hs. reflexivity.
Qed.

Lemma Close_ok (c : Client) : snd (Close c) = None.
Proof.
  destruct c as [h|g]; simpl; [reflexivity|].
  pose proof (grpcClient_Close_ok g) as Hok.
  destruct (grpcClient_Close g); simpl in *. exact Hok.
Qed.

Lemma Close_twice (c : Client) : Close (fst (Close c)) = (fst (Close c), None).
Proof.
  destruct c as [h|g]; simpl; [reflexivity|].
  pose proof (grpcClient_Close_twice g) as Htw.
  destruct (grpcClient_Close g) as [g' e]; simpl in *. rewrite Htw. reflexivity.
Qed.

Lemma closeRepeatedly_ok (n : nat) : forall c : Client,
  snd (closeRepeatedly n c) = repeat None n.
Proof.
  induction n as [|n IH]; intros c; simpl; [reflexivity|].
  pose proof (Close_ok c) as Hok. destruct (Close c) as [c' err]; simpl in Hok.
  specialize (IH c'). destruct (closeRepeatedly n c') as [c'' errs]; simpl in *.
  now rewrite Hok, IH.
Qed.

(** C4. For both transports, [Close] never returns an error however often
    it is called: [n] calls in a row all return nil; a second [Close] finds
    the transport as the first left it and is a no-op; and a gRPC client
    with no connection ([conn == nil]) closes without error. *)
Theorem Close_idempotent_never_fails (n : nat) (c : Client) :
  snd (closeRepeatedly n c) = repeat None n
  /\ Close (fst (Close c)) = (fst (Close c), None)
  /\ (forall h, Close (HTTP h) = (HTTP h, None))
  /\ (forall addr,
        Close (GRPC {| registryAddress := addr; conn := None |})
        = (GRPC {| registryAddress := addr; conn := None |}, None)).
Proof.
  split; [apply closeRepeatedly_ok|].
  split; [apply Close_twice|].
  split; intros; reflexivity.
Qed.

End CloseFacts.

Lemma Close_idempotent_never_fails_witness :
  snd (closeRepeatedly 3
         (GRPC {| registryAddress := "registry:9090";
                  conn := Some {| GrpcGo.target := "registry:9090";
                                  GrpcGo.state := connectivity.Ready |} |}))
  = [None; None; None].
Proof.
  exact (proj1 (Close_idempotent_never_fails (laws := GrpcGoFacts.laws) 3
    (GRPC {| registryAddress := "registry:9090";
             conn := Some {| GrpcGo.target := "registry:9090";
                             GrpcGo.state := connectivity.Ready |} |}))).
Defined.

End registryFacts.

(** ** Construction *)
Module constructionFacts.
Import registry registration.

Section NewRegistrarFacts.
Context {C : Type} {api : ClientConnAPI C}.

Lemma NewRegistrar_numeric_guard (inst : ServiceInstance) (cfg : Config) :
  HeartbeatInterval cfg <= 0 \/ CallTimeout cfg <= 0
  \/ MaxRetries cfg < 0 \/ RetryDelay cfg < 0 ->
  exists e, NewRegistrar inst (Some cfg) = inr e.
Proof.
  intros Hbad. unfold NewRegistrar.
  destruct (String.eqb (RegistryURL cfg) ""); [eauto|].
  destruct (Z.leb_spec (HeartbeatInterval cfg) 0); [eauto|].
  destruct (Z.leb_spec (CallTimeout cfg) 0); [eauto|].
  destruct (Z.ltb_spec (MaxRetries cfg) 0); [eauto|].
  destruct (Z.ltb_spec (RetryDelay cfg) 0); [eauto|].
  lia.
Qed.

Lemma NewRegistrar_kind_guard (inst : ServiceInstance) (cfg : Config) :
  RegistryType cfg <> "http" -> RegistryType cfg <> "grpc" ->
  exists e, NewRegistrar inst (Some cfg) = inr e.
Proof.
  intros Hh Hg. unfold NewRegistrar.
  apply String.eqb_neq in Hh. apply String.eqb_neq in Hg. rewrite Hh, Hg.
  destruct (String.eqb (RegistryURL cfg) ""); [eauto|].
  destruct (HeartbeatInterval cfg <=? 0); [eauto|].
  destruct (CallTimeout cfg <=? 0); [eauto|].
  destruct (MaxRetries cfg <? 0); [eauto|].
  destruct (RetryDelay cfg <? 0); eauto.
Qed.

Lemma NewRegistrar_passes_guards (inst : ServiceInstance) (cfg : Config) :
  RegistryURL cfg <> "" ->
  0 < HeartbeatInterval cfg -> 0 < CallTimeout cfg ->
  0 <= MaxRetries cfg -> 0 <= RetryDelay cfg ->
  NewRegistrar inst (Some cfg) =
    if String.eqb (RegistryType cfg) "http" then
      inl {| instance := inst;
             client := NewHTTPClient (RegistryURL cfg) (CallTimeout cfg);
             config := cfg |}
    else if String.eqb (RegistryType cfg) "grpc" then
      match NewGRPCClient (RegistryURL cfg) (CallTimeout cfg) with
      | inr err => inr (Wrapf MsgGrpcClient err)
      | inl cl => inl {| instance := inst; client := cl; config := cfg |}
      end
    else inr (Errorf (MsgUnsupportedType (RegistryType cfg))).
Proof.
  intros Hu Hh Hc Hm Hd. unfold NewRegistrar.
  apply String.eqb_neq in Hu. rewrite Hu.
  destruct (Z.leb_spec (HeartbeatInterval cfg) 0); [lia|].
  destruct (Z.leb_spec (CallTimeout cfg) 0); [lia|].
  destruct (Z.ltb_spec (MaxRetries cfg) 0); [lia|].
  destruct (Z.ltb_spec (RetryDelay cfg) 0); [lia|].
  reflexivity.
Qed.

(** C9, as amended. [NewRegistrar] fails with an error whenever
    [HeartbeatInterval <= 0], [CallTimeout <= 0], [MaxRetries < 0],
    [RetryDelay < 0] or the registry type is neither "http" nor "grpc".
    When the configuration is present, its [RegistryURL] is not empty, the
    four numeric conditions hold, the type is one of the two and the
    transport can be made (always for "http"; for "grpc" when
    [NewGRPCClient] returns a client), it returns a Registrar holding the
    instance, that transport and the configuration. *)
Theorem NewRegistrar_validation (inst : ServiceInstance) (cfg : Config) :
  (HeartbeatInterval cfg <= 0 \/ CallTimeout cfg <= 0
   \/ MaxRetries cfg < 0 \/ RetryDelay cfg < 0
   \/ (RegistryType cfg <> "http" /\ RegistryType cfg <> "grpc") ->
   exists e, NewRegistrar inst (Some cfg) = inr e)
  /\
  (RegistryURL cfg <> "" ->
   0 < HeartbeatInterval cfg -> 0 < CallTimeout cfg ->
   0 <= MaxRetries cfg -> 0 <= RetryDelay cfg ->
   (RegistryType cfg = "http" ->
    NewRegistrar inst (Some cfg) =
      inl {| instance := inst;
             client := NewHTTPClient (RegistryURL cfg) (CallTimeout cfg);
             config := cfg |})
   /\
   (RegistryType cfg = "grpc" ->
    forall cl, NewGRPCClient (RegistryURL cfg) (CallTimeout cfg) = inl cl ->
    NewRegistrar inst (Some cfg) =
      inl {| instance := inst; client := cl; config := cfg |})).
Proof.
  split.
  - intros [Hb|[Hb|[Hb|[Hb|[Hh Hg]]]]];
      try (apply NewRegistrar_numeric_guard; tauto).
    now apply NewRegistrar_kind_guard.
  - intros Hu Hh Hc Hm Hd.
    rewrite (NewRegistrar_passes_guards inst cfg Hu Hh Hc Hm Hd).
    split.
    + intros Hk. rewrite Hk. reflexivity.
    + intros Hk cl Hcl. rewrite Hk, Hcl. reflexivity.
Qed.

(** C10. [NewRegistrar] also rejects a nil configuration, and a
    configuration whose [RegistryURL] is the empty string, whatever its
    other fields are. *)
Theorem NewRegistrar_rejects_nil_and_empty_url
    (inst : ServiceInstance) (kind : string)
    (heartbeatInterval callTimeout : Duration) (maxRetries : Z)
    (retryDelay : Duration) :
  NewRegistrar inst None = inr (Errorf MsgConfigNil)
  /\ NewRegistrar inst
       (Some {| RegistryURL := ""; RegistryType := kind;
                HeartbeatInterval := heartbeatInterval;
                CallTimeout := callTimeout;
                MaxRetries := maxRetries; RetryDelay := retryDelay |})
     = inr (Errorf MsgRegistryURL).
Proof. split; reflexivity. Qed.

End NewRegistrarFacts.

Lemma NewRegistrar_validation_witness :
  (exists e, NewRegistrar (C := GrpcGo.ClientConn) sampleInstance
               (Some (sampleConfig "consul" 5)) = inr e)
  /\ NewRegistrar (C := GrpcGo.ClientConn) sampleInstance
       (Some (sampleConfig "http" 5))
     = inl {| instance := sampleInstance;
              client := NewHTTPClient "http://registry:8500" (5 * Second);
              config := sampleConfig "http" 5 |}.
Proof.
  split.
  - apply (proj1 (NewRegistrar_validation sampleInstance (sampleConfig "consul" 5))).
    right; right; right; right. split; discriminate.
  - refine (proj1 (proj2 (NewRegistrar_validation sampleInstance
                              (sampleConfig "http" 5)) _ _ _ _ _) _);
      simpl; unfold Second; try reflexivity; try lia; discriminate.
Defined.

(** The default configuration with the "http" transport: every numeric
    condition holds and the kind is recognized, the HTTP transport is made
    without fail, and yet construction fails, on the empty [RegistryURL]. *)
Lemma NewRegistrar_valid_numbers_rejected :
  let cfg := {| RegistryURL := ""; RegistryType := "http";
                HeartbeatInterval := 10 * Second; CallTimeout := 5 * Second;
                MaxRetries := 5; RetryDelay := 1 * Second |} in
  0 < HeartbeatInterval cfg /\ 0 < CallTimeout cfg
  /\ 0 <= MaxRetries cfg /\ 0 <= RetryDelay cfg
  /\ RegistryType cfg = "http"
  /\ ~ (exists r, NewRegistrar (C := GrpcGo.ClientConn) sampleInstance (Some cfg) = inl r).
Proof.
  cbv zeta. repeat split; try reflexivity; try discriminate.
  intros [r Hr]. discriminate Hr.
Qed.

End constructionFacts.

(** ** The executor *)
Module execFacts.

Lemma passes_bind {A B : Type} (body : World -> Outcome control)
    (rest : World -> Outcome A) (rest' : World -> Outcome B)
    (next : A -> World -> Outcome B) :
  (forall w, rest' w = match rest w with
                       | Done a w' => next a w'
                       | Halted h w' => Halted h w'
                       end) ->
  forall n w,
    passes body rest' n w = match passes body rest n w with
                            | Done a w' => next a w'
                            | Halted h w' => Halted h w'
                            end.
Proof.
  intros Hrest. induction n as [|n IH]; intros w; simpl; [reflexivity|].
  destruct (body w) as [[|] w'|h w']; auto.
Qed.

(** Running [p] and then [f] on its result is running [bind p f]. *)
Lemma exec_bind (fuel : nat) {A : Type} (p : Prog A) :
  forall {B : Type} (f : A -> Prog B) (w : World),
    exec fuel (bind p f) w = match exec fuel p w with
                             | Done a w' => exec fuel (f a) w'
                             | Halted h w' => Halted h w'
                             end.
Proof.
  induction p as [A a|A c k IH|A d k IH|A k IH|A a k IH|A g _ k IH|A body _ k IH];
    intros B f w; simpl.
  - reflexivity.
  - destruct (do_call c w); auto.
  - destruct (do_wait d w); auto.
  - destruct (do_select w); auto.
  - destruct (do_act a w); auto.
  - apply IH.
  - apply passes_bind. intros w'. apply IH.
Qed.

Lemma run_app (l1 l2 : list thread) : forall s,
  run (l1 ++ l2) s = match run l1 s with
                     | Some s1 => run l2 s1
                     | None => None
                     end.
Proof.
  induction l1 as [|th l1 IH]; intros s; cbn; [reflexivity|].
  destruct (sys_step th s); auto.
Qed.

Lemma run_Main_step (p p' : Prog unit) (w w' : World) (m : nat) (s : System) :
  step1 p w = Some (p', w') ->
  run (repeat Main m) {| main := p'; store := w' |} = Some s ->
  run (repeat Main (S m)) {| main := p; store := w |} = Some s.
Proof. intros Hstep Hrun. cbn. rewrite Hstep. exact Hrun. Qed.

(** The two semantics agree on a goroutine running alone: what [exec] runs
    to its end, the foreground path reaches step by step, and goes on with
    what comes next. *)
Lemma exec_run (fuel : nat) {A : Type} (p : Prog A) :
  forall (next : A -> Prog unit) (w : World) (a : A) (w' : World),
    exec fuel p w = Done a w' ->
    exists m, run (repeat Main m) {| main := bind p next; store := w |}
              = Some {| main := next a; store := w' |}.
Proof.
  induction p as [A a0|A c k IH|A d k IH|A k IH|A act k IH|A g _ k IH|A body IHb k IHk];
    intros next w a w' Hex; cbn in Hex.
  - inversion Hex; subst. exists 0%nat. reflexivity.
  - destruct (do_call c w) as [res w1|] eqn:E; [|discriminate].
    destruct (IH res next w1 a w' Hex) as (m & Hm).
    exists (S m). eapply run_Main_step; [|exact Hm]. cbn. now rewrite E.
  - destruct (do_wait d w) as [res w1|] eqn:E; [|discriminate].
    destruct (IH res next w1 a w' Hex) as (m & Hm).
    exists (S m). eapply run_Main_step; [|exact Hm]. cbn. now rewrite E.
  - destruct (do_select w) as [res w1|] eqn:E; [|discriminate].
    destruct (IH res next w1 a w' Hex) as (m & Hm).
    exists (S m). eapply run_Main_step; [|exact Hm]. cbn. now rewrite E.
  - destruct (do_act act w) as [[] w1|] eqn:E; [|discriminate].
    destruct (IH next w1 a w' Hex) as (m & Hm).
    exists (S m). eapply run_Main_step; [|exact Hm]. cbn. now rewrite E.
  - destruct (IH next (do_go g w) a w' Hex) as (m & Hm).
    exists (S m). eapply run_Main_step; [|exact Hm]. reflexivity.
  - assert (Hloop : forall n w,
              passes (exec fuel body) (exec fuel k) n w = Done a w' ->
              exists m, run (repeat Main m)
                          {| main := For body (bind k next); store := w |}
                        = Some {| main := next a; store := w' |});
      [|exact (Hloop fuel w Hex)].
    clear w Hex.
    induction n as [|n IHn]; intros w Hex; cbn in Hex; [discriminate|].
    destruct (exec fuel body w) as [[|] w1|] eqn:E; [| |discriminate].
    + destruct (IHn w1 Hex) as (m2 & Hm2).
      destruct (IHb (fun c => match c with
                              | Continue => For body (bind k next)
                              | Return => bind k next
                              end) w Continue w1 E) as (m1 & Hm1).
      exists (S (m1 + m2)). eapply run_Main_step; [reflexivity|].
      rewrite repeat_app, run_app, Hm1. exact Hm2.
    + destruct (IHk next w1 a w' Hex) as (m2 & Hm2).
      destruct (IHb (fun c => match c with
                              | Continue => For body (bind k next)
                              | Return => bind k next
                              end) w Return w1 E) as (m1 & Hm1).
      exists (S (m1 + m2)). eapply run_Main_step; [reflexivity|].
      rewrite repeat_app, run_app, Hm1. exact Hm2.
Qed.

End execFacts.

(** ** The retry protocol *)
Module retryFacts.
Import registry registration execFacts.

Section RetryFacts.
Context {C : Type} {api : ClientConnAPI C} (r : Registrar (C := C)).

Lemma sameShared_refl (w : World) : sameShared w w.
Proof. repeat split. Qed.

Lemma sameShared_trans (w1 w2 w3 : World) :
  sameShared w1 w2 -> sameShared w2 w3 -> sameShared w1 w3.
Proof. unfold sameShared. intuition congruence. Qed.

(** One failed attempt: the call fails, the line is logged, the [select]
    runs the case [fired]. *)
Lemma retryLoop_failed_attempt (fuel : nat) (i : Z) (m : nat) (w : World)
    (err : error) (rr : list (option error)) (fired : waitResult)
    (wr : list waitResult) :
  registerResults (env w) = Some err :: rr ->
  waitResults (env w) = fired :: wr ->
  exists w1,
    exec fuel (retryLoop r i (S m)) w =
      exec fuel (match fired with
                 | TimerFired => retryLoop r (i + 1) m
                 | WaitCtxDone e => Ret (Some (errAborted r e))
                 end) w1
    /\ trace w1 = trace w ++ failedAttempt r i err fired
    /\ registerResults (env w1) = rr
    /\ waitResults (env w1) = wr
    /\ sameShared w w1.
Proof.
  intros Hreg Hwait. cbn [retryLoop bind invoke do exec].
  unfold do_call. cbn [answerCall]. rewrite Hreg.
  cbn [bind exec do_act]. unfold do_wait, answerWait. cbn. rewrite Hwait.
  eexists. split; [reflexivity|]. cbn.
  rewrite <- !app_assoc. repeat split.
Qed.

(** Failed attempts in a row, each waited out, from counter [i]. *)
Lemma retryLoop_failed_attempts (fuel : nat) (m : nat) (errs : list error) :
  forall (i : Z) (w : World) (rr : list (option error)) (wr : list waitResult),
    registerResults (env w) = map Some errs ++ rr ->
    waitResults (env w) = repeat TimerFired (List.length errs) ++ wr ->
    exists w',
      exec fuel (retryLoop r i (List.length errs + m)) w =
        exec fuel (retryLoop r (i + Z.of_nat (List.length errs)) m) w'
      /\ trace w' = trace w ++ failedAttempts r i errs
      /\ registerResults (env w') = rr
      /\ waitResults (env w') = wr
      /\ sameShared w w'.
Proof.
  induction errs as [|err errs IH]; intros i w rr wr Hreg Hwait.
  - exists w. cbn [List.length Nat.add failedAttempts].
    rewrite Z.add_0_r, app_nil_r. simpl in Hreg, Hwait.
    split; [reflexivity|]. split; [reflexivity|].
    split; [assumption|]. split; [assumption|]. apply sameShared_refl.
  - cbn [List.length Nat.add map repeat app] in *.
    destruct (retryLoop_failed_attempt fuel i (List.length errs + m) w err
                (map Some errs ++ rr) TimerFired
                (repeat TimerFired (List.length errs) ++ wr) Hreg Hwait)
      as (w1 & Hex & Htr & Hreg1 & Hwait1 & Hsh1).
    destruct (IH (i + 1) w1 rr wr Hreg1 Hwait1)
      as (w' & Hex' & Htr' & Hreg' & Hwait' & Hsh').
    exists w'. rewrite Hex, Hex', Htr', Htr.
    replace (i + 1 + Z.of_nat (List.length errs))
      with (i + Z.of_nat (S (List.length errs))) by lia.
    cbn [failedAttempts]. rewrite <- app_assoc.
    split; [reflexivity|]. split; [reflexivity|].
    split; [assumption|]. split; [assumption|].
    eapply sameShared_trans; eauto.
Qed.

Lemma count_app (f : event -> bool) (t1 t2 : list event) :
  count f (t1 ++ t2) = (count f t1 + count f t2)%nat.
Proof. unfold count. now rewrite filter_app, length_app. Qed.

Lemma waitsOf_app (t1 t2 : list event) :
  waitsOf (t1 ++ t2) = waitsOf t1 ++ waitsOf t2.
Proof. apply flat_map_app. Qed.

Lemma count_isRegister_failedAttempts (errs : list error) : forall i,
  count isRegister (failedAttempts r i errs) = List.length errs.
Proof.
  induction errs as [|err errs IH]; intros i; [reflexivity|].
  cbn [failedAttempts]. rewrite count_app, IH. reflexivity.
Qed.

Lemma waitsOf_failedAttempts (errs : list error) : forall i,
  waitsOf (failedAttempts r i errs) =
  map (fun j => backoff (RetryDelay (config r)) (i + Z.of_nat j))
      (seq 0 (List.length errs)).
Proof.
  induction errs as [|err errs IH]; intros i; [reflexivity|].
  cbn [failedAttempts List.length seq map]. unfold waitsOf in *.
  rewrite flat_map_app, IH. cbn [failedAttempt flat_map app].
  rewrite Z.add_0_r. f_equal.
  rewrite <- seq_shift, map_map. apply map_ext. intros j.
  f_equal. lia.
Qed.

(** Without overflow the shift and the product are the mathematical ones. *)
Lemma backoff_exact (d : Duration) (i : Z) :
  0 <= i -> 0 <= d -> d * 2 ^ i <= GoInt.MaxInt64 -> backoff d i = d * 2 ^ i.
Proof.
  intros Hi Hd Hmax. unfold backoff, GoInt.mul64, GoInt.shl64.
  rewrite Z.shiftl_1_l.
  assert (Hpow : 0 < 2 ^ i) by (apply Z.pow_pos_nonneg; lia).
  destruct (Z.eq_dec d 0) as [->|Hnz].
  - rewrite !Z.mul_0_l. apply GoIntFacts.wrap64_small.
    unfold GoInt.in_range, GoInt.MinInt64, GoInt.MaxInt64. lia.
  - assert (H2 : 2 ^ i <= d * 2 ^ i) by nia.
    rewrite (GoIntFacts.wrap64_small (2 ^ i)).
    + apply GoIntFacts.wrap64_small.
      unfold GoInt.in_range, GoInt.MinInt64, GoInt.MaxInt64 in *. lia.
    + unfold GoInt.in_range, GoInt.MinInt64, GoInt.MaxInt64 in *. lia.
Qed.

Lemma failedAttempts_snoc (errs : list error) (err : error) : forall i,
  failedAttempts r i (errs ++ [err]) =
  failedAttempts r i errs
  ++ failedAttempt r (i + Z.of_nat (List.length errs)) err TimerFired.
Proof.
  induction errs as [|e errs IH]; intros i.
  - cbn. now rewrite Z.add_0_r.
  - cbn [app failedAttempts List.length]. rewrite IH, <- app_assoc.
    do 3 f_equal. lia.
Qed.

Lemma last_failedAttempts (errs : list error) (err : error) (i : Z) (dflt : event) :
  last (failedAttempts r i (errs ++ [err])) dflt =
  EvWait (backoff (RetryDelay (config r)) (i + Z.of_nat (List.length errs))) TimerFired.
Proof.
  rewrite failedAttempts_snoc. unfold failedAttempt.
  change [?a; ?b; ?c] with ([a; b] ++ [c]).
  rewrite app_assoc. apply last_last.
Qed.

Lemma errors_Is_unfold (err target : error) :
  errors_Is err target =
  if error_eq_dec err target then true
  else match err with
       | Wrapf _ cause => errors_Is cause target
       | _ => false
       end.
Proof. destruct err; reflexivity. Qed.

Lemma errors_Is_refl (e : error) : errors_Is e e = true.
Proof. rewrite errors_Is_unfold. destruct (error_eq_dec e e); congruence. Qed.

Lemma errors_Is_cause (m : message) (cause target : error) :
  errors_Is cause target = true -> errors_Is (Wrapf m cause) target = true.
Proof.
  intros Hc. rewrite errors_Is_unfold.
  destruct (error_eq_dec (Wrapf m cause) target); auto.
Qed.


(** C2, the code past the final attempt.  With [MaxRetries = n >= 1] and
    a client that fails every attempt, the [select] on [time.After] and
    [ctx.Done()] follows the final failed call too: the history ends with
    a wait of [backoff RetryDelay (n-1)] after the [n]th register call,
    [n] waits in all and not [n-1].  When its timer fires the
    retries-exhausted error is returned, that much later; when the
    context is cancelled during it, the aborted-retry error is returned
    instead, although all [n] attempts were made and failed. *)
Theorem registerWithRetry_waits_after_last_attempt (fuel : nat) (w : World)
    (errs : list error) (err : error) (fired : waitResult)
    (rr : list (option error)) (wr : list waitResult) :
  MaxRetries (config r) = Z.of_nat (S (List.length errs)) ->
  registerResults (env w) = map Some errs ++ Some err :: rr ->
  waitResults (env w) = repeat TimerFired (List.length errs) ++ fired :: wr ->
  exists w' t,
    t = failedAttempts r 0 errs
        ++ failedAttempt r (Z.of_nat (List.length errs)) err fired
    /\ exec fuel (registerWithRetry r) w =
         Done (Some match fired with
                    | TimerFired => errExhausted r
                    | WaitCtxDone e => errAborted r e
                    end) w'
    /\ trace w' = trace w ++ t
    /\ count isRegister t = S (List.length errs)
    /\ waitsOf t =
         map (fun j => backoff (RetryDelay (config r)) (Z.of_nat j))
             (seq 0 (S (List.length errs)))
    /\ last t EvGo =
         EvWait (backoff (RetryDelay (config r)) (MaxRetries (config r) - 1)) fired
    /\ match fired with
       | TimerFired => True
       | WaitCtxDone e =>
           errors_Is (errAborted r e) (ctxError e) = true
           /\ errors_Is (errAborted r e) (errExhausted r) = false
       end
    /\ registerResults (env w') = rr
    /\ waitResults (env w') = wr.
Proof.
  intros Hmax Hreg Hwait.
  destruct (retryLoop_failed_attempts fuel 1 errs 0 w
              (Some err :: rr) (fired :: wr) Hreg Hwait)
    as (w1 & Hex & Htr & Hreg1 & Hwait1 & _).
  destruct (retryLoop_failed_attempt fuel (0 + Z.of_nat (List.length errs)) 0 w1
              err rr fired wr Hreg1 Hwait1)
    as (w' & Hex' & Htr' & Hreg' & Hwait' & _).
  exists w', (failedAttempts r 0 errs
              ++ failedAttempt r (Z.of_nat (List.length errs)) err fired).
  split; [reflexivity|]. split.
  { unfold registerWithRetry. rewrite Hmax, Nat2Z.id.
    replace (S (List.length errs)) with (List.length errs + 1)%nat by lia.
    rewrite Hex, Hex'. destruct fired; reflexivity. }
  split; [rewrite Htr', Htr, <- app_assoc; reflexivity|].
  split; [rewrite count_app, count_isRegister_failedAttempts; cbn; lia|].
  split.
  { rewrite waitsOf_app, waitsOf_failedAttempts, seq_S, map_app. reflexivity. }
  split.
  { unfold failedAttempt. change [?a; ?b; ?c] with ([a; b] ++ [c]).
    rewrite !app_assoc, last_last, Hmax. do 2 f_equal. lia. }
  split; [|split; assumption].
  destruct fired as [|e]; [exact I|]. split.
  - unfold errAborted. apply errors_Is_cause, errors_Is_refl.
  - unfold errAborted, errExhausted. rewrite errors_Is_unfold.
    destruct (error_eq_dec _ _) as [Heq|_]; [discriminate Heq|].
    rewrite errors_Is_unfold.
    destruct (error_eq_dec _ _) as [Heq|_]; [destruct e; discriminate Heq|].
    destruct e; reflexivity.
Qed.

(** C5. When the outer context is cancelled during the wait after a failed
    attempt, [registerWithRetry] returns there: the history ends with that
    wait, no further register call follows and no further answer of the
    registry is used; the error wraps [ctx.Err()], which the
    retries-exhausted error does not. *)
Theorem registerWithRetry_cancelled_during_wait (fuel : nat) (w : World)
    (errs : list error) (err : error) (e : ctxErr)
    (rr : list (option error)) (wr : list waitResult) :
  (List.length errs < Z.to_nat (MaxRetries (config r)))%nat ->
  registerResults (env w) = map Some errs ++ Some err :: rr ->
  waitResults (env w) = repeat TimerFired (List.length errs) ++ WaitCtxDone e :: wr ->
  exists w',
    exec fuel (registerWithRetry r) w = Done (Some (errAborted r e)) w'
    /\ trace w' = trace w ++ failedAttempts r 0 errs
                  ++ failedAttempt r (Z.of_nat (List.length errs)) err (WaitCtxDone e)
    /\ count isRegister (failedAttempts r 0 errs
         ++ failedAttempt r (Z.of_nat (List.length errs)) err (WaitCtxDone e))
       = S (List.length errs)
    /\ registerResults (env w') = rr
    /\ waitResults (env w') = wr
    /\ errors_Is (errAborted r e) (ctxError e) = true
    /\ errors_Is (errExhausted r) (ctxError e) = false
    /\ errAborted r e <> errExhausted r.
Proof.
  intros Hlt Hreg Hwait.
  remember (Z.to_nat (MaxRetries (config r)) - S (List.length errs))%nat as m eqn:Hm.
  destruct (retryLoop_failed_attempts fuel (S m) errs 0 w
              (Some err :: rr) (WaitCtxDone e :: wr) Hreg Hwait)
    as (w1 & Hex & Htr & Hreg1 & Hwait1 & _).
  destruct (retryLoop_failed_attempt fuel (0 + Z.of_nat (List.length errs)) m w1
              err rr (WaitCtxDone e) wr Hreg1 Hwait1)
    as (w' & Hex' & Htr' & Hreg' & Hwait' & _).
  exists w'. unfold registerWithRetry.
  replace (Z.to_nat (MaxRetries (config r))) with (List.length errs + S m)%nat by lia.
  rewrite Hex, Hex'. cbn [exec].
  split; [reflexivity|].
  split; [rewrite Htr', Htr, <- app_assoc; reflexivity|].
  split; [rewrite count_app, count_isRegister_failedAttempts; cbn; lia|].
  split; [assumption|]. split; [assumption|].
  split; [|split]; [| |discriminate].
  - unfold errAborted. apply errors_Is_cause, errors_Is_refl.
  - unfold errExhausted. rewrite errors_Is_unfold.
    destruct (error_eq_dec _ (ctxError e)) as [Heq|]; [|reflexivity].
    destruct e; discriminate Heq.
Qed.

(** [registerWithRetry] returns once the registry has answered its calls
    and its waits have ended; it never waits on the store and never panics. *)
Lemma retryLoop_returns (fuel : nat) (remaining : nat) : forall (i : Z) (w : World),
  (remaining <= List.length (registerResults (env w)))%nat ->
  (remaining <= List.length (waitResults (env w)))%nat ->
  exists res w', exec fuel (retryLoop r i remaining) w = Done res w'
                 /\ sameShared w w'.
Proof.
  induction remaining as [|m IH]; intros i w Hreg Hwait.
  - exists (Some (errExhausted r)), w. split; [reflexivity|apply sameShared_refl].
  - destruct (registerResults (env w)) as [|[err|] rr] eqn:Er; [simpl in Hreg; lia| |].
    + destruct (waitResults (env w)) as [|fired wr] eqn:Ew; [simpl in Hwait; lia|].
      destruct (retryLoop_failed_attempt fuel i m w err rr fired wr Er Ew)
        as (w1 & Hex & _ & Hreg1 & Hwait1 & Hsh1).
      rewrite Hex. destruct fired as [|e].
      * destruct (IH (i + 1) w1) as (res & w' & Hex' & Hsh').
        { rewrite Hreg1. simpl in Hreg. lia. }
        { rewrite Hwait1. simpl in Hwait. lia. }
        exists res, w'. split; [exact Hex'|]. eapply sameShared_trans; eauto.
      * exists (Some (errAborted r e)), w1. split; [reflexivity|exact Hsh1].
    + cbn [retryLoop bind invoke exec]. unfold do_call. cbn [answerCall].
      rewrite Er. cbn [bind exec]. eexists _, _. split; [reflexivity|].
      repeat split.
Qed.

Lemma registerWithRetry_returns (fuel : nat) (w : World) :
  (Z.to_nat (MaxRetries (config r)) <= List.length (registerResults (env w)))%nat ->
  (Z.to_nat (MaxRetries (config r)) <= List.length (waitResults (env w)))%nat ->
  exists res w', exec fuel (registerWithRetry r) w = Done res w'
                 /\ sameShared w w'.
Proof. apply retryLoop_returns. Qed.




End RetryFacts.



Lemma registerWithRetry_waits_after_last_attempt_witness :
  (exists w',
     exec 0 (registerWithRetry (sampleRegistrar 2)) (newWorld (registryDown 2))
     = Done (Some (errExhausted (sampleRegistrar 2))) w'
     /\ count isRegister (trace w') = 2%nat
     /\ waitsOf (trace w') = [1 * Second; 2 * Second]
     /\ last (trace w') EvGo = EvWait (2 * Second) TimerFired)
  /\
  (exists w',
     exec 0 (registerWithRetry (sampleRegistrar 2))
       (newWorld {| registerResults := [Some refused; Some refused];
                    heartbeatResults := []; deregisterResults := [];
                    closeResults := [];
                    waitResults := [TimerFired; WaitCtxDone Canceled];
                    selectResults := [] |})
     = Done (Some (errAborted (sampleRegistrar 2) Canceled)) w'
     /\ count isRegister (trace w') = 2%nat
     /\ last (trace w') EvGo = EvWait (2 * Second) (WaitCtxDone Canceled)).
Proof.
  split.
  - destruct (registerWithRetry_waits_after_last_attempt (sampleRegistrar 2) 0
                (newWorld (registryDown 2)) [refused] refused TimerFired [] []
                eq_refl eq_refl eq_refl)
      as (w' & t & Ht & Hex & Htr & Hcount & Hwaits & Hlast & _).
    exists w'. split; [exact Hex|]. rewrite Htr. simpl trace. rewrite app_nil_l.
    split; [exact Hcount|]. split; [rewrite Hwaits; reflexivity|].
    rewrite Hlast. reflexivity.
  - destruct (registerWithRetry_waits_after_last_attempt (sampleRegistrar 2) 0
                (newWorld {| registerResults := [Some refused; Some refused];
                             heartbeatResults := []; deregisterResults := [];
                             closeResults := [];
                             waitResults := [TimerFired; WaitCtxDone Canceled];
                             selectResults := [] |})
                [refused] refused (WaitCtxDone Canceled) [] []
                eq_refl eq_refl eq_refl)
      as (w' & t & Ht & Hex & Htr & Hcount & _ & Hlast & _).
    exists w'. split; [exact Hex|]. rewrite Htr. simpl trace. rewrite app_nil_l.
    split; [exact Hcount|]. rewrite Hlast. reflexivity.
Defined.

Lemma registerWithRetry_cancelled_during_wait_witness :
  exists w',
    exec 0 (registerWithRetry (sampleRegistrar 3))
      (newWorld {| registerResults := [Some refused; Some refused; None];
                   heartbeatResults := []; deregisterResults := [];
                   closeResults := [];
                   waitResults := [TimerFired; WaitCtxDone Canceled];
                   selectResults := [] |})
    = Done (Some (errAborted (sampleRegistrar 3) Canceled)) w'
    /\ count isRegister (trace w') = 2%nat
    /\ registerResults (env w') = [None].
Proof.
  destruct (registerWithRetry_cancelled_during_wait (sampleRegistrar 3) 0
              (newWorld {| registerResults := [Some refused; Some refused; None];
                           heartbeatResults := []; deregisterResults := [];
                           closeResults := [];
                           waitResults := [TimerFired; WaitCtxDone Canceled];
                           selectResults := [] |})
              [refused] refused Canceled [None] [])
    as (w' & Hex & Htr & Hcount & Hrr & _);
    [simpl; lia | reflexivity | reflexivity |].
  exists w'. split; [exact Hex|]. rewrite Htr. simpl trace. rewrite app_nil_l.
  split; [exact Hcount|exact Hrr].
Defined.

End retryFacts.

(** ** Start and the heartbeat loop *)
Module loopFacts.
Import registry registration execFacts retryFacts.

Section LoopFacts.
Context {C : Type} {api : ClientConnAPI C} (r : Registrar (C := C)).

Local Arguments registerWithRetry : simpl never.

(** The pass that finds the context cancelled logs and ends at the closing
    brace of the loop. *)
Lemma heartbeatPass_on_cancellation (fuel : nat) (w : World) (sr : list selectResult) :
  selectResults (env w) = CtxDone :: sr ->
  exists w',
    exec fuel (heartbeatPass r) w = Done Continue w'
    /\ trace w' = trace w ++ [EvSelect CtxDone; EvAct (Log LogLoopContextCancelled)]
    /\ selectResults (env w') = sr
    /\ wg w' = wg w /\ stopHeartbeat w' = stopHeartbeat w.
Proof.
  intros Hsel. unfold heartbeatPass. cbn [exec].
  unfold do_select, answerSelect. rewrite Hsel. cbn.
  eexists. split; [reflexivity|]. cbn. rewrite <- app_assoc. repeat split.
Qed.

(** The pass that finds the stop channel closed logs and returns. *)
Lemma heartbeatPass_on_stop (fuel : nat) (w : World) (sr : list selectResult) :
  selectResults (env w) = StopHeartbeat :: sr ->
  stopHeartbeat w = Closed ->
  exists w',
    exec fuel (heartbeatPass r) w = Done Return w'
    /\ trace w' = trace w ++ [EvSelect StopHeartbeat; EvAct (Log LogLoopStopped)].
Proof.
  intros Hsel Hstop. unfold heartbeatPass. cbn [exec].
  unfold do_select, answerSelect. rewrite Hsel, Hstop. cbn.
  eexists. split; [reflexivity|]. cbn. now rewrite <- app_assoc.
Qed.


(** C8. [Start] attempts the initial registration and then, whatever that
    attempt returned, adds one to the wait group and starts
    [runHeartbeatLoop] as a goroutine. *)
Theorem Start_launches_heartbeat_loop (fuel : nat) (w : World) :
  0 <= wg w ->
  (Z.to_nat (MaxRetries (config r)) <= List.length (registerResults (env w)))%nat ->
  (Z.to_nat (MaxRetries (config r)) <= List.length (waitResults (env w)))%nat ->
  exists registrationErr w1 w',
    exec fuel (registerWithRetry r) (emit (EvAct (Log LogInitialAttempt)) w)
      = Done registrationErr w1
    /\ exec fuel (Start r) w = Done tt w'
    /\ trace w' = trace w1 ++ registrationReport registrationErr
                  ++ [EvAct (WgAdd 1); EvGo]
    /\ goroutines w' = goroutines w ++ [runHeartbeatLoop r]
    /\ wg w' = wg w + 1
    /\ stopHeartbeat w' = stopHeartbeat w.
Proof.
  intros Hwg Hreg Hwait. unfold Start. cbn [bind do exec do_act].
  set (w0 := emit (EvAct (Log LogInitialAttempt)) w).
  destruct (registerWithRetry_returns r fuel w0) as (res & w1 & Hex & Hsh);
    [exact Hreg | exact Hwait |].
  destruct Hsh as (Hstop & Hwg1 & _ & Hgo & _).
  exists res, w1. rewrite exec_bind, Hex.
  assert (Hadd : (wg w1 + 1 <? 0) = false) by (apply Z.ltb_ge; cbn in Hwg1; lia).
  destruct res as [e|]; cbn; rewrite Hadd; cbn;
    eexists; (split; [reflexivity|]); (split; [reflexivity|]); cbn;
    rewrite <- !app_assoc, Hgo, Hwg1, Hstop; repeat split.
Qed.

End LoopFacts.


Lemma Start_launches_heartbeat_loop_witness :
  exists w',
    exec 0 (Start (sampleRegistrar 3)) (newWorld (registryDown 3)) = Done tt w'
    /\ goroutines w' = [runHeartbeatLoop (sampleRegistrar 3)]
    /\ wg w' = 1.
Proof.
  destruct (Start_launches_heartbeat_loop (sampleRegistrar 3) 0
              (newWorld (registryDown 3)))
    as (res & w1 & w' & _ & Hex & _ & Hgo & Hwg & _);
    [simpl; lia | simpl; lia | simpl; lia |].
  exists w'. split; [exact Hex|]. split; [exact Hgo|exact Hwg].
Defined.

(** C3, the code at the failing input.  The loop runs with one goroutine
    counted in the wait group; the [select] first finds the context
    cancelled and then a tick.  After the cancellation is logged the loop
    is still there: it sends a heartbeat, and neither of its deferred
    calls has run.  The same loop facing a closed stop channel returns. *)
Theorem runHeartbeatLoop_survives_cancellation :
  (exists w',
     exec 2 (runHeartbeatLoop (sampleRegistrar 3))
       (withWg 1 (newWorld {| registerResults := []; heartbeatResults := [None];
                              deregisterResults := []; closeResults := [];
                              waitResults := [];
                              selectResults := [CtxDone; Tick] |}))
     = Halted OutOfFuel w'
     /\ trace w' =
          [ EvAct (NewTicker (10 * Second));
            EvSelect CtxDone;
            EvAct (Log LogLoopContextCancelled);
            EvSelect Tick;
            EvCall (SendHeartbeat (5 * Second) "orders-1") None;
            EvAct (Log LogHeartbeatSent);
            EvAct (SetGauge 1) ]
     /\ wg w' = 1)
  /\
  (exists w',
     exec 2 (runHeartbeatLoop (sampleRegistrar 3))
       (withStop Closed
          (withWg 1 (newWorld {| registerResults := []; heartbeatResults := [];
                                 deregisterResults := []; closeResults := [];
                                 waitResults := [];
                                 selectResults := [StopHeartbeat] |})))
     = Done tt w'
     /\ trace w' =
          [ EvAct (NewTicker (10 * Second));
            EvSelect StopHeartbeat;
            EvAct (Log LogLoopStopped);
            EvAct TickerStop;
            EvAct WgDone ]
     /\ wg w' = 0).
Proof.
  split; eexists; (split; [reflexivity|]); split; reflexivity.
Qed.

End loopFacts.

(** ** Stop next to the heartbeat goroutine *)
Module stopFacts.
Import registry registration execFacts.

Lemma Quiet_bind {A B : Type} (p : Prog A) (f : A -> Prog B) :
  Quiet p -> (forall a, Quiet (f a)) -> Quiet (bind p f).
Proof. induction 1; intros Hf; cbn; try constructor; auto. Qed.

Lemma EndsDone_bind {A : Type} (p : Prog A) (f : A -> Prog unit) :
  Quiet p -> (forall a, EndsDone (f a)) -> EndsDone (bind p f).
Proof. induction 1; intros Hf; cbn; try constructor; auto. Qed.

Lemma EndsDone_not_returned (g : Prog unit) : EndsDone g -> returned g = false.
Proof. destruct 1; reflexivity. Qed.

Lemma shutdownEvents_app (t1 t2 : list event) :
  shutdownEvents (t1 ++ t2) = shutdownEvents t1 ++ shutdownEvents t2.
Proof. apply filter_app. Qed.

Lemma loopFrame_emit (ev : event) (w w1 : World) :
  isShutdownEvent ev = false ->
  stopHeartbeat w1 = stopHeartbeat w -> goroutines w1 = goroutines w ->
  deregisterResults (env w1) = deregisterResults (env w) ->
  closeResults (env w1) = closeResults (env w) ->
  trace w1 = trace w ->
  loopFrame w (emit ev w1).
Proof.
  intros Hev Hs Hg Hd Hc Ht. unfold loopFrame. cbn.
  split; [|auto].
  exists [ev]. rewrite Ht. split; [reflexivity|].
  unfold shutdownEvents. cbn. now rewrite Hev.
Qed.

(** A step of a goroutine that ends in [r.wg.Done()]: either that very
    call, which takes one off the wait group and leaves the goroutine
    returned, or a step that keeps the counter and the obligation. *)
Lemma EndsDone_step (g g' : Prog unit) (w w' : World) :
  EndsDone g -> step1 g w = Some (g', w') ->
  loopFrame w w'
  /\ ((EndsDone g' /\ wg w' = wg w) \/ (g' = Ret tt /\ wg w' = wg w - 1)).
Proof.
  intros Hg Hstep. destruct Hg as [|c k Hc Hk|d k Hk|k Hk|a k Ha Hk|body k Hb Hk];
    cbn in Hstep.
  - destruct (wg w - 1 <? 0); [discriminate|]. inversion Hstep; subst.
    split; [apply loopFrame_emit; reflexivity|]. right. split; reflexivity.
  - unfold do_call in Hstep.
    destruct (answerCall c (env w)) as [[res e']|] eqn:Ea; [|discriminate].
    inversion Hstep; subst. split; [|left; split; [apply Hk|reflexivity]].
    destruct c; try discriminate Hc; cbn in Ea;
      [destruct (registerResults (env w))|destruct (heartbeatResults (env w))];
      try discriminate Ea; inversion Ea; subst;
      apply loopFrame_emit; reflexivity.
  - unfold do_wait, answerWait in Hstep.
    destruct (waitResults (env w)); [discriminate|].
    inversion Hstep; subst. split; [|left; split; [apply Hk|reflexivity]].
    apply loopFrame_emit; reflexivity.
  - unfold do_select, answerSelect in Hstep.
    destruct (selectResults (env w)) as [|[| |] sr]; [discriminate| | |].
    + inversion Hstep; subst. split; [|left; split; [apply Hk|reflexivity]].
      apply loopFrame_emit; reflexivity.
    + destruct (stopHeartbeat w); [discriminate|].
      inversion Hstep; subst. split; [|left; split; [apply Hk|reflexivity]].
      apply loopFrame_emit; reflexivity.
    + inversion Hstep; subst. split; [|left; split; [apply Hk|reflexivity]].
      apply loopFrame_emit; reflexivity.
  - destruct a as [m|v| | | | |d|]; try discriminate Ha; cbn in Hstep.
    + inversion Hstep; subst. split; [|left; split; [exact Hk|reflexivity]].
      apply loopFrame_emit; try reflexivity. cbn in *.
      now destruct (stopLog m).
    + inversion Hstep; subst. split; [|left; split; [exact Hk|reflexivity]].
      apply loopFrame_emit; reflexivity.
    + destruct (d <=? 0); [discriminate|].
      inversion Hstep; subst. split; [|left; split; [exact Hk|reflexivity]].
      apply loopFrame_emit; reflexivity.
    + inversion Hstep; subst. split; [|left; split; [exact Hk|reflexivity]].
      apply loopFrame_emit; reflexivity.
  - inversion Hstep; subst. split.
    + unfold loopFrame. split; [|auto]. exists []. now rewrite app_nil_r.
    + left. split; [|reflexivity].
      apply EndsDone_bind; [exact Hb|]. intros [|]; [now constructor|exact Hk].
Qed.

Section StopFacts.
Context {C : Type} {api : ClientConnAPI C} (r : Registrar (C := C)).

Lemma Quiet_retryLoop (remaining : nat) : forall i, Quiet (retryLoop r i remaining).
Proof.
  induction remaining as [|m IH]; intros i; cbn; [constructor|].
  constructor; [reflexivity|]. intros [err|]; cbn; [|constructor].
  constructor; [reflexivity|]. constructor. intros [|e]; [apply IH|constructor].
Qed.

Lemma Quiet_heartbeatPass : Quiet (heartbeatPass r).
Proof.
  unfold heartbeatPass. constructor. intros [| |]; cbn.
  - constructor; [reflexivity|]. intros [err|]; cbn.
    + constructor; [reflexivity|]. apply Quiet_bind; [apply Quiet_retryLoop|].
      intros [e|]; cbn; repeat (constructor; try reflexivity).
    + repeat (constructor; try reflexivity).
  - repeat (constructor; try reflexivity).
  - repeat (constructor; try reflexivity).
Qed.

Lemma EndsDone_runHeartbeatLoop : EndsDone (runHeartbeatLoop r).
Proof.
  unfold runHeartbeatLoop. cbn. constructor; [reflexivity|].
  constructor; [apply Quiet_heartbeatPass|].
  constructor; [reflexivity|]. constructor.
Qed.

Ltac stop_case :=
  cbn; repeat split; auto; try (intros; discriminate); try lia.

(** One step of the foreground path inside [Stop]: it moves to a later
    point, adds the shutdown events of that step, leaves goroutines and
    wait group alone, and gets past [r.wg.Wait()] only at counter zero. *)
Lemma stop_step (pt : stopPoint) (w : World) (p' : Prog unit) (w' : World) :
  step1 (stopFrom r pt) w = Some (p', w') ->
  stopHeartbeat w = (if signalled pt then Closed else Open) ->
  exists pt' evs,
    p' = stopFrom r pt'
    /\ trace w' = trace w ++ evs
    /\ shutdownSoFar r pt' = shutdownSoFar r pt ++ shutdownEvents evs
    /\ stopHeartbeat w' = (if signalled pt' then Closed else Open)
    /\ goroutines w' = goroutines w
    /\ wg w' = wg w
    /\ (pastWait pt' = true -> pastWait pt = true \/ wg w = 0)
    /\ (stepsLeft pt' < stepsLeft pt)%nat
    /\ ((6 <= stepsLeft pt')%nat ->
        deregisterResults (env w') = deregisterResults (env w))
    /\ ((4 <= stepsLeft pt')%nat ->
        closeResults (env w') = closeResults (env w)).
Proof.
  intros Hstep Hstop.
  destruct pt as [| | | |derr|derr|derr cerr|derr cerr|derr cerr|derr cerr];
    cbn in Hstep, Hstop.
  - inversion Hstep; subst.
    exists AtCloseStop, [EvAct (Log LogShutdown)]. stop_case.
  - rewrite Hstop in Hstep. inversion Hstep; subst.
    exists AtWait, [EvAct CloseStopHeartbeat]. stop_case.
  - destruct (Z.eqb_spec (wg w) 0) as [Hz|]; [|discriminate].
    inversion Hstep; subst.
    exists AtDeregister, [EvAct WgWait]. stop_case.
  - unfold do_call in Hstep. cbn in Hstep.
    destruct (deregisterResults (env w)) as [|derr rest]; [discriminate|].
    inversion Hstep; subst.
    exists (AtDeregisterLog derr),
      [EvCall (Deregister (CallTimeout (config r)) (ID (instance r))) derr].
    stop_case.
  - destruct derr as [e|]; cbn in Hstep; inversion Hstep; subst.
    + exists (AtClose (Some e)), [EvAct (Log (LogDeregistrationFailed e))].
      stop_case.
    + exists (AtClose None), [EvAct (Log LogDeregistered)].
      stop_case.
  - unfold do_call in Hstep. cbn in Hstep.
    destruct (closeResults (env w)) as [|cerr rest]; [discriminate|].
    inversion Hstep; subst. destruct cerr as [e|].
    + exists (AtCloseLog derr e), [EvCall CloseClient (Some e)].
      stop_case.
    + exists (AtGauge derr None), [EvCall CloseClient None].
      stop_case.
  - inversion Hstep; subst.
    exists (AtGauge derr (Some cerr)), [EvAct (Log (LogCloseFailed cerr))].
    stop_case.
  - inversion Hstep; subst.
    exists (AtStoppedLog derr cerr), [EvAct (SetGauge 0)].
    cbn. rewrite app_nil_r. stop_case.
  - inversion Hstep; subst.
    exists (AtEnd derr cerr), [EvAct (Log LogStopped)].
    destruct cerr; stop_case.
  - discriminate.
Qed.

Lemma goroutineInv_exited (w : World) :
  goroutineInv w -> wg w = 0 -> loopExited w = true.
Proof.
  unfold loopExited. intros [[Hg _]|(g & Hg & [[_ Hwg]|[-> _]])] Hz;
    rewrite Hg; try reflexivity. lia.
Qed.

(** Any step of the system keeps the invariant. *)
Lemma stopInv_step (w0 : World) (th : thread) (s s' : System)
    (pt : stopPoint) (t : list event) :
  stopInv r w0 s pt t -> sys_step th s = Some s' ->
  exists pt' t', stopInv r w0 s' pt' t'.
Proof.
  intros (Hmain & Htr & Hsd & Hstop & Hgo & Hex) Hstep.
  destruct s as [p w]. cbn in *. destruct th as [|i]; cbn in Hstep.
  - destruct (step1 p w) as [[p' w']|] eqn:E; [|discriminate].
    inversion Hstep; subst s'. rewrite Hmain in E.
    destruct (stop_step pt w p' w' E Hstop)
      as (pt' & evs & Hp' & Htr' & Hsd' & Hstop' & Hgo' & Hwg' & Hpw & _ & _ & _).
    exists pt', (t ++ evs). unfold stopInv. cbn.
    assert (Hinv' : goroutineInv w').
    { unfold goroutineInv. rewrite Hgo', Hwg'. exact Hgo. }
    split; [exact Hp'|]. split; [rewrite Htr', Htr, app_assoc; reflexivity|].
    split; [rewrite shutdownEvents_app, Hsd, Hsd'; reflexivity|].
    split; [exact Hstop'|]. split; [exact Hinv'|].
    intros Hpast. destruct (Hpw Hpast) as [Hold|Hz].
    + unfold loopExited. rewrite Hgo'. apply Hex, Hold.
    + apply goroutineInv_exited; [exact Hinv'|lia].
  - destruct (nth_error (goroutines w) i) as [g|] eqn:En; [|discriminate].
    destruct (step1 g w) as [[g' w']|] eqn:E; [|discriminate].
    inversion Hstep; subst s'.
    destruct Hgo as [[Hg _]|(g0 & Hg & Hcase)].
    { rewrite Hg in En. destruct i; discriminate En. }
    rewrite Hg in En. destruct i as [|i]; [|destruct i; discriminate En].
    inversion En; subst g0.
    destruct Hcase as [[Hed Hwg]|[-> _]]; [|discriminate E].
    destruct (EndsDone_step g g' w w' Hed E)
      as (((evs & Htr' & Hev) & Hstop' & Hgo' & _ & _) & Hcase').
    assert (Hnp : pastWait pt = false).
    { destruct (pastWait pt) eqn:Ep; [|reflexivity].
      specialize (Hex eq_refl). unfold loopExited in Hex. rewrite Hg in Hex.
      cbn in Hex. rewrite (EndsDone_not_returned g Hed) in Hex. discriminate. }
    exists pt, (t ++ evs). unfold stopInv. cbn. rewrite Hgo', Hg. cbn.
    split; [exact Hmain|]. split; [rewrite Htr', Htr, app_assoc; reflexivity|].
    split; [rewrite shutdownEvents_app, Hsd, Hev, app_nil_r; reflexivity|].
    split; [rewrite Hstop'; exact Hstop|].
    split; [|rewrite Hnp; discriminate].
    unfold goroutineInv. cbn. right. exists g'. split; [reflexivity|].
    destruct Hcase' as [[Hed' Hwg']|[-> Hwg']]; [left|right]; split; auto; lia.
Qed.

Lemma stopInv_run (w0 : World) (schedule : list thread) :
  forall (s s' : System) (pt : stopPoint) (t : list event),
    stopInv r w0 s pt t -> run schedule s = Some s' ->
    exists pt' t', stopInv r w0 s' pt' t'.
Proof.
  induction schedule as [|th rest IH]; intros s s' pt t Hinv Hrun; cbn in Hrun.
  - inversion Hrun; subst. eauto.
  - destruct (sys_step th s) as [s1|] eqn:E; [|discriminate].
    destruct (stopInv_step w0 th s s1 pt t Hinv E) as (pt1 & t1 & Hinv1).
    eapply IH; eauto.
Qed.

Lemma stopInv_init (w0 : World) :
  stopHeartbeat w0 = Open ->
  (goroutines w0 = [] /\ wg w0 = 0)
  \/ (goroutines w0 = [runHeartbeatLoop r] /\ wg w0 = 1) ->
  stopInv r w0 {| main := Stop r; store := w0 |} AtShutdownLog [].
Proof.
  intros Hopen Hgo. unfold stopInv. cbn.
  split; [reflexivity|]. split; [now rewrite app_nil_r|].
  split; [reflexivity|]. split; [exact Hopen|]. split; [|discriminate].
  destruct Hgo as [Hnone|[Hloop Hwg]]; [left; exact Hnone|right].
  exists (runHeartbeatLoop r). split; [exact Hloop|]. left.
  split; [apply EndsDone_runHeartbeatLoop|exact Hwg].
Qed.

Lemma stop_enabled (pt : stopPoint) (w : World) :
  stopHeartbeat w = (if signalled pt then Closed else Open) ->
  wg w = 0 ->
  ((6 <= stepsLeft pt)%nat -> deregisterResults (env w) <> []) ->
  ((4 <= stepsLeft pt)%nat -> closeResults (env w) <> []) ->
  (0 < stepsLeft pt)%nat ->
  exists p' w', step1 (stopFrom r pt) w = Some (p', w').
Proof.
  intros Hstop Hwg Hd Hc Hleft.
  destruct pt as [| | | |derr|derr|derr cerr|derr cerr|derr cerr|derr cerr];
    cbn in *; try (eexists _, _; reflexivity); try lia.
  - rewrite Hstop. eexists _, _; reflexivity.
  - rewrite Hwg. eexists _, _; reflexivity.
  - unfold do_call. cbn.
    destruct (deregisterResults (env w)); [exfalso; apply Hd; [lia|reflexivity]|].
    eexists _, _; reflexivity.
  - destruct derr; cbn; eexists _, _; reflexivity.
  - unfold do_call. cbn.
    destruct (closeResults (env w)); [exfalso; apply Hc; [lia|reflexivity]|].
    eexists _, _; reflexivity.
Qed.

(** With the wait group at zero and the registry answering, the
    foreground path runs from any point of [Stop] to its end. *)
Lemma stop_completes (n : nat) : forall (pt : stopPoint) (w : World),
  (stepsLeft pt <= n)%nat ->
  stopHeartbeat w = (if signalled pt then Closed else Open) ->
  wg w = 0 ->
  ((6 <= stepsLeft pt)%nat -> deregisterResults (env w) <> []) ->
  ((4 <= stepsLeft pt)%nat -> closeResults (env w) <> []) ->
  exists m s',
    run (repeat Main m) {| main := stopFrom r pt; store := w |} = Some s'
    /\ main s' = Ret tt.
Proof.
  induction n as [|n IH]; intros pt w Hn Hstop Hwg Hd Hc.
  - exists 0%nat. eexists. split; [reflexivity|].
    destruct pt; cbn in Hn; try lia. reflexivity.
  - destruct (Nat.eq_dec (stepsLeft pt) 0) as [Hz|Hnz].
    { exists 0%nat. eexists. split; [reflexivity|].
      destruct pt; cbn in Hz; try discriminate. reflexivity. }
    destruct (stop_enabled pt w Hstop Hwg Hd Hc ltac:(lia)) as (p' & w' & E).
    destruct (stop_step pt w p' w' E Hstop)
      as (pt' & evs & -> & _ & _ & Hstop' & _ & Hwg' & _ & Hlt & Hd' & Hc').
    destruct (IH pt' w') as (m & s' & Hrun & Hend); try lia; auto.
    + intros H6. rewrite (Hd' H6). apply Hd. lia.
    + intros H4. rewrite (Hc' H4). apply Hc. lia.
    + exists (S m), s'. split; [|exact Hend].
      cbn [repeat run sys_step main store]. rewrite E. exact Hrun.
Qed.

Lemma count_shutdownEvents (f : event -> bool) (t : list event) :
  (forall ev, f ev = true -> isShutdownEvent ev = true) ->
  count f t = count f (shutdownEvents t).
Proof.
  intros Hsub. unfold count, shutdownEvents.
  induction t as [|ev t IH]; [reflexivity|]. cbn.
  destruct (f ev) eqn:Ef.
  - rewrite (Hsub ev Ef). cbn. rewrite Ef. cbn. now rewrite IH.
  - destruct (isShutdownEvent ev); cbn; [rewrite Ef|]; exact IH.
Qed.

Lemma isDeregister_shutdown (ev : event) :
  isDeregister ev = true -> isShutdownEvent ev = true.
Proof. destruct ev as [[]| | | |]; cbn; auto; discriminate. Qed.

Lemma isClose_shutdown (ev : event) :
  isClose ev = true -> isShutdownEvent ev = true.
Proof. destruct ev as [[]| | | |]; cbn; auto; discriminate. Qed.

Lemma stopInv_counts (w0 : World) (s : System) (pt : stopPoint) (t : list event) :
  stopInv r w0 s pt t ->
  (count isDeregister t <= 1)%nat /\ (count isClose t <= 1)%nat
  /\ (stepsLeft pt = 0%nat ->
      count isDeregister t = 1%nat /\ count isClose t = 1%nat).
Proof.
  intros (_ & _ & Hsd & _).
  rewrite (count_shutdownEvents isDeregister t isDeregister_shutdown).
  rewrite (count_shutdownEvents isClose t isClose_shutdown). rewrite Hsd.
  destruct pt as [| | | |derr|derr|derr cerr|derr cerr|derr cerr|derr cerr];
    try destruct cerr; cbn; repeat split; try lia; discriminate.
Qed.

Lemma stopInv_guarded (w0 : World) (s : System) (pt : stopPoint) (t : list event) :
  stopInv r w0 s pt t ->
  forall ev, In ev t ->
    isDeregister ev = true \/ isClose ev = true \/ ev = EvAct WgWait ->
    loopExited (store s) = true.
Proof.
  intros (_ & _ & Hsd & _ & _ & Hex) ev Hin Hev.
  assert (Hsh : isShutdownEvent ev = true).
  { destruct Hev as [H|[H| ->]];
      [now apply isDeregister_shutdown|now apply isClose_shutdown|reflexivity]. }
  assert (Hin' : In ev (shutdownSoFar r pt)).
  { rewrite <- Hsd. apply filter_In. split; assumption. }
  destruct (pastWait pt) eqn:Ep; [now apply Hex|].
  destruct pt; try discriminate Ep; cbn in Hin';
    repeat (destruct Hin' as [<-|Hin']; [destruct Hev as [H|[H|H]]; discriminate|]);
    contradiction.
Qed.

Lemma stopInv_end (w0 : World) (s : System) (pt : stopPoint) (t : list event) :
  stopInv r w0 s pt t -> main s = Ret tt ->
  stepsLeft pt = 0%nat
  /\ exists derr cerr, shutdownEvents t = shutdownHistory r derr cerr.
Proof.
  intros (Hmain & _ & Hsd & _) Hret. rewrite Hmain in Hret.
  destruct pt as [| | | |derr|derr|derr cerr|derr cerr|derr cerr|derr cerr];
    try discriminate Hret.
  - destruct derr; discriminate Hret.
  - split; [reflexivity|]. exists derr, cerr. exact Hsd.
Qed.

(** C6. [Stop] runs next to the heartbeat goroutine, interleaved in any
    order, from a store with the stop channel open and either no
    goroutine or the heartbeat loop started and counted in the wait group.
    In every state reached: the return of [r.wg.Wait()], the deregister
    call and the close of the transport are in the history only when the
    goroutine has returned; at most one deregister call and one close were
    made; when [Stop] has returned, its events are, in this order, the
    stop signal, the wait, one deregister call, its log line (the failure
    when it failed), one close of the transport, and the final line; and
    once the goroutine has returned and the registry answers, [Stop] runs
    to its end whatever the deregister call returns. *)
Theorem Stop_deregisters_after_loop_exit (w0 : World) (schedule : list thread)
    (s : System) :
  stopHeartbeat w0 = Open ->
  (goroutines w0 = [] /\ wg w0 = 0)
  \/ (goroutines w0 = [runHeartbeatLoop r] /\ wg w0 = 1) ->
  run schedule {| main := Stop r; store := w0 |} = Some s ->
  exists t,
    trace (store s) = trace w0 ++ t
    /\ (forall ev, In ev t ->
          isDeregister ev = true \/ isClose ev = true \/ ev = EvAct WgWait ->
          loopExited (store s) = true)
    /\ (count isDeregister t <= 1)%nat
    /\ (count isClose t <= 1)%nat
    /\ (main s = Ret tt ->
        count isDeregister t = 1%nat /\ count isClose t = 1%nat
        /\ exists derr cerr, shutdownEvents t = shutdownHistory r derr cerr)
    /\ (loopExited (store s) = true ->
        deregisterResults (env (store s)) <> [] ->
        closeResults (env (store s)) <> [] ->
        exists m s', run (repeat Main m) s = Some s' /\ main s' = Ret tt).
Proof.
  intros Hopen Hgo Hrun.
  destruct (stopInv_run w0 schedule _ s _ _ (stopInv_init w0 Hopen Hgo) Hrun)
    as (pt & t & Hinv).
  exists t. destruct (stopInv_counts w0 s pt t Hinv) as (Hd & Hc & Hone).
  split; [apply Hinv|]. split; [eapply stopInv_guarded; eauto|].
  split; [exact Hd|]. split; [exact Hc|]. split.
  - intros Hret. destruct (stopInv_end w0 s pt t Hinv Hret) as (Hz & Hhist).
    destruct (Hone Hz) as [H1 H2]. auto.
  - intros Hex Hdr Hcr. destruct Hinv as (Hmain & _ & _ & Hstop & Hgi & _).
    destruct s as [p w]. cbn in *. subst p.
    apply (stop_completes (stepsLeft pt) pt w); auto.
    destruct Hgi as [[_ Hz]|(g & Hg & [[Hed _]|[_ Hz]])]; auto.
    unfold loopExited in Hex. rewrite Hg in Hex. cbn in Hex.
    rewrite (EndsDone_not_returned g Hed) in Hex. discriminate.
Qed.

End StopFacts.

Lemma Stop_deregisters_after_loop_exit_witness :
  match run shutdownSchedule
          {| main := Stop (sampleRegistrar 3); store := runningWorld |} with
  | Some s =>
      exists t,
        trace (store s) = trace runningWorld ++ t
        /\ (count isDeregister t <= 1)%nat
        /\ (count isClose t <= 1)%nat
  | None => False
  end.
Proof.
  destruct (run shutdownSchedule
              {| main := Stop (sampleRegistrar 3); store := runningWorld |})
    as [s|] eqn:E.
  - destruct (Stop_deregisters_after_loop_exit (sampleRegistrar 3) runningWorld
                shutdownSchedule s eq_refl (or_intror (conj eq_refl eq_refl)) E)
      as (t & Ht & _ & Hd & Hc & _).
    exists t. split; [exact Ht|]. split; [exact Hd|exact Hc].
  - vm_compute in E. discriminate E.
Defined.

End stopFacts.

(** ** The retry protocol against any registry *)
Module retryBounds.
Import registry registration execFacts retryFacts.

Section RetryBounds.
Context {C : Type} {api : ClientConnAPI C} (r : Registrar (C := C)).

Lemma retrySummary_after_attempt (remaining : nat) (i : Z) (w w1 : World)
    (err : error) (out : Outcome (option error)) :
  trace w1 = trace w ++ failedAttempt r i err TimerFired ->
  sameShared w w1 ->
  retrySummary r remaining w1 out ->
  retrySummary r (S remaining) w out.
Proof.
  intros Htr Hsh (t & Ht & Hsh' & Hc & Hw & Hall & Hres).
  exists (failedAttempt r i err TimerFired ++ t).
  split; [rewrite Ht, Htr, app_assoc; reflexivity|].
  split; [eapply sameShared_trans; eauto|].
  rewrite count_app, waitsOf_app, length_app, forallb_app.
  split; [cbn; lia|]. split; [cbn in *; lia|]. split; [rewrite Hall; reflexivity|].
  destruct out as [[e|] w'|h w'].
  - destruct Hres as (Hnone & Hcase). rewrite count_app. split; [cbn; lia|].
    destruct Hcase as [[-> Hn]|(ce & d & -> & Hlast)].
    + left. split; [reflexivity|]. cbn. lia.
    + right. exists ce, d. split; [reflexivity|].
      destruct t as [|ev t']; [discriminate Hlast|].
      unfold failedAttempt.
      change [?a; ?b; ?c] with ([a; b] ++ [c]). rewrite <- app_assoc.
      cbn [app]. cbn [last]. exact Hlast.
  - destruct Hres as (t0 & -> & Hnone).
    exists (failedAttempt r i err TimerFired ++ t0).
    split; [now rewrite app_assoc|]. rewrite count_app. cbn. lia.
  - destruct Hres as (-> & Hnone). split; [reflexivity|].
    rewrite count_app. cbn. lia.
Qed.

Ltac side := first [reflexivity | unfold count, waitsOf; cbn; lia].

Lemma retryLoop_summary (fuel : nat) (remaining : nat) : forall (i : Z) (w : World),
  retrySummary r remaining w (exec fuel (retryLoop r i remaining) w).
Proof.
  induction remaining as [|m IH]; intros i w.
  - exists []. cbn. rewrite app_nil_r.
    split; [reflexivity|]. split; [apply sameShared_refl|].
    repeat (split; [side|]). left. split; reflexivity.
  - destruct (registerResults (env w)) as [|[err|] rr] eqn:Er.
    + cbn [retryLoop bind invoke exec]. unfold do_call. cbn [answerCall].
      rewrite Er. exists []. cbn. rewrite app_nil_r.
      split; [reflexivity|]. split; [apply sameShared_refl|].
      repeat (split; [side|]). split; reflexivity.
    + destruct (waitResults (env w)) as [|fired wr] eqn:Ew.
      * cbn [retryLoop bind invoke do exec]. unfold do_call. cbn [answerCall].
        rewrite Er. cbn [bind exec do_act]. unfold do_wait, answerWait. cbn.
        rewrite Ew.
        eexists [_; _]. cbn. rewrite <- app_assoc.
        split; [reflexivity|]. split; [repeat split|].
        repeat (split; [side|]). split; reflexivity.
      * destruct (retryLoop_failed_attempt r fuel i m w err rr fired wr Er Ew)
          as (w1 & Hex & Htr & _ & _ & Hsh).
        rewrite Hex. destruct fired as [|ce].
        -- eapply retrySummary_after_attempt; eauto.
        -- exists (failedAttempt r i err (WaitCtxDone ce)). cbn [exec worldOf].
           split; [exact Htr|]. split; [exact Hsh|].
           repeat (split; [side|]).
           right. eexists ce, _. split; reflexivity.
    + cbn [retryLoop bind invoke exec]. unfold do_call. cbn [answerCall].
      rewrite Er. cbn [bind exec].
      eexists [_]. cbn. split; [reflexivity|]. split; [repeat split|].
      repeat (split; [side|]).
      exists []. split; reflexivity.
Qed.

(** X1. Whatever the registry answers, a run of [registerWithRetry] makes
    at most [MaxRetries] register calls and no more waits than calls, adds
    nothing but register calls, their log lines and waits to the history,
    leaves the stop channel, the wait group, the gauge, the goroutines and
    the answers kept for other calls alone, and comes to a halt only when
    the registry has not answered yet. *)
Theorem registerWithRetry_call_budget (fuel : nat) (w : World) :
  exists t,
    trace (worldOf (exec fuel (registerWithRetry r) w)) = trace w ++ t
    /\ (count isRegister t <= Z.to_nat (MaxRetries (config r)))%nat
    /\ (List.length (waitsOf t) <= count isRegister t)%nat
    /\ forallb isRetryEvent t = true
    /\ sameShared w (worldOf (exec fuel (registerWithRetry r) w))
    /\ (forall h w', exec fuel (registerWithRetry r) w = Halted h w' -> h = Starved).
Proof.
  destruct (retryLoop_summary fuel (Z.to_nat (MaxRetries (config r))) 0 w)
    as (t & Ht & Hsh & Hc & Hw & Hall & Hres).
  fold (registerWithRetry r) in *. exists t.
  repeat (split; [assumption|]).
  intros h w' Hex. rewrite Hex in Hres. apply Hres.
Qed.

(** X2. What the result of [registerWithRetry] says about its calls: nil
    means the last register call succeeded and it is the only one that
    did; the retries-exhausted error means exactly [MaxRetries] calls were
    made and all failed; the only other error is the aborted-retry error,
    returned right after a wait that the context's cancellation ended, all
    calls before it having failed. *)
Theorem registerWithRetry_result (fuel : nat) (w w' : World) (res : option error) :
  exec fuel (registerWithRetry r) w = Done res w' ->
  exists t,
    trace w' = trace w ++ t
    /\ match res with
       | None =>
           exists t0, t = t0 ++ [EvCall (Register (CallTimeout (config r))
                                                 (instance r)) None]
                      /\ count isRegistered t0 = 0%nat
       | Some e =>
           count isRegistered t = 0%nat
           /\ ((e = errExhausted r
                /\ count isRegister t = Z.to_nat (MaxRetries (config r)))
               \/ (exists ce d, e = errAborted r ce
                                /\ last t EvGo = EvWait d (WaitCtxDone ce)))
       end.
Proof.
  intros Hex.
  destruct (retryLoop_summary fuel (Z.to_nat (MaxRetries (config r))) 0 w)
    as (t & Ht & _ & _ & _ & _ & Hres).
  fold (registerWithRetry r) in *. rewrite Hex in Ht, Hres. cbn in Ht.
  exists t. split; [exact Ht|]. destruct res; exact Hres.
Qed.

(** X3. When the first [k] register calls fail, each wait runs to its end
    and call [k+1] succeeds, with [k < MaxRetries], [registerWithRetry]
    returns nil after exactly [k+1] calls and the [k] waits
    [backoff RetryDelay 0 .. k-1], and makes no call after the success. *)
Theorem registerWithRetry_succeeds_after_failures (fuel : nat) (w : World)
    (errs : list error) (rr : list (option error)) (wr : list waitResult) :
  (List.length errs < Z.to_nat (MaxRetries (config r)))%nat ->
  registerResults (env w) = map Some errs ++ None :: rr ->
  waitResults (env w) = repeat TimerFired (List.length errs) ++ wr ->
  exists w',
    exec fuel (registerWithRetry r) w = Done None w'
    /\ trace w' = trace w ++ failedAttempts r 0 errs
                  ++ [EvCall (Register (CallTimeout (config r)) (instance r)) None]
    /\ count isRegister (failedAttempts r 0 errs
         ++ [EvCall (Register (CallTimeout (config r)) (instance r)) None])
       = S (List.length errs)
    /\ waitsOf (failedAttempts r 0 errs
         ++ [EvCall (Register (CallTimeout (config r)) (instance r)) None])
       = map (fun j => backoff (RetryDelay (config r)) (Z.of_nat j))
             (seq 0 (List.length errs))
    /\ registerResults (env w') = rr
    /\ waitResults (env w') = wr.
Proof.
  intros Hlt Hreg Hwait.
  remember (Z.to_nat (MaxRetries (config r)) - S (List.length errs))%nat as m eqn:Hm.
  destruct (retryLoop_failed_attempts r fuel (S m) errs 0 w (None :: rr) wr Hreg Hwait)
    as (w1 & Hex & Htr & Hreg1 & Hwait1 & _).
  unfold registerWithRetry.
  replace (Z.to_nat (MaxRetries (config r))) with (List.length errs + S m)%nat by lia.
  rewrite Hex. cbn [retryLoop bind invoke exec]. unfold do_call. cbn [answerCall].
  rewrite Hreg1. cbn [bind exec].
  eexists. split; [reflexivity|]. cbn.
  split; [rewrite Htr, <- app_assoc; reflexivity|].
  split; [rewrite count_app, count_isRegister_failedAttempts; cbn; lia|].
  split; [|split; [reflexivity|exact Hwait1]].
  rewrite waitsOf_app, waitsOf_failedAttempts. cbn. rewrite app_nil_r.
  apply map_ext. intros j. reflexivity.
Qed.

Lemma wrap64_mul_wrap64 (d x : Z) : GoInt.wrap64 (d * GoInt.wrap64 x) = GoInt.wrap64 (d * x).
Proof.
  unfold GoInt.wrap64. f_equal.
  rewrite (Z.mod_eq (x + 2 ^ 63) (2 ^ 64)) by lia.
  replace (d * (x + 2 ^ 63 - 2 ^ 64 * ((x + 2 ^ 63) / 2 ^ 64) - 2 ^ 63) + 2 ^ 63)
    with (d * x + 2 ^ 63 + (- (d * ((x + 2 ^ 63) / 2 ^ 64))) * 2 ^ 64) by ring.
  apply Z_mod_plus_full.
Qed.

(** X4. The backoff [RetryDelay * time.Duration(1 << i)] is the product
    [RetryDelay * 2^i] reduced to 64 bits: the shift and the product wrap
    around together.  From [i = 64] on the shift has lost its only bit and
    the wait is zero, whatever the base delay. *)
Theorem backoff_wraps (d : Duration) (i : Z) :
  (0 <= i -> backoff d i = GoInt.wrap64 (d * 2 ^ i))
  /\ (64 <= i -> backoff d i = 0).
Proof.
  assert (Hw : 0 <= i -> backoff d i = GoInt.wrap64 (d * 2 ^ i)).
  { intros Hi. unfold backoff, GoInt.mul64, GoInt.shl64.
    rewrite Z.shiftl_1_l. apply wrap64_mul_wrap64. }
  split; [exact Hw|]. intros Hi. rewrite Hw by lia.
  replace i with (64 + (i - 64)) by lia. rewrite Z.pow_add_r by lia.
  unfold GoInt.wrap64.
  replace (d * (2 ^ 64 * 2 ^ (i - 64)) + 2 ^ 63)
    with (2 ^ 63 + (d * 2 ^ (i - 64)) * 2 ^ 64) by ring.
  rewrite Z_mod_plus_full. reflexivity.
Qed.

End RetryBounds.

Lemma registerWithRetry_result_witness :
  exists t,
    t = [EvCall (Register (5 * Second) sampleInstance) None]
    /\ count isRegistered t = 1%nat.
Proof.
  destruct (registerWithRetry_result (sampleRegistrar 3) 0
              (newWorld {| registerResults := [None]; heartbeatResults := [];
                           deregisterResults := []; closeResults := [];
                           waitResults := []; selectResults := [] |})
              _ None eq_refl)
    as (t & Ht & t0 & Ht0 & Hnone).
  exists t. cbn in Ht. rewrite <- Ht. split; reflexivity.
Defined.

Lemma registerWithRetry_succeeds_after_failures_witness :
  exists w',
    exec 0 (registerWithRetry (sampleRegistrar 3))
      (newWorld {| registerResults := [Some refused; Some refused; None];
                   heartbeatResults := []; deregisterResults := [];
                   closeResults := [];
                   waitResults := [TimerFired; TimerFired];
                   selectResults := [] |})
    = Done None w'
    /\ waitsOf (trace w') = [1 * Second; 2 * Second]
    /\ count isRegister (trace w') = 3%nat.
Proof.
  destruct (registerWithRetry_succeeds_after_failures (sampleRegistrar 3) 0
              (newWorld {| registerResults := [Some refused; Some refused; None];
                           heartbeatResults := []; deregisterResults := [];
                           closeResults := [];
                           waitResults := [TimerFired; TimerFired];
                           selectResults := [] |})
              [refused; refused] [] [])
    as (w' & Hex & Htr & Hcount & Hwaits & _);
    [simpl; lia | reflexivity | reflexivity |].
  exists w'. split; [exact Hex|]. rewrite Htr. simpl trace. rewrite app_nil_l.
  split; [rewrite Hwaits; reflexivity|exact Hcount].
Defined.

Lemma backoff_wraps_witness :
  backoff Second 3 = 8 * Second /\ backoff Second 64 = 0.
Proof.
  split.
  - rewrite (proj1 (backoff_wraps Second 3)) by lia. reflexivity.
  - apply (proj2 (backoff_wraps Second 64)). lia.
Defined.

End retryBounds.

(** ** The heartbeat loop against any registry *)
Module loopBounds.
Import registry registration execFacts retryFacts retryBounds.

Lemma count_zero (f g : event -> bool) (t : list event) :
  (forall ev, g ev = true -> f ev = false) ->
  forallb g t = true -> count f t = 0%nat.
Proof.
  intros Hfg. unfold count. induction t as [|ev t IH]; [reflexivity|].
  cbn. intros Hall. apply andb_true_iff in Hall. destruct Hall as [Hev Ht].
  rewrite (Hfg ev Hev). auto.
Qed.

Lemma forallb_impl (f g : event -> bool) (t : list event) :
  (forall ev, f ev = true -> g ev = true) ->
  forallb f t = true -> forallb g t = true.
Proof.
  intros Hfg. induction t as [|ev t IH]; [reflexivity|].
  cbn. intros Hall. apply andb_true_iff in Hall. destruct Hall as [Hev Ht].
  rewrite (Hfg ev Hev). auto.
Qed.

Lemma isRetryEvent_isLoopEvent (ev : event) :
  isRetryEvent ev = true -> isLoopEvent ev = true.
Proof.
  destruct ev as [[]| | |[[]| | | | | | |]|]; cbn; auto; discriminate.
Qed.

Lemma loopTrace_nil (n : nat) : loopTrace n [].
Proof. unfold loopTrace, count. cbn. repeat split; lia. Qed.

Lemma loopTrace_app (n : nat) (t1 t2 : list event) :
  loopTrace n t1 -> loopTrace n t2 -> loopTrace n (t1 ++ t2).
Proof.
  intros (H1 & H2 & H3) (K1 & K2 & K3). unfold loopTrace.
  rewrite !count_app, forallb_app, H3, K3. repeat split; nia.
Qed.

(** A retry history counts as a loop history once a failed heartbeat
    stands before it. *)
Lemma loopTrace_retry (n : nat) (t : list event) :
  (count isRegister t <= n)%nat -> forallb isRetryEvent t = true ->
  (count isRegister t <= n)%nat
  /\ count isHeartbeat t = 0%nat /\ count isTick t = 0%nat
  /\ count isFailedHeartbeat t = 0%nat
  /\ forallb isLoopEvent t = true.
Proof.
  intros Hc Hall. split; [exact Hc|].
  split; [|split; [|split]].
  - apply (count_zero _ isRetryEvent); [|exact Hall].
    intros [[]| | |[[]| | | | | | |]|]; cbn; auto; discriminate.
  - apply (count_zero _ isRetryEvent); [|exact Hall].
    intros [[]| | |[[]| | | | | | |]|]; cbn; auto; discriminate.
  - apply (count_zero _ isRetryEvent); [|exact Hall].
    intros [[? ? | ? ? | ? ? |] [?|]| | |[[]| | | | | | |]|]; cbn; auto; discriminate.
  - apply (forallb_impl isRetryEvent); [apply isRetryEvent_isLoopEvent|exact Hall].
Qed.

Ltac plain_trace :=
  unfold loopTrace;
  split; [apply Nat.le_0_l|];
  split; [first [apply Nat.le_refl | apply Nat.le_0_l] | reflexivity].

(** A failed heartbeat on a tick, followed by a retry history. *)
Lemma loopTrace_failed_heartbeat (n : nat) (timeout : Duration) (id : string)
    (err : error) (t : list event) :
  (count isRegister t <= n)%nat -> forallb isRetryEvent t = true ->
  loopTrace n ([EvSelect Tick; EvCall (SendHeartbeat timeout id) (Some err);
                EvAct (Log (LogHeartbeatFailed err))] ++ t).
Proof.
  intros Hc Hall.
  destruct (loopTrace_retry n t Hc Hall) as (_ & Hhb & Htick & Hfail & Hloop).
  unfold loopTrace. rewrite !count_app, forallb_app, Hhb, Htick, Hfail, Hloop.
  change (count isRegister [EvSelect Tick; EvCall (SendHeartbeat timeout id) (Some err);
                            EvAct (Log (LogHeartbeatFailed err))]) with 0%nat.
  change (count isFailedHeartbeat [EvSelect Tick;
                                   EvCall (SendHeartbeat timeout id) (Some err);
                                   EvAct (Log (LogHeartbeatFailed err))]) with 1%nat.
  change (count isHeartbeat [EvSelect Tick; EvCall (SendHeartbeat timeout id) (Some err);
                             EvAct (Log (LogHeartbeatFailed err))]) with 1%nat.
  change (count isTick [EvSelect Tick; EvCall (SendHeartbeat timeout id) (Some err);
                        EvAct (Log (LogHeartbeatFailed err))]) with 1%nat.
  split; [lia|]. split; [lia|reflexivity].
Qed.

Lemma loopTrace_report (n : nat) (err : error) (res : option error) :
  loopTrace n (reregistrationReport err res).
Proof. destruct res; plain_trace. Qed.

Section LoopBounds.
Context {C : Type} {api : ClientConnAPI C} (r : Registrar (C := C)).

Local Arguments registerWithRetry : simpl never.

Lemma heartbeatPass_summary (fuel : nat) (w : World) :
  passSummary r w (exec fuel (heartbeatPass r) w).
Proof.
  unfold heartbeatPass. cbn [exec]. unfold do_select, answerSelect.
  destruct (selectResults (env w)) as [|[| |] sr] eqn:Es.
  - exists []. cbn. rewrite app_nil_r. repeat (split; [reflexivity|]).
    split; [apply loopTrace_nil|]. now left.
  - cbn. unfold do_call. cbn.
    destruct (heartbeatResults (env w)) as [|[err|] hr] eqn:Eh; cbn.
    + exists [EvSelect Tick]. cbn. repeat (split; [reflexivity|]).
      split; [plain_trace|now left].
    + match goal with
      | |- context [exec fuel (bind (registerWithRetry r) ?f) ?w1] =>
          set (k := f); set (w1' := w1)
      end.
      destruct (retryLoop_summary r fuel (Z.to_nat (MaxRetries (config r))) 0 w1')
        as (t & Ht & Hsh & Hc & _ & Hall & Hres).
      fold (registerWithRetry r) in *.
      destruct Hsh as (Hstop & Hwg & _ & Hgo & _).
      pose proof (loopTrace_failed_heartbeat _ (CallTimeout (config r))
                    (ID (instance r)) err t Hc Hall) as Hpre.
      assert (Htr : trace (worldOf (exec fuel (registerWithRetry r) w1'))
                    = trace w ++
                      [EvSelect Tick;
                       EvCall (SendHeartbeat (CallTimeout (config r))
                                             (ID (instance r))) (Some err);
                       EvAct (Log (LogHeartbeatFailed err))] ++ t).
      { rewrite Ht. subst w1'. cbn. now rewrite <- !app_assoc. }
      rewrite exec_bind.
      destruct (exec fuel (registerWithRetry r) w1') as [res w2|h w2];
        cbn [worldOf] in *.
      * subst k. cbv beta.
        exists (([EvSelect Tick;
                  EvCall (SendHeartbeat (CallTimeout (config r)) (ID (instance r)))
                         (Some err);
                  EvAct (Log (LogHeartbeatFailed err))] ++ t)
                ++ reregistrationReport err res).
        split; [|split; [|split; [|split; [|split]]]].
        -- destruct res; cbn [bind do exec do_act worldOf emit withGauge trace];
             rewrite Htr, <- !app_assoc; reflexivity.
        -- destruct res; cbn; exact Hstop.
        -- destruct res; cbn; exact Hwg.
        -- destruct res; cbn; exact Hgo.
        -- apply loopTrace_app; [exact Hpre|apply loopTrace_report].
        -- destruct res; exact I.
      * destruct Hres as (-> & _).
        exists ([EvSelect Tick;
                 EvCall (SendHeartbeat (CallTimeout (config r)) (ID (instance r)))
                        (Some err);
                 EvAct (Log (LogHeartbeatFailed err))] ++ t).
        split; [exact Htr|].
        split; [exact Hstop|]. split; [exact Hwg|]. split; [exact Hgo|].
        split; [exact Hpre|now left].
    + eexists [_; _; _; _]. cbn. rewrite <- !app_assoc.
      repeat (split; [reflexivity|]).
      split; [plain_trace|exact I].
  - destruct (stopHeartbeat w) eqn:Est; cbn.
    + exists []. cbn. rewrite app_nil_r. repeat (split; [reflexivity|]).
      split; [apply loopTrace_nil|]. now right.
    + eexists [_; _]. cbn. rewrite <- !app_assoc.
      repeat (split; [reflexivity|]).
      split; [plain_trace|]. split; [exact Est|reflexivity].
  - cbn. eexists [_; _]. cbn. rewrite <- !app_assoc.
    repeat (split; [reflexivity|]).
    split; [plain_trace|exact I].
Qed.

Lemma passes_summary (fuel : nat) (n : nat) : forall w,
  loopSummary r w
    (passes (exec fuel (heartbeatPass r))
            (exec fuel (Act TickerStop (Act WgDone (Ret tt)))) n w).
Proof.
  induction n as [|n IH]; intros w; cbn [passes].
  - exists []. cbn. rewrite app_nil_r. repeat (split; [reflexivity|]).
    split; [apply loopTrace_nil|reflexivity].
  - destruct (heartbeatPass_summary fuel w)
      as (t & Ht & Hstop & Hwg & Hgo & Hlt & Hres).
    destruct (exec fuel (heartbeatPass r) w) as [[|] w1|h w1]; cbn [worldOf] in *.
    + destruct (IH w1) as (t' & Ht' & Hstop' & Hgo' & Hlt' & Hres').
      exists (t ++ t').
      split; [rewrite Ht', Ht, app_assoc; reflexivity|].
      split; [congruence|]. split; [congruence|].
      split; [apply loopTrace_app; assumption|].
      destruct (passes _ _ n w1) as [[] w2|h w2]; cbn [worldOf] in *.
      * destruct Hres' as (Hc & Hw & t0 & ->).
        split; [congruence|]. split; [lia|].
        exists (t ++ t0). now rewrite app_assoc.
      * lia.
    + destruct Hres as (Hclosed & ->). cbn.
      destruct (wg w1 - 1 <? 0) eqn:Ewg.
      * exists [EvSelect StopHeartbeat; EvAct (Log LogLoopStopped); EvAct TickerStop].
        cbn.
        split; [rewrite Ht, <- app_assoc; reflexivity|].
        split; [exact Hstop|]. split; [exact Hgo|].
        split; [plain_trace|exact Hwg].
      * exists [EvSelect StopHeartbeat; EvAct (Log LogLoopStopped); EvAct TickerStop;
                EvAct WgDone].
        cbn.
        split; [rewrite Ht, <- !app_assoc; reflexivity|].
        split; [exact Hstop|]. split; [exact Hgo|].
        split; [plain_trace|].
        split; [exact Hclosed|]. split; [lia|]. exists []. reflexivity.
    + exists t. repeat (split; [assumption|]). exact Hwg.
Qed.

Lemma exec_runHeartbeatLoop (fuel : nat) (w : World) :
  exec fuel (runHeartbeatLoop r) w =
  if HeartbeatInterval (config r) <=? 0 then Halted Panicked w
  else passes (exec fuel (heartbeatPass r))
              (exec fuel (Act TickerStop (Act WgDone (Ret tt)))) fuel
              (emit (EvAct (NewTicker (HeartbeatInterval (config r)))) w).
Proof.
  unfold runHeartbeatLoop. cbn [bind do exec do_act].
  destruct (HeartbeatInterval (config r) <=? 0); reflexivity.
Qed.

Lemma runHeartbeatLoop_summary (fuel : nat) (w : World) :
  loopSummary r w (exec fuel (runHeartbeatLoop r) w).
Proof.
  rewrite exec_runHeartbeatLoop.
  destruct (HeartbeatInterval (config r) <=? 0).
  - exists []. cbn. rewrite app_nil_r. repeat (split; [reflexivity|]).
    split; [apply loopTrace_nil|reflexivity].
  - set (w1 := emit (EvAct (NewTicker (HeartbeatInterval (config r)))) w).
    destruct (passes_summary fuel fuel w1) as (t & Ht & Hstop & Hgo & Hlt & Hres).
    exists ([EvAct (NewTicker (HeartbeatInterval (config r)))] ++ t).
    split; [rewrite Ht; subst w1; cbn; now rewrite <- app_assoc|].
    split; [exact Hstop|]. split; [exact Hgo|].
    split; [apply loopTrace_app; [plain_trace|exact Hlt]|].
    destruct (passes _ _ fuel w1) as [[] w2|h w2]; cbn [worldOf] in *.
    + destruct Hres as (Hc & Hw & t0 & ->).
      split; [exact Hc|]. split; [exact Hw|].
      exists ([EvAct (NewTicker (HeartbeatInterval (config r)))] ++ t0).
      now rewrite <- app_assoc.
    + exact Hres.
Qed.

(** X5. Whatever the registry answers and however long the loop runs, the
    history of [runHeartbeatLoop] holds at most [MaxRetries] register calls
    per failed heartbeat and at most one heartbeat per tick, and nothing
    but the loop's own events: it never deregisters, never closes the
    transport, never touches the stop channel and never starts a
    goroutine. *)
Theorem runHeartbeatLoop_call_budget (fuel : nat) (w : World) :
  exists t,
    trace (worldOf (exec fuel (runHeartbeatLoop r) w)) = trace w ++ t
    /\ (count isRegister t
        <= Z.to_nat (MaxRetries (config r)) * count isFailedHeartbeat t)%nat
    /\ (count isHeartbeat t <= count isTick t)%nat
    /\ forallb isLoopEvent t = true
    /\ count isDeregister t = 0%nat
    /\ count isClose t = 0%nat
    /\ stopHeartbeat (worldOf (exec fuel (runHeartbeatLoop r) w)) = stopHeartbeat w
    /\ goroutines (worldOf (exec fuel (runHeartbeatLoop r) w)) = goroutines w.
Proof.
  destruct (runHeartbeatLoop_summary fuel w)
    as (t & Ht & Hstop & Hgo & (Hreg & Hhb & Hall) & _).
  exists t. repeat (split; [assumption|]).
  split; [|split; [|split; assumption]].
  - apply (count_zero _ isLoopEvent); [|exact Hall].
    intros [[]| | |[[]| | | | | | |]|]; cbn; auto; discriminate.
  - apply (count_zero _ isLoopEvent); [|exact Hall].
    intros [[]| | |[[]| | | | | | |]|]; cbn; auto; discriminate.
Qed.

(** X6. [runHeartbeatLoop] returns only through the case on the stop
    channel: if it returns, the channel is closed, the history ends with
    that [select], the loop's last log line and the two deferred calls in
    the order [ticker.Stop()], [r.wg.Done()], and the wait group counts
    one less.  No failed heartbeat, no failed re-registration and no
    cancellation of the context makes it return. *)
Theorem runHeartbeatLoop_returns_only_on_stop (fuel : nat) (w w' : World) :
  exec fuel (runHeartbeatLoop r) w = Done tt w' ->
  stopHeartbeat w = Closed
  /\ wg w' = wg w - 1
  /\ exists t0,
       trace w' = trace w ++ t0
                  ++ [EvSelect StopHeartbeat; EvAct (Log LogLoopStopped);
                      EvAct TickerStop; EvAct WgDone].
Proof.
  intros Hex. destruct (runHeartbeatLoop_summary fuel w) as (t & Ht & _ & _ & _ & Hres).
  rewrite Hex in Ht, Hres. cbn [worldOf] in Ht.
  destruct Hres as (Hc & Hw & t0 & ->).
  split; [exact Hc|]. split; [exact Hw|]. exists t0. exact Ht.
Qed.

End LoopBounds.

Lemma runHeartbeatLoop_returns_only_on_stop_witness :
  exists w',
    exec 2 (runHeartbeatLoop (sampleRegistrar 3))
      (withStop Closed
         (withWg 1 (newWorld {| registerResults := [];
                                heartbeatResults := [None];
                                deregisterResults := []; closeResults := [];
                                waitResults := [];
                                selectResults := [Tick; StopHeartbeat] |})))
    = Done tt w'
    /\ wg w' = 0.
Proof.
  pose (w0 := withStop Closed
         (withWg 1 (newWorld {| registerResults := [];
                                heartbeatResults := [None];
                                deregisterResults := []; closeResults := [];
                                waitResults := [];
                                selectResults := [Tick; StopHeartbeat] |}))).
  assert (Hex : {w1 | exec 2 (runHeartbeatLoop (sampleRegistrar 3)) w0 = Done tt w1})
    by (eexists; vm_compute; reflexivity).
  destruct Hex as [w1 Hex].
  destruct (runHeartbeatLoop_returns_only_on_stop (sampleRegistrar 3) 2 w0 w1 Hex)
    as (_ & Hwg & _).
  exists w1. split; [exact Hex|exact Hwg].
Defined.

End loopBounds.

(** ** Start and Stop in sequence *)
Module lifecycleFacts.
Import registry registration execFacts retryFacts retryBounds loopBounds stopFacts.

Lemma count_sandwich (f : event -> bool) (pre t post : list event) :
  count f pre = 0%nat -> count f post = 0%nat ->
  count f (pre ++ t ++ post) = count f t.
Proof. intros Hpre Hpost. rewrite !count_app, Hpre, Hpost. lia. Qed.

Lemma count_retry_none (t : list event) :
  forallb isRetryEvent t = true ->
  count isHeartbeat t = 0%nat /\ count isDeregister t = 0%nat
  /\ count isClose t = 0%nat.
Proof.
  intros Hall. repeat split; apply (count_zero _ isRetryEvent); try exact Hall;
    intros [[]| | |[[]| | | | | | |]|]; cbn; auto; discriminate.
Qed.

Section LifecycleFacts.
Context {C : Type} {api : ClientConnAPI C} (r : Registrar (C := C)).

Local Arguments registerWithRetry : simpl never.

(** X7. When [Start] returns, the gauge reads 1 if a register call of this
    [Start] succeeded and 0 if none did; [Start] made at most [MaxRetries]
    register calls and no heartbeat, deregister or close call; and it
    started the heartbeat loop as the one new goroutine, counted in the
    wait group. *)
Theorem Start_reports_registration (fuel : nat) (w w' : World) :
  exec fuel (Start r) w = Done tt w' ->
  exists t,
    trace w' = trace w ++ t
    /\ ((gauge w' = Some 1 /\ count isRegistered t = 1%nat)
        \/ (gauge w' = Some 0 /\ count isRegistered t = 0%nat))
    /\ (count isRegister t <= Z.to_nat (MaxRetries (config r)))%nat
    /\ count isHeartbeat t = 0%nat
    /\ count isDeregister t = 0%nat
    /\ count isClose t = 0%nat
    /\ goroutines w' = goroutines w ++ [runHeartbeatLoop r]
    /\ wg w' = wg w + 1.
Proof.
  unfold Start. cbn [bind do exec do_act].
  set (w0 := emit (EvAct (Log LogInitialAttempt)) w).
  destruct (retryLoop_summary r fuel (Z.to_nat (MaxRetries (config r))) 0 w0)
    as (t & Ht & Hsh & Hc & _ & Hall & Hres).
  fold (registerWithRetry r) in *.
  destruct (count_retry_none t Hall) as (Hhb & Hde & Hcl).
  destruct Hsh as (_ & Hwg & _ & Hgo & _).
  rewrite exec_bind.
  destruct (exec fuel (registerWithRetry r) w0) as [res w1|h w1];
    [|discriminate]. cbn [worldOf] in *.
  assert (Htr : trace w1 = trace w ++ [EvAct (Log LogInitialAttempt)] ++ t).
  { rewrite Ht. subst w0. cbn. now rewrite <- app_assoc. }
  destruct res as [e|]; cbn;
    (destruct (wg w1 + 1 <? 0); [discriminate|]);
    intros Hdone; inversion Hdone; subst w'; clear Hdone; cbn;
    rewrite Hgo, Hwg.
  - exists ([EvAct (Log LogInitialAttempt)] ++ t
            ++ [EvAct (Log (LogInitialFailed e)); EvAct (SetGauge 0);
                EvAct (WgAdd 1); EvGo]).
    split; [rewrite Htr, <- !app_assoc; reflexivity|].
    rewrite !count_sandwich by reflexivity.
    destruct Hres as (Hnone & _).
    split; [right; split; [reflexivity|exact Hnone]|].
    repeat (split; [assumption|]). split; reflexivity.
  - exists ([EvAct (Log LogInitialAttempt)] ++ t
            ++ [EvAct (Log LogInitialRegistered); EvAct (SetGauge 1);
                EvAct (WgAdd 1); EvGo]).
    split; [rewrite Htr, <- !app_assoc; reflexivity|].
    rewrite !count_sandwich by reflexivity.
    destruct Hres as (t0 & -> & Hnone).
    split; [left; split; [reflexivity|rewrite count_app, Hnone; reflexivity]|].
    repeat (split; [assumption|]). split; reflexivity.
Qed.

(** X8. [Stop] on a Registrar whose loop is not running (wait group at
    zero, stop channel open) runs to its end whatever the deregister call
    and the close return, leaving the channel closed and the gauge at 0.
    A second [Stop] then panics at [close(r.stopHeartbeat)], after its
    first log line and before any registry call: the answers kept for
    [Deregister] and [Close] are untouched. *)
Theorem Stop_twice_panics (fuel : nat) (w : World) (derr cerr : option error)
    (ds cs : list (option error)) :
  stopHeartbeat w = Open ->
  wg w = 0 ->
  deregisterResults (env w) = derr :: ds ->
  closeResults (env w) = cerr :: cs ->
  exists w1 w2,
    exec fuel (Stop r) w = Done tt w1
    /\ shutdownEvents (skipn (List.length (trace w)) (trace w1))
       = shutdownHistory r derr cerr
    /\ stopHeartbeat w1 = Closed
    /\ gauge w1 = Some 0
    /\ exec fuel (Stop r) w1 = Halted Panicked w2
    /\ trace w2 = trace w1 ++ [EvAct (Log LogShutdown)]
    /\ deregisterResults (env w2) = ds
    /\ closeResults (env w2) = cs.
Proof.
  intros Hopen Hwg Hd Hc. unfold Stop. cbn [bind do invoke exec do_act].
  cbn. rewrite Hopen. cbn. rewrite Hwg. cbn. unfold do_call. cbn.
  rewrite Hd. cbn.
  destruct derr as [de|]; cbn; unfold do_call; cbn; rewrite Hc; cbn;
    destruct cerr as [ce|]; cbn;
    eexists _, _; (split; [reflexivity|]); cbn;
    (split; [rewrite <- !app_assoc, skipn_app, skipn_all, Nat.sub_diag;
             reflexivity|]);
    repeat split; reflexivity.
Qed.

Lemma Before_bind {A : Type} (final : Prog unit) (p : Prog A) (f : A -> Prog unit) :
  Quiet p -> (forall a, Before final (f a)) -> Before final (bind p f).
Proof. induction 1; intros Hf; cbn; try constructor; auto. Qed.

Lemma Before_bind_bind {A B : Type} (final : Prog unit) (p : Prog A)
    (g : A -> Prog B) (f : B -> Prog unit) :
  Quiet p -> (forall a, Before final (bind (g a) f)) ->
  Before final (bind (bind p g) f).
Proof. induction 1; intros Hf; cbn; try constructor; auto. Qed.

Lemma Before_Start :
  Before (Act (WgAdd 1) (Go (runHeartbeatLoop r) (Stop r)))
         (bind (Start r) (fun _ => Stop r)).
Proof.
  unfold Start. cbn [bind do]. constructor; [reflexivity|].
  apply Before_bind_bind; [apply Quiet_retryLoop|].
  intros [e|]; cbn; repeat (constructor; [reflexivity|]); constructor.
Qed.

(** A step of the foreground path inside [Start], before [r.wg.Add(1)]. *)
Lemma Before_step (final p p' : Prog unit) (w w' : World) :
  Before final p -> step1 p w = Some (p', w') ->
  p = final
  \/ (Before final p' /\ loopFrame w w' /\ wg w' = wg w).
Proof.
  intros Hb Hstep. destruct Hb as [|c k Hc Hk|d k Hk|k Hk|a k Ha Hk]; [now left|..];
    right; cbn in Hstep.
  - unfold do_call in Hstep.
    destruct (answerCall c (env w)) as [[res e']|] eqn:Ea; [|discriminate].
    inversion Hstep; subst. split; [apply Hk|].
    destruct c; try discriminate Hc; cbn in Ea;
      [destruct (registerResults (env w))|destruct (heartbeatResults (env w))];
      try discriminate Ea; inversion Ea; subst;
      (split; [apply loopFrame_emit; reflexivity|reflexivity]).
  - unfold do_wait, answerWait in Hstep.
    destruct (waitResults (env w)); [discriminate|].
    inversion Hstep; subst. split; [apply Hk|].
    split; [apply loopFrame_emit; reflexivity|reflexivity].
  - unfold do_select, answerSelect in Hstep.
    destruct (selectResults (env w)) as [|[| |] sr]; [discriminate| | |].
    + inversion Hstep; subst. split; [apply Hk|].
      split; [apply loopFrame_emit; reflexivity|reflexivity].
    + destruct (stopHeartbeat w); [discriminate|].
      inversion Hstep; subst. split; [apply Hk|].
      split; [apply loopFrame_emit; reflexivity|reflexivity].
    + inversion Hstep; subst. split; [apply Hk|].
      split; [apply loopFrame_emit; reflexivity|reflexivity].
  - destruct a as [m|v| | | | |d|]; try discriminate Ha; cbn in Hstep.
    + inversion Hstep; subst. split; [exact Hk|].
      split; [|reflexivity]. apply loopFrame_emit; try reflexivity.
      cbn in *. now destruct (stopLog m).
    + inversion Hstep; subst. split; [exact Hk|].
      split; [apply loopFrame_emit; reflexivity|reflexivity].
    + destruct (d <=? 0); [discriminate|].
      inversion Hstep; subst. split; [exact Hk|].
      split; [apply loopFrame_emit; reflexivity|reflexivity].
    + inversion Hstep; subst. split; [exact Hk|].
      split; [apply loopFrame_emit; reflexivity|reflexivity].
Qed.

Lemma lifeInv_step (w : World) (th : thread) (s s' : System) :
  lifeInv r w s -> sys_step th s = Some s' -> lifeInv r w s'.
Proof.
  intros [(Hgo & Hwg & Hopen & Hb & t & Ht & Hsd)
         |[(Hgo & Hwg & Hopen & Hmain & t & Ht & Hsd)
          |(w0 & t0 & pt & t & Ht0 & Hsd0 & Hinv)]] Hstep.
  - destruct s as [p st]. cbn in *. destruct th as [|i]; cbn in Hstep.
    + destruct (step1 p st) as [[p' st']|] eqn:E; [|discriminate].
      inversion Hstep; subst s'.
      destruct (Before_step _ p p' st st' Hb E)
        as [->|(Hb' & ((evs & Htr' & Hev) & Hstop' & Hgo' & _ & _) & Hwg')].
      * cbn in E. rewrite Hwg in E. cbn in E. inversion E; subst.
        right; left. cbn. repeat (split; [assumption || reflexivity|]).
        exists (t ++ [EvAct (WgAdd 1)]).
        split; [rewrite Ht, <- app_assoc; reflexivity|].
        rewrite shutdownEvents_app, Hsd. reflexivity.
      * left. cbn. split; [congruence|]. split; [congruence|].
        split; [congruence|]. split; [exact Hb'|].
        exists (t ++ evs). split; [rewrite Htr', Ht, app_assoc; reflexivity|].
        rewrite shutdownEvents_app, Hsd, Hev. reflexivity.
    + rewrite Hgo in Hstep. destruct i; discriminate Hstep.
  - destruct s as [p st]. cbn in *. subst p. destruct th as [|i]; cbn in Hstep.
    + inversion Hstep; subst s'.
      right; right.
      exists (do_go (runHeartbeatLoop r) st), (t ++ [EvGo]), AtShutdownLog, [].
      split; [cbn; rewrite Ht, <- app_assoc; reflexivity|].
      split; [rewrite shutdownEvents_app, Hsd; reflexivity|].
      apply stopInv_init; [exact Hopen|].
      right. cbn. rewrite Hgo. split; [reflexivity|exact Hwg].
    + rewrite Hgo in Hstep. destruct i; discriminate Hstep.
  - destruct (stopInv_step r w0 th s s' pt t Hinv Hstep) as (pt' & t' & Hinv').
    right; right. exists w0, t0, pt', t'.
    split; [exact Ht0|]. split; [exact Hsd0|exact Hinv'].
Qed.

Lemma lifeInv_run (w : World) (schedule : list thread) : forall s s',
  lifeInv r w s -> run schedule s = Some s' -> lifeInv r w s'.
Proof.
  induction schedule as [|th rest IH]; intros s s' Hinv Hrun; cbn in Hrun.
  - inversion Hrun; subst. exact Hinv.
  - destruct (sys_step th s) as [s1|] eqn:E; [|discriminate].
    eapply IH; [eapply lifeInv_step; eauto|exact Hrun].
Qed.

Lemma no_shutdown_events (t : list event) (ev : event) :
  shutdownEvents t = [] -> In ev t -> isShutdownEvent ev = false.
Proof.
  intros Hsd Hin. destruct (isShutdownEvent ev) eqn:E; [|reflexivity].
  assert (Hin' : In ev (shutdownEvents t)) by (apply filter_In; auto).
  rewrite Hsd in Hin'. contradiction.
Qed.

Lemma count_no_shutdown (f : event -> bool) (t : list event) :
  (forall ev, f ev = true -> isShutdownEvent ev = true) ->
  shutdownEvents t = [] -> count f t = 0%nat.
Proof.
  intros Hsub Hsd. rewrite (count_shutdownEvents f t Hsub), Hsd. reflexivity.
Qed.

(** X9. A whole lifecycle: the foreground path runs [Start] and then
    [Stop] on a fresh Registrar, next to whatever goroutine it starts,
    interleaved in any order.  In every state reached, the return of
    [r.wg.Wait()], the deregister call and the close of the transport are
    in the history only when every goroutine has returned; at most one
    deregister call and one close were made, exactly one of each once the
    foreground path has returned; and at most one goroutine was started. *)
Theorem lifecycle_deregisters_after_loop_exit (w : World)
    (schedule : list thread) (s : System) :
  stopHeartbeat w = Open -> goroutines w = [] -> wg w = 0 ->
  run schedule {| main := bind (Start r) (fun _ => Stop r); store := w |} = Some s ->
  exists t,
    trace (store s) = trace w ++ t
    /\ (forall ev, In ev t ->
          isDeregister ev = true \/ isClose ev = true \/ ev = EvAct WgWait ->
          loopExited (store s) = true)
    /\ (count isDeregister t <= 1)%nat
    /\ (count isClose t <= 1)%nat
    /\ (main s = Ret tt ->
        count isDeregister t = 1%nat /\ count isClose t = 1%nat)
    /\ (List.length (goroutines (store s)) <= 1)%nat.
Proof.
  intros Hopen Hgo Hwg Hrun.
  assert (Hinit : lifeInv r w {| main := bind (Start r) (fun _ => Stop r);
                                 store := w |}).
  { left. cbn. repeat (split; [assumption|]). split; [apply Before_Start|].
    exists []. split; [now rewrite app_nil_r|reflexivity]. }
  destruct (lifeInv_run w schedule _ s Hinit Hrun)
    as [(Hg & _ & _ & Hb & t & Ht & Hsd)
       |[(Hg & _ & _ & Hmain & t & Ht & Hsd)
        |(w0 & t0 & pt & t & Ht0 & Hsd0 & Hinv)]].
  - exists t. split; [exact Ht|]. split.
    { intros ev Hin Hev. pose proof (no_shutdown_events t ev Hsd Hin) as Hno.
      destruct Hev as [H|[H| ->]];
        [apply isDeregister_shutdown in H|apply isClose_shutdown in H|cbn in Hno];
        congruence. }
    rewrite (count_no_shutdown isDeregister t isDeregister_shutdown Hsd).
    rewrite (count_no_shutdown isClose t isClose_shutdown Hsd).
    split; [lia|]. split; [lia|]. split; [|rewrite Hg; cbn; lia].
    intros Hret. exfalso. rewrite Hret in Hb. inversion Hb.
  - exists t. split; [exact Ht|]. split.
    { intros ev Hin Hev. pose proof (no_shutdown_events t ev Hsd Hin) as Hno.
      destruct Hev as [H|[H| ->]];
        [apply isDeregister_shutdown in H|apply isClose_shutdown in H|cbn in Hno];
        congruence. }
    rewrite (count_no_shutdown isDeregister t isDeregister_shutdown Hsd).
    rewrite (count_no_shutdown isClose t isClose_shutdown Hsd).
    split; [lia|]. split; [lia|]. split; [|rewrite Hg; cbn; lia].
    intros Hret. rewrite Hret in Hmain. discriminate.
  - exists (t0 ++ t).
    destruct (stopInv_counts r w0 s pt t Hinv) as (Hd & Hc & Hone).
    pose proof Hinv as (_ & Htr & _ & _ & Hgi & _).
    split; [rewrite Htr, Ht0, app_assoc; reflexivity|]. split.
    { intros ev Hin Hev. apply in_app_or in Hin. destruct Hin as [Hin|Hin].
      - pose proof (no_shutdown_events t0 ev Hsd0 Hin) as Hno.
        destruct Hev as [H|[H| ->]];
          [apply isDeregister_shutdown in H|apply isClose_shutdown in H|cbn in Hno];
          congruence.
      - eapply stopInv_guarded; eauto. }
    rewrite !count_app.
    rewrite (count_no_shutdown isDeregister t0 isDeregister_shutdown Hsd0).
    rewrite (count_no_shutdown isClose t0 isClose_shutdown Hsd0). cbn [Nat.add].
    split; [exact Hd|]. split; [exact Hc|]. split.
    + intros Hret. apply Hone. eapply stopInv_end; eauto.
    + destruct Hgi as [[-> _]|(g & -> & _)]; cbn; lia.
Qed.

End LifecycleFacts.

Lemma Start_reports_registration_witness :
  exists w',
    exec 0 (Start (sampleRegistrar 3))
      (newWorld {| registerResults := [Some refused; None];
                   heartbeatResults := []; deregisterResults := [];
                   closeResults := []; waitResults := [TimerFired];
                   selectResults := [] |})
    = Done tt w'
    /\ wg w' = 1.
Proof.
  assert (Hex : {w' | exec 0 (Start (sampleRegistrar 3))
      (newWorld {| registerResults := [Some refused; None];
                   heartbeatResults := []; deregisterResults := [];
                   closeResults := []; waitResults := [TimerFired];
                   selectResults := [] |}) = Done tt w'})
    by (eexists; vm_compute; reflexivity).
  destruct Hex as [w' Hex].
  destruct (Start_reports_registration (sampleRegistrar 3) 0 _ w' Hex)
    as (t & _ & _ & _ & _ & _ & _ & _ & Hwg).
  exists w'. split; [exact Hex|exact Hwg].
Defined.

Lemma Stop_twice_panics_witness :
  exists w1 w2,
    exec 0 (Stop (sampleRegistrar 3))
      (newWorld {| registerResults := []; heartbeatResults := [];
                   deregisterResults := [Some refused]; closeResults := [None];
                   waitResults := []; selectResults := [] |})
    = Done tt w1
    /\ exec 0 (Stop (sampleRegistrar 3)) w1 = Halted Panicked w2.
Proof.
  destruct (Stop_twice_panics (sampleRegistrar 3) 0
              (newWorld {| registerResults := []; heartbeatResults := [];
                           deregisterResults := [Some refused];
                           closeResults := [None];
                           waitResults := []; selectResults := [] |})
              (Some refused) None [] [] eq_refl eq_refl eq_refl eq_refl)
    as (w1 & w2 & Hex1 & _ & _ & _ & Hex2 & _).
  exists w1, w2. split; [exact Hex1|exact Hex2].
Defined.

Lemma lifecycle_deregisters_after_loop_exit_witness :
  exists s,
    run lifecycleSchedule
      {| main := bind (Start (sampleRegistrar 3))
                      (fun _ => Stop (sampleRegistrar 3));
         store := servedWorld |} = Some s
    /\ main s = Ret tt
    /\ loopExited (store s) = true
    /\ count isDeregister (trace (store s)) = 1%nat
    /\ count isClose (trace (store s)) = 1%nat
    /\ (List.length (goroutines (store s)) <= 1)%nat.
Proof.
  destruct (run lifecycleSchedule
              {| main := bind (Start (sampleRegistrar 3))
                              (fun _ => Stop (sampleRegistrar 3));
                 store := servedWorld |}) as [s|] eqn:E;
    [|vm_compute in E; discriminate E].
  pose proof E as Hs. vm_compute in Hs. injection Hs as Hs.
  assert (Hmain : main s = Ret tt) by (rewrite <- Hs; reflexivity).
  assert (Hwait : In (EvAct WgWait) (trace (store s))).
  { rewrite <- Hs. cbn. do 17 right. left. reflexivity. }
  destruct (lifecycle_deregisters_after_loop_exit (sampleRegistrar 3)
              servedWorld lifecycleSchedule s eq_refl eq_refl eq_refl E)
    as (t & Ht & Hguard & _ & _ & Hret & Hlen).
  cbn in Ht. subst t. destruct (Hret Hmain) as [Hd Hc].
  exists s. split; [reflexivity|]. split; [exact Hmain|].
  split; [apply (Hguard (EvAct WgWait) Hwait); right; right; reflexivity|].
  split; [exact Hd|]. split; [exact Hc|exact Hlen].
Defined.

End lifecycleFacts.

(** ** Construction, read backwards *)
Module constructionInversion.
Import registry registration.

Section Inversion.
Context {C : Type} {api : ClientConnAPI C}.

(** X10. Every Registrar that [NewRegistrar] returns was built from a
    present configuration that passed every check: the address is not
    empty, the two intervals are positive, the two retry settings are not
    negative, the type is "http" or "grpc"; the Registrar holds that
    instance and that configuration, and its client is the transport of
    that type on that address, a gRPC client with a non-nil connection. *)
Theorem NewRegistrar_ok_inv (inst : ServiceInstance) (cfg : option Config)
    (r : Registrar (C := C)) :
  NewRegistrar inst cfg = inl r ->
  exists c,
    cfg = Some c
    /\ RegistryURL c <> ""
    /\ 0 < HeartbeatInterval c /\ 0 < CallTimeout c
    /\ 0 <= MaxRetries c /\ 0 <= RetryDelay c
    /\ instance r = inst /\ config r = c
    /\ ((RegistryType c = "http"
         /\ client r = NewHTTPClient (RegistryURL c) (CallTimeout c))
        \/ (RegistryType c = "grpc"
            /\ exists cc, grpc_NewClient (RegistryURL c) = inl cc
                          /\ client r = GRPC {| registryAddress := RegistryURL c;
                                                conn := Some cc |})).
Proof.
  unfold NewRegistrar. destruct cfg as [c|]; [|discriminate].
  destruct (String.eqb_spec (RegistryURL c) ""); [discriminate|].
  destruct (Z.leb_spec (HeartbeatInterval c) 0); [discriminate|].
  destruct (Z.leb_spec (CallTimeout c) 0); [discriminate|].
  destruct (Z.ltb_spec (MaxRetries c) 0); [discriminate|].
  destruct (Z.ltb_spec (RetryDelay c) 0); [discriminate|].
  intros Hok. exists c. repeat (split; [assumption || reflexivity|]).
  destruct (String.eqb_spec (RegistryType c) "http") as [Hh|_].
  - inversion Hok; subst r. cbn. repeat (split; [reflexivity|]). now left.
  - destruct (String.eqb_spec (RegistryType c) "grpc") as [Hg|_]; [|discriminate].
    unfold NewGRPCClient in Hok.
    destruct (grpc_NewClient (RegistryURL c)) as [cc|e] eqn:Ed; [|discriminate].
    inversion Hok; subst r. cbn. repeat (split; [reflexivity|]).
    right. split; [exact Hg|]. exists cc. split; reflexivity.
Qed.

(** X11. When the configuration passes the checks, names the "grpc"
    transport, and [grpc.NewClient] refuses the address, [NewRegistrar]
    returns no Registrar; its error wraps the client's error, which wraps
    the library's: [errors.Is] finds the cause two levels down. *)
Theorem NewRegistrar_grpc_dial_failure (inst : ServiceInstance) (c : Config)
    (cause : error) :
  RegistryURL c <> "" ->
  0 < HeartbeatInterval c -> 0 < CallTimeout c ->
  0 <= MaxRetries c -> 0 <= RetryDelay c ->
  RegistryType c = "grpc" ->
  grpc_NewClient (RegistryURL c) = inr cause ->
  NewRegistrar inst (Some c)
    = inr (Wrapf MsgGrpcClient (Wrapf (MsgGrpcDial (RegistryURL c)) cause))
  /\ errors_Is (Wrapf MsgGrpcClient (Wrapf (MsgGrpcDial (RegistryURL c)) cause))
               cause = true.
Proof.
  intros Hu Hh Hc Hm Hd Hk Hdial. split.
  - unfold NewRegistrar.
    destruct (String.eqb_spec (RegistryURL c) ""); [contradiction|].
    destruct (Z.leb_spec (HeartbeatInterval c) 0); [lia|].
    destruct (Z.leb_spec (CallTimeout c) 0); [lia|].
    destruct (Z.ltb_spec (MaxRetries c) 0); [lia|].
    destruct (Z.ltb_spec (RetryDelay c) 0); [lia|].
    rewrite Hk. cbn. unfold NewGRPCClient. rewrite Hdial. reflexivity.
  - apply retryFacts.errors_Is_cause, retryFacts.errors_Is_cause,
      retryFacts.errors_Is_refl.
Qed.

End Inversion.

Lemma NewRegistrar_ok_inv_witness :
  exists c, Some (sampleConfig "grpc" 5) = Some c /\ RegistryURL c <> "".
Proof.
  destruct (NewRegistrar_ok_inv (api := GrpcGo.api) sampleInstance
              (Some (sampleConfig "grpc" 5))
              {| instance := sampleInstance;
                 client := GRPC {| registryAddress := "http://registry:8500";
                                   conn := Some {| GrpcGo.target := "http://registry:8500";
                                                   GrpcGo.state := connectivity.Idle |} |};
                 config := sampleConfig "grpc" 5 |}
              ltac:(vm_compute; reflexivity))
    as (c & Hc & Hu & _).
  exists c. split; [exact Hc|exact Hu].
Defined.

Lemma NewRegistrar_grpc_dial_failure_witness :
  NewRegistrar (H := refusingAPI) sampleInstance (Some (sampleConfig "grpc" 5))
  = inr (Wrapf MsgGrpcClient (Wrapf (MsgGrpcDial "http://registry:8500") refused)).
Proof.
  refine (proj1 (NewRegistrar_grpc_dial_failure (api := refusingAPI) sampleInstance
                   (sampleConfig "grpc" 5) refused _ _ _ _ _ _ _));
    cbn; unfold Second; try reflexivity; try lia; discriminate.
Defined.

End constructionInversion.

(** ** The registry calls over HTTP *)
Module httpFacts.
Import registry registryCalls.

Section HTTPFacts.
Variable E : HTTPEnv.
Variable c : httpClient.

(** X12. A call of the HTTP client returns nil exactly when its body could
    be marshalled, its request could be built, [Do] returned a response,
    and the response carries the one status code the call takes for
    success: 201 for [Register], 200 for [SendHeartbeat], 204 for
    [Deregister].  Any other status, 2xx included, is an error. *)
Theorem httpClient_call_succeeds_iff (q : request) :
  result (httpClient_call E c q) = None <->
  exists payload resp,
    marshalOf E q = inl payload
    /\ newRequestErr E (net_http.method (requestOf c q payload))
                       (net_http.url (requestOf c q payload)) = None
    /\ httpDo E (requestOf c q payload) = inl resp
    /\ net_http.StatusCode resp = expectedStatus q.
Proof.
  destruct q as [inst|id|id]; cbn [httpClient_call marshalOf requestOf expectedStatus
    net_http.method net_http.url];
    [unfold httpClient_Register; destruct (jsonMarshal E inst) as [payload|e] eqn:Em
    |unfold httpClient_SendHeartbeat|unfold httpClient_Deregister]; cbv zeta.
  2:{ split; [discriminate|]. intros (p & resp & Hp & _). discriminate Hp. }
  all: match goal with
       | |- context [newRequestErr E ?m ?u] =>
           destruct (newRequestErr E m u) eqn:En
       end;
       [split; [discriminate|];
        intros (p & resp & Hp & Hn & _); inversion Hp; subst; congruence|];
       match goal with
       | |- context [httpDo E ?r] => destruct (httpDo E r) as [resp|e'] eqn:Ed
       end.
  all: try (destruct (httpCtxErr E); cbn; (split; [discriminate|]);
            intros (p & r0 & Hp & _ & Hd & _); inversion Hp; subst;
            congruence).
  all: match goal with
       | |- context [net_http.StatusCode ?r =? ?k] =>
           destruct (Z.eqb_spec (net_http.StatusCode r) k) as [Hs|Hs]
       end; cbn [negb result].
  all: try (split; [intros _; eexists _, resp; repeat split; eauto|reflexivity]).
  all: split; [discriminate|];
       intros (p & resp' & Hp & _ & Hd & Hst); inversion Hp; subst;
       congruence.
Qed.

(** X13. Every call of the HTTP client records one observation, and its
    labels are operation "register" and protocol "grpc" whichever of the
    three calls it is; the status label is "success" when the call returns
    nil and "failure" otherwise. *)
Theorem httpClient_call_observes (q : request) :
  observed (httpClient_call E c q) =
  {| operationLabel := "register"; protocolLabel := "grpc";
     statusLabel := match result (httpClient_call E c q) with
                    | None => "success"
                    | Some _ => "failure"
                    end |}.
Proof.
  destruct q as [inst|id|id]; cbn [httpClient_call];
    [unfold httpClient_Register; destruct (jsonMarshal E inst); [|reflexivity]
    |unfold httpClient_SendHeartbeat|unfold httpClient_Deregister]; cbv zeta.
  all: match goal with
       | |- context [newRequestErr E ?m ?u] =>
           destruct (newRequestErr E m u); [reflexivity|]
       end;
       match goal with
       | |- context [httpDo E ?r] => destruct (httpDo E r) as [resp|e']
       end;
       [|destruct (httpCtxErr E); reflexivity];
       match goal with
       | |- context [net_http.StatusCode ?r =? ?k] =>
           destruct (net_http.StatusCode r =? k)
       end; reflexivity.
Qed.

(** X14. When [Do] fails, a cancelled or expired context takes precedence:
    the call returns the aborted error wrapping [ctx.Err()], and the error
    [Do] returned is dropped; only under a live context does the call
    return the send error wrapping it.  No response body is touched. *)
Theorem httpClient_call_send_failure (q : request) (payload : string)
    (cause : error) :
  marshalOf E q = inl payload ->
  newRequestErr E (net_http.method (requestOf c q payload))
                  (net_http.url (requestOf c q payload)) = None ->
  httpDo E (requestOf c q payload) = inr cause ->
  result (httpClient_call E c q)
    = Some match httpCtxErr E with
           | Some ce => HttpAborted (operationOf q) ce
           | None => HttpSendFailed (operationOf q) (registryURL c) cause
           end
  /\ sent (httpClient_call E c q) = true
  /\ body (httpClient_call E c q) = NoResponse.
Proof.
  destruct q as [inst|id|id]; cbn [httpClient_call marshalOf requestOf operationOf
    net_http.method net_http.url];
    [unfold httpClient_Register|unfold httpClient_SendHeartbeat
    |unfold httpClient_Deregister]; cbv zeta;
    intros Hm Hn Hd; rewrite ?Hm, Hn, Hd;
    destruct (httpCtxErr E); repeat split.
Qed.

(** X15. The response body: whenever [Do] returned a response its body is
    closed.  It is left unread exactly when the response carries the
    expected status, and the call then returns nil; it is read first
    exactly when the status is another one, and the error then carries
    the status and the body of that very response.  A call that failed
    before [Do], on marshalling or on building the request, calls [Do] not
    at all, and no other call skips it. *)
Theorem httpClient_call_body (q : request) :
  match body (httpClient_call E c q) with
  | NoResponse =>
      forall payload resp,
        marshalOf E q = inl payload ->
        newRequestErr E (net_http.method (requestOf c q payload))
                        (net_http.url (requestOf c q payload)) = None ->
        httpDo E (requestOf c q payload) <> inl resp
  | ClosedUnread =>
      exists payload resp,
        marshalOf E q = inl payload
        /\ httpDo E (requestOf c q payload) = inl resp
        /\ net_http.StatusCode resp = expectedStatus q
        /\ result (httpClient_call E c q) = None
  | ReadThenClosed =>
      exists payload resp,
        marshalOf E q = inl payload
        /\ httpDo E (requestOf c q payload) = inl resp
        /\ net_http.StatusCode resp <> expectedStatus q
        /\ result (httpClient_call E c q)
           = Some (HttpStatus (operationOf q) (net_http.StatusCode resp)
                              (net_http.Body resp))
  end
  /\ (sent (httpClient_call E c q) = false <->
      (exists e, marshalOf E q = inr e)
      \/ (exists payload e,
            marshalOf E q = inl payload
            /\ newRequestErr E (net_http.method (requestOf c q payload))
                               (net_http.url (requestOf c q payload)) = Some e)).
Proof.
  destruct q as [inst|id|id]; cbn [httpClient_call marshalOf requestOf expectedStatus
    operationOf net_http.method net_http.url];
    [unfold httpClient_Register; destruct (jsonMarshal E inst) as [payload|e] eqn:Em
    |unfold httpClient_SendHeartbeat|unfold httpClient_Deregister]; cbv zeta.
  2:{ cbn. split; [intros p resp Hp; discriminate Hp|].
      split; [intros _; left; eauto|reflexivity]. }
  all: match goal with
       | |- context [newRequestErr E ?m ?u] =>
           destruct (newRequestErr E m u) as [ne|] eqn:En
       end.
  all: try (cbn; split;
            [intros p resp Hp Hn; inversion Hp; subst; congruence|];
            split; [intros _; right; eexists _, ne; split; eauto|reflexivity]).
  all: match goal with
       | |- context [httpDo E ?r] => destruct (httpDo E r) as [resp|e'] eqn:Ed
       end.
  all: try (destruct (httpCtxErr E); cbn;
            (split; [intros p resp Hp Hn; inversion Hp; subst; congruence|]);
            (split; [discriminate|]);
            intros [[e0 He0]|(p & e0 & Hp & Hn)];
            congruence).
  all: match goal with
       | |- context [net_http.StatusCode ?r =? ?k] =>
           destruct (Z.eqb_spec (net_http.StatusCode r) k) as [Hs|Hs]
       end; cbn.
  all: split;
       [eexists _, resp;
        split; [reflexivity|]; split; [first [exact Ed|reflexivity]|];
        split; [exact Hs|reflexivity]|];
       (split; [discriminate|]);
       intros [[e0 He0]|(p & e0 & Hp & Hn)];
       congruence.
Qed.

End HTTPFacts.

Lemma httpClient_call_send_failure_witness :
  result (httpClient_call (unreachable (Some DeadlineExceeded)) sampleHTTPClient
            (DoSendHeartbeat "orders-1"))
  = Some (HttpAborted OpHeartbeat DeadlineExceeded).
Proof.
  exact (proj1 (httpClient_call_send_failure (unreachable (Some DeadlineExceeded))
                  sampleHTTPClient (DoSendHeartbeat "orders-1") EmptyString refused
                  eq_refl eq_refl eq_refl)).
Defined.

End httpFacts.

(** ** The registry calls over gRPC *)
Module grpcFacts.
Import registry registryCalls.

Lemma wrap32_small x : - 2 ^ 31 <= x < 2 ^ 31 -> wrap32 x = x.
Proof.
  intros Hx. unfold wrap32. rewrite Z.mod_small; lia.
Qed.

Lemma wrap32_range x : - 2 ^ 31 <= wrap32 x < 2 ^ 31.
Proof.
  unfold wrap32.
  pose proof (Z.mod_pos_bound (x + 2 ^ 31) (2 ^ 32) ltac:(lia)). lia.
Qed.

Lemma collect_instances (l : list GrpcServiceInstance) (acc : list ServiceInstance) :
  fold_left (fun acc g => acc ++ [fromGrpcInstance g]) l acc
  = acc ++ map fromGrpcInstance l.
Proof.
  revert acc. induction l as [|g l IH]; intros acc; cbn.
  - now rewrite app_nil_r.
  - rewrite IH, <- app_assoc. reflexivity.
Qed.

(** X16. The port crosses the wire as an [int32]: an instance comes back
    from the conversion to [pb.GrpcServiceInstance] and back unchanged
    exactly when its port fits 32 bits; a larger port is registered as
    another number, with no error. *)
Theorem grpc_instance_round_trip (instance : ServiceInstance) :
  (fromGrpcInstance (toGrpcInstance instance) = instance
   <-> - 2 ^ 31 <= Port instance < 2 ^ 31)
  /\ - 2 ^ 31 <= GrpcPort (toGrpcInstance instance) < 2 ^ 31
  /\ (GrpcPort (toGrpcInstance instance) - Port instance) mod 2 ^ 32 = 0.
Proof.
  destruct instance as [i n h p u hp].
  unfold fromGrpcInstance, toGrpcInstance; cbn [GrpcId GrpcServiceName GrpcHost
    GrpcPort GrpcUrl GrpcHealthPath ID ServiceName Host Port URL HealthPath].
  split; [split|split].
  - intros Heq. injection Heq as Hp. rewrite <- Hp. apply wrap32_range.
  - intros Hp. now rewrite wrap32_small.
  - apply wrap32_range.
  - unfold wrap32.
    replace ((p + 2 ^ 31) mod 2 ^ 32 - 2 ^ 31 - p)
      with ((p + 2 ^ 31) mod 2 ^ 32 - (p + 2 ^ 31)) by lia.
    rewrite Zminus_mod, Zmod_mod, Z.sub_diag. reflexivity.
Qed.

Section GRPCFacts.
Context {C : Type} {api : ClientConnAPI C} {laws : ClientConnLaws C}.
Variable G : GrpcEnv C.

(** X17. [ensureConnectionReady] returns nil exactly when the channel is
    Ready at entry or is Ready when the one wait for a state change
    returns; it waits once, so a channel that has only moved from Idle to
    Connecting by then is refused.  The error it returns otherwise carries
    the state found after the wait, and wraps [ctx.Err()] when the caller's
    context is done. *)
Theorem ensureConnectionReady_spec (cc : C) :
  (ensureConnectionReady G cc = None
   <-> GetState cc = connectivity.Ready
       \/ GetState (afterWait G cc) = connectivity.Ready)
  /\ (forall err, ensureConnectionReady G cc = Some err ->
        GetState (afterWait G cc) <> connectivity.Ready
        /\ err = match grpcCtxErr G with
                 | Some ce => GrpcNotReadyCancelled ce (GetState (afterWait G cc))
                 | None => GrpcNotReady (GetState (afterWait G cc))
                 end).
Proof.
  unfold ensureConnectionReady.
  destruct (connectivity.eqb (GetState cc) connectivity.Ready) eqn:E0.
  - split; [|discriminate].
    split; [intros _; left; now apply connectivityFacts.eqb_eq|reflexivity].
  - apply connectivityFacts.eqb_neq in E0.
    destruct (connectivity.eqb (GetState (afterWait G cc)) connectivity.Ready) eqn:E1;
      cbn [negb].
    + apply connectivityFacts.eqb_eq in E1.
      split; [|discriminate]. split; [now right|reflexivity].
    + apply connectivityFacts.eqb_neq in E1. split.
      * split; [destruct (grpcCtxErr G); discriminate|].
        intros [H0|H1]; contradiction.
      * intros err Herr. split; [exact E1|].
        destruct (grpcCtxErr G); now injection Herr as <-.
Qed.

(** X18. A call of the gRPC client reaches the registry exactly when
    [ensureConnectionReady] lets it through, and returns nil exactly when
    it was let through and the reply says success; a refused call returns
    the connection error of its operation, a failed RPC its error, a
    reply without success the reply's message.  On a client whose [conn]
    is nil the call panics. *)
Theorem grpcClient_call_outcome (c : grpcClient) (q : request) :
  match conn c with
  | None => grpcClient_call G c q = None
  | Some cc =>
      exists r,
        grpcClient_call G c q = Some r
        /\ (sent r = true <-> ensureConnectionReady G cc = None)
        /\ result r =
             match ensureConnectionReady G cc with
             | Some err => Some (GrpcConnection (operationOf q) err)
             | None =>
                 match rpcOf G q with
                 | inr err => Some (GrpcFailed (operationOf q) err)
                 | inl reply =>
                     if Success reply then None
                     else Some (GrpcRejected (operationOf q) (Message reply))
                 end
             end
  end.
Proof.
  destruct q as [inst|id|id]; cbn [grpcClient_call rpcOf operationOf];
    [unfold grpcClient_Register|unfold grpcClient_SendHeartbeat
    |unfold grpcClient_Deregister]; cbv zeta;
    (destruct (conn c) as [cc|]; [|reflexivity]);
    eexists; (split; [reflexivity|]);
    destruct (ensureConnectionReady G cc) as [err|]; cbn.
  all: try (split; [split; discriminate|reflexivity]).
  all: match goal with
       | |- context [match ?x with inl _ => _ | inr _ => _ end] =>
           destruct x as [reply|err]
       end; cbn.
  all: try (split; [split; reflexivity|reflexivity]).
  all: destruct (Success reply); cbn; (split; [split; reflexivity|reflexivity]).
Qed.

(** X19. The labels of the observation a gRPC call records: operation
    "register" and protocol "grpc" for [Register], [SendHeartbeat] and
    [Deregister] alike; status "success" when the call returns nil,
    "failed" when [Deregister] got a reply without success, and "failure"
    for every other error. *)
Theorem grpcClient_call_observes (c : grpcClient) (q : request)
    (r : CallResult (option callError)) :
  grpcClient_call G c q = Some r ->
  observed r =
  {| operationLabel := "register"; protocolLabel := "grpc";
     statusLabel := match result r with
                    | None => "success"
                    | Some (GrpcRejected OpDeregister _) => "failed"
                    | Some _ => "failure"
                    end |}.
Proof.
  destruct q as [inst|id|id]; cbn [grpcClient_call];
    [unfold grpcClient_Register|unfold grpcClient_SendHeartbeat
    |unfold grpcClient_Deregister]; cbv zeta;
    (destruct (conn c) as [cc|]; [|discriminate]);
    intros Hr; injection Hr as <-;
    (destruct (ensureConnectionReady G cc) as [err|]; [reflexivity|]).
  all: match goal with
       | |- context [match ?x with inl _ => _ | inr _ => _ end] =>
           destruct x as [reply|err]; [|reflexivity]
       end;
       destruct (Success reply); reflexivity.
Qed.

(** X20. [GetHealthyServices] returns the instances of the reply in the
    reply's order, each converted field by field, with a nil error.  When
    the connection is refused it returns a nil slice with the connection
    error and does not call the registry; when the RPC fails it returns a
    nil slice with that error.  Its observation is labelled
    "get_healthy_services", with status "success" exactly when the error
    is nil. *)
Theorem grpcClient_GetHealthyServices_result (c : grpcClient) (cc : C)
    (serviceName : string) :
  conn c = Some cc ->
  exists r,
    grpcClient_GetHealthyServices G c serviceName = Some r
    /\ result r =
         match ensureConnectionReady G cc with
         | Some err => ([], Some (GrpcConnection OpGetHealthy err))
         | None =>
             match GetHealthyServicesRPC G serviceName with
             | inr err => ([], Some (GrpcFailed OpGetHealthy err))
             | inl reply => (map fromGrpcInstance reply, None)
             end
         end
    /\ (sent r = true <-> ensureConnectionReady G cc = None)
    /\ observed r =
         {| operationLabel := "get_healthy_services"; protocolLabel := "grpc";
            statusLabel := match snd (result r) with
                           | None => "success"
                           | Some _ => "failure"
                           end |}.
Proof.
  intros Hc. unfold grpcClient_GetHealthyServices; cbv zeta. rewrite Hc.
  eexists; split; [reflexivity|].
  destruct (ensureConnectionReady G cc) as [err|]; cbn.
  - split; [reflexivity|]. split; [split; discriminate|reflexivity].
  - destruct (GetHealthyServicesRPC G serviceName) as [reply|err]; cbn.
    + rewrite collect_instances. cbn.
      split; [reflexivity|]. split; [split; reflexivity|reflexivity].
    + split; [reflexivity|]. split; [split; reflexivity|reflexivity].
Qed.

(** X21. After [Close] the client is of no more use: on a channel that
    stays in Shutdown once it is there, every later call is refused by
    [ensureConnectionReady] with the state Shutdown in its error, and no
    RPC is sent. *)
Theorem grpcClient_call_after_Close (c : grpcClient) (cc : C) (q : request) :
  conn c = Some cc ->
  (forall x, GetState x = connectivity.Shutdown ->
             GetState (afterWait G x) = connectivity.Shutdown) ->
  exists r,
    grpcClient_call G (fst (grpcClient_Close c)) q = Some r
    /\ sent r = false
    /\ result r =
         Some (GrpcConnection (operationOf q)
                 match grpcCtxErr G with
                 | Some ce => GrpcNotReadyCancelled ce connectivity.Shutdown
                 | None => GrpcNotReady connectivity.Shutdown
                 end).
Proof.
  intros Hc Hstay.
  assert (Hclosed : exists cc', conn (fst (grpcClient_Close c)) = Some cc'
                                /\ GetState cc' = connectivity.Shutdown).
  { unfold grpcClient_Close. rewrite Hc.
    destruct (connectivity.eqb (GetState cc) connectivity.Shutdown) eqn:Es; cbn [negb].
    - exists cc. split; [exact Hc|]. now apply connectivityFacts.eqb_eq.
    - pose proof (conn_Close_shutdown cc) as Hs.
      destruct (conn_Close cc) as [cc' err]. exists cc'. split; [reflexivity|exact Hs]. }
  destruct Hclosed as (cc' & Hc' & Hs').
  assert (Hnot : ensureConnectionReady G cc'
                 = Some match grpcCtxErr G with
                        | Some ce => GrpcNotReadyCancelled ce connectivity.Shutdown
                        | None => GrpcNotReady connectivity.Shutdown
                        end).
  { unfold ensureConnectionReady. rewrite Hs', (Hstay cc' Hs'). cbn.
    destruct (grpcCtxErr G); reflexivity. }
  destruct q as [inst|id|id]; cbn [grpcClient_call operationOf];
    [unfold grpcClient_Register|unfold grpcClient_SendHeartbeat
    |unfold grpcClient_Deregister]; cbv zeta; rewrite Hc', Hnot;
    eexists; repeat split.
Qed.

(** X22. A client made by [NewGRPCClient] holds a connection, so none of
    its calls panics on a nil [conn], before [Close] or after it. *)
Theorem NewGRPCClient_calls_defined (addr : string) (timeout : Duration)
    (cl : Client) (q : request) :
  NewGRPCClient addr timeout = inl cl ->
  exists g,
    cl = GRPC g
    /\ registryAddress g = addr
    /\ grpcClient_call G g q <> None
    /\ grpcClient_call G (fst (grpcClient_Close g)) q <> None.
Proof.
  unfold NewGRPCClient. destruct (grpc_NewClient addr) as [cc|err]; [|discriminate].
  intros Hcl; injection Hcl as <-. eexists; split; [reflexivity|].
  split; [reflexivity|].
  assert (Hdef : forall g : grpcClient, conn g <> None -> grpcClient_call G g q <> None).
  { intros g Hg. destruct q as [inst|id|id]; cbn [grpcClient_call];
      [unfold grpcClient_Register|unfold grpcClient_SendHeartbeat
      |unfold grpcClient_Deregister]; cbv zeta;
      (destruct (conn g); [discriminate|contradiction]). }
  split; apply Hdef; [discriminate|].
  unfold grpcClient_Close; cbn [conn].
  destruct (negb _); [destruct (conn_Close cc)|]; discriminate.
Qed.

End GRPCFacts.

Lemma grpcClient_call_observes_witness :
  exists r,
    grpcClient_call accepting (sampleGrpcClient connectivity.Ready)
      (DoDeregister "orders-1") = Some r
    /\ observed r = {| operationLabel := "register"; protocolLabel := "grpc";
                       statusLabel := "success" |}.
Proof.
  eexists. split; [reflexivity|].
  exact (grpcClient_call_observes accepting (sampleGrpcClient connectivity.Ready)
           (DoDeregister "orders-1") _ eq_refl).
Defined.

Lemma grpcClient_GetHealthyServices_result_witness :
  exists r,
    grpcClient_GetHealthyServices accepting (sampleGrpcClient connectivity.Ready)
      "orders" = Some r
    /\ result r = ([sampleInstance], None).
Proof.
  destruct (grpcClient_GetHealthyServices_result accepting
              (sampleGrpcClient connectivity.Ready) _ "orders" eq_refl)
    as (r & Hr & Hres & _).
  exists r. split; [exact Hr|]. rewrite Hres. vm_compute. reflexivity.
Defined.

Lemma grpcClient_call_after_Close_witness :
  exists r,
    grpcClient_call accepting
      (fst (grpcClient_Close (sampleGrpcClient connectivity.Ready)))
      (DoSendHeartbeat "orders-1") = Some r
    /\ sent r = false
    /\ result r = Some (GrpcConnection OpHeartbeat (GrpcNotReady connectivity.Shutdown)).
Proof.
  exact (grpcClient_call_after_Close accepting (sampleGrpcClient connectivity.Ready)
           _ (DoSendHeartbeat "orders-1") eq_refl (fun x Hx => Hx)).
Defined.

Lemma NewGRPCClient_calls_defined_witness :
  exists g : grpcClient (C := GrpcGo.ClientConn),
    registryAddress g = "registry:9090"
    /\ grpcClient_call accepting g (DoRegister sampleInstance) <> None.
Proof.
  destruct (NewGRPCClient_calls_defined (api := GrpcGo.api) accepting
              "registry:9090" (5 * Second)
              (GRPC (sampleGrpcClient connectivity.Idle))
              (DoRegister sampleInstance) ltac:(vm_compute; reflexivity))
    as (g & _ & Ha & Hcall & _).
  exists g. split; [exact Ha|exact Hcall].
Defined.

End grpcFacts.

(** ** The default configuration *)
Module defaultsFacts.
Import registry registration.

Section Defaults.
Context {C : Type} {api : ClientConnAPI C}.

(** X23. [NewDefaultConfig] sets the four numbers and leaves the address
    and the type empty, so [NewRegistrar] rejects it as it is, on the
    address.  Its numbers pass every numeric check: once an address is
    filled in, construction can only fail on the registry type or on
    opening the gRPC connection. *)
Theorem NewDefaultConfig_needs_registry (inst : ServiceInstance) (cfg : Config) :
  HeartbeatInterval cfg = HeartbeatInterval NewDefaultConfig ->
  CallTimeout cfg = CallTimeout NewDefaultConfig ->
  MaxRetries cfg = MaxRetries NewDefaultConfig ->
  RetryDelay cfg = RetryDelay NewDefaultConfig ->
  NewRegistrar (C := C) inst (Some NewDefaultConfig) = inr (Errorf MsgRegistryURL)
  /\ (RegistryURL cfg <> "" ->
      forall e, NewRegistrar (C := C) inst (Some cfg) = inr e ->
        (RegistryType cfg <> "http" /\ RegistryType cfg <> "grpc"
         /\ e = Errorf (MsgUnsupportedType (RegistryType cfg)))
        \/ (RegistryType cfg = "grpc"
            /\ exists cause, grpc_NewClient (RegistryURL cfg) = inr cause
                 /\ e = Wrapf MsgGrpcClient
                          (Wrapf (MsgGrpcDial (RegistryURL cfg)) cause))).
Proof.
  intros Hh Hc Hm Hd. split; [reflexivity|].
  intros Hu e. unfold NewRegistrar. rewrite Hh, Hc, Hm, Hd.
  destruct (String.eqb_spec (RegistryURL cfg) ""); [contradiction|].
  change (HeartbeatInterval NewDefaultConfig <=? 0) with false.
  change (CallTimeout NewDefaultConfig <=? 0) with false.
  change (MaxRetries NewDefaultConfig <? 0) with false.
  change (RetryDelay NewDefaultConfig <? 0) with false.
  cbv iota.
  destruct (String.eqb_spec (RegistryType cfg) "http") as [Hk|Hk]; [discriminate|].
  destruct (String.eqb_spec (RegistryType cfg) "grpc") as [Hg|Hg].
  - unfold NewGRPCClient.
    destruct (grpc_NewClient (RegistryURL cfg)) as [cc|cause]; [discriminate|].
    intros He; injection He as <-. right. split; [exact Hg|].
    exists cause. split; reflexivity.
  - intros He; injection He as <-. left. repeat split; assumption.
Qed.

End Defaults.

Lemma NewDefaultConfig_needs_registry_witness :
  NewRegistrar (C := GrpcGo.ClientConn) sampleInstance (Some NewDefaultConfig)
  = inr (Errorf MsgRegistryURL).
Proof.
  exact (proj1 (NewDefaultConfig_needs_registry (api := GrpcGo.api) sampleInstance
                  (sampleConfig "http" 5) eq_refl eq_refl eq_refl eq_refl)).
Defined.

End defaultsFacts.
